(** * Instruction Sync: a shallow embedding of [extension.ts]

    The development follows the current revision of the extension (the one
    whose exports the unit tests import): destination resolution, URL and
    local-path classification, content validation, remote-configuration
    parsing, the merge of remote and local sources, the per-run confirmation
    session and the sync orchestrator.  The first revision of the extension,
    which the repository holds as well, is embedded in the module [Legacy].

    JavaScript strings are modelled by [string]; the built-ins the code calls
    on them ([toLowerCase], [trim], [JSON.parse], [new URL], [vscode.Uri])
    are collected in the interface [Platform], and every result below holds
    for each of its implementations.  [Reference] gives an executable
    implementation over ASCII text, used to run the definitions on concrete
    inputs. *)

From Stdlib Require Import Ascii ZArith Bool.
From stdpp Require Import base option list strings gmap.

Set Default Proof Using "Type".
#[local] Set Warnings "-register-all".

(** ** JavaScript values *)

(** A number as far as this program observes it: its truthiness (neither
    zero nor NaN) and the text [String(n)] yields. *)
Record JsNumber := { num_truthy : bool; num_text : string }.

(** The values [JSON.parse] produces.  An object keeps its members in source
    order; a later member with the same name shadows an earlier one. *)
Inductive json :=
| JNull
| JBool (b : bool)
| JNumber (n : JsNumber)
| JString (s : string)
| JArray (items : list json)
| JObject (members : list (string * json)).

(** [ToBoolean]. *)
Definition truthy (v : json) : bool :=
  match v with
  | JNull => false
  | JBool b => b
  | JNumber n => num_truthy n
  | JString s => negb (String.eqb s "")
  | JArray _ | JObject _ => true
  end.

(** Own-property lookup in the member list of an object: the last member
    named [k]. *)
Fixpoint member (k : string) (l : list (string * json)) : option json :=
  match l with
  | [] => None
  | (k', v) :: rest =>
      match member k rest with
      | Some w => Some w
      | None => if String.eqb k' k then Some v else None
      end
  end.

(** Whether [ToString] returns for a value.  It throws a TypeError on an
    object that has an own member [toString]: nothing that [JSON.parse]
    creates can be called, so the member is passed over, and [valueOf], own or
    inherited, yields no primitive value either.  An array is joined, and so
    throws when one of its elements does. *)
Fixpoint printable (v : json) : bool :=
  match v with
  | JArray items => forallb printable items
  | JObject members =>
      match member "toString" members with
      | Some _ => false
      | None => true
      end
  | _ => true
  end.

(** The text [ToString] yields when it returns.  An array prints its
    elements separated by commas, a null element as the empty string. *)
Fixpoint js_text (v : json) : string :=
  match v with
  | JNull => "null"
  | JBool true => "true"
  | JBool false => "false"
  | JNumber n => num_text n
  | JString s => s
  | JArray items =>
      (fix join (l : list json) : string :=
         match l with
         | [] => ""
         | x :: rest =>
             let shown := match x with JNull => "" | _ => js_text x end in
             match rest with
             | [] => shown
             | _ :: _ => shown +:+ "," +:+ join rest
             end
         end) items
  | JObject _ => "[object Object]"
  end.

(** [ToString], as applied by template literals; [None] when it throws. *)
Definition js_to_string (v : json) : option string :=
  if printable v then Some (js_text v) else None.

(** The message of the TypeError that [ToString] throws. *)
Definition TypeError_message : string := "Cannot convert object to primitive value".

(** [v.k] for the property names this program reads (none of them lives on
    a prototype): [None] is [undefined].  Reading a property of [null]
    throws; callers treat [JNull] before they call [prop]. *)
Definition prop (v : json) (k : string) : option json :=
  match v with
  | JObject l => member k l
  | _ => None
  end.

(** [typeof v === 'string'] on a possibly undefined value. *)
Definition is_js_string (v : option json) : bool :=
  match v with Some (JString _) => true | _ => false end.

(** [a ?? d]: [d] replaces [undefined] and [null] only. *)
Definition nullish_or (a : option json) (d : json) : json :=
  match a with
  | None | Some JNull => d
  | Some v => v
  end.

(** ** String methods that are plain sequence operations *)

Fixpoint startsWith (s p : string) : bool :=
  match p, s with
  | EmptyString, _ => true
  | String c p', String d s' => if Ascii.eqb c d then startsWith s' p' else false
  | String _ _, EmptyString => false
  end.

Fixpoint includes (s needle : string) : bool :=
  startsWith s needle ||
  match s with
  | EmptyString => false
  | String _ s' => includes s' needle
  end.

Definition endsWith (s suffix : string) : bool :=
  let n := String.length s in
  let k := String.length suffix in
  (k <=? n)%nat && String.eqb (String.substring (n - k) k s) suffix.

(** The double-quote character, and a string between two of them. *)
Definition dquote : string := String (ascii_of_nat 34) EmptyString.

Definition quoted (s : string) : string := dquote +:+ s +:+ dquote.

(** ** The platform interface *)

(** What [new URL(u)] exposes to this program. *)
Record Url := { hostname : string; pathname : string }.

Class Platform := {
  (** [String.prototype.toLowerCase] *)
  toLowerCase : string -> string;
  (** [String.prototype.trim] *)
  trim : string -> string;
  (** [JSON.parse]; [None] when it throws, and then [JSON_error] is the
      message of the error thrown *)
  JSON_parse : string -> option json;
  JSON_error : string -> string;
  (** [new URL]; [None] when it throws *)
  new_URL : string -> option Url;
  (** [vscode.Uri.parse], [vscode.Uri.file], [vscode.Uri.joinPath]; a URI is
      identified with its text *)
  Uri_parse : string -> string;
  Uri_file : string -> string;
  Uri_joinPath : string -> string -> string
}.

(** [trim] removes a prefix and a suffix and nothing in between: the one
    fact about the built-ins that a result below relies on. *)
Definition trim_is_infix `{Platform} : Prop :=
  forall s, exists a b, s = a +:+ trim s +:+ b.

(** ** Data model *)

(** [interface InstructionSource].  The optional members hold whatever the
    settings or the remote document carry there ([None] is [undefined]): the
    type annotations are erased at run time and only [language] and [url]
    are checked when a remote entry is read. *)
Record InstructionSource := {
  language : string;
  url : string;
  enabled : option json;
  destinationFolder : option json;
  destinationFile : option json
}.

Record RemoteConfig := {
  rc_sources : option (list InstructionSource);
  rc_syncOnOpen : option bool;
  rc_syncOnConfigChange : option bool;
  rc_confirmBeforeSync : option bool
}.

(** [interface SyncSession] *)
Record SyncSession := { confirmAll : bool }.

(** The result of [getDestinationPath]. *)
Record Destination := { folder : json; file : json; fullPath : string }.

(** ** Destination resolver *)

(** [source?.m] *)
Definition optional_member {A B} (m : A -> option B) (source : option A) : option B :=
  match source with
  | Some s => m s
  | None => None
  end.

(** [None] when the template literal that builds [fullPath] throws. *)
Definition getDestinationPath (source : option InstructionSource) : option Destination :=
  let folder := nullish_or (optional_member destinationFolder source) (JString ".github") in
  let file :=
    nullish_or (optional_member destinationFile source) (JString "copilot-instructions.md") in
  match js_to_string folder with
  | Some folderText =>
      match js_to_string file with
      | Some fileText =>
          Some {| folder := folder; file := file;
                  fullPath := folderText +:+ "/" +:+ fileText |}
      | None => None
      end
  | None => None
  end.

(** ** Local-path detector *)

Definition is_ascii_letter (c : ascii) : bool :=
  let n := nat_of_ascii c in
  ((65 <=? n)%nat && (n <=? 90)%nat) || ((97 <=? n)%nat && (n <=? 122)%nat).

(** [/^[a-zA-Z]:[\\/]/.test(source)] *)
Definition drive_prefix (source : string) : bool :=
  match source with
  | String c (String ":" (String sep _)) =>
      is_ascii_letter c && (Ascii.eqb sep "\" || Ascii.eqb sep "/")
  | _ => false
  end.

Definition isLocalPath (source : string) : bool :=
  if startsWith source "file://" then true
  else if drive_prefix source then true
  else if startsWith source "/" && negb (startsWith source "//") then true
  else false.

(** ** URL classifier *)

Record GitHubKind := { isGitHub : bool; isEnterprise : bool }.

Definition isGitHubUrl `{Platform} (url : string) : GitHubKind :=
  match new_URL url with
  | Some parsedUrl =>
      let hostname := toLowerCase (hostname parsedUrl) in
      if String.eqb hostname "github.com" || String.eqb hostname "raw.githubusercontent.com"
      then {| isGitHub := true; isEnterprise := false |}
      else if endsWith hostname ".ghe.com" || endsWith hostname ".github.com"
      then {| isGitHub := true; isEnterprise := true |}
      else {| isGitHub := false; isEnterprise := false |}
  | None => {| isGitHub := false; isEnterprise := false |}
  end.

Definition isAzureDevOpsUrl `{Platform} (url : string) : bool :=
  match new_URL url with
  | Some parsedUrl =>
      let hostname := toLowerCase (hostname parsedUrl) in
      if String.eqb hostname "dev.azure.com" || endsWith hostname ".visualstudio.com"
      then true
      else if includes (pathname parsedUrl) "/_apis/" || includes (pathname parsedUrl) "/_git/"
      then true
      else false
  | None => false
  end.

Definition localPathToUri `{Platform} (source : string) : string :=
  if startsWith source "file://" then Uri_parse source else Uri_file source.

(** ** Content validator *)

Record Validation := { valid : bool; reason : option string }.

Definition htmlErrorIndicators : list string :=
  [ "<!doctype html"; "<html"; "<head>"; "<title>404"; "<title>401";
    "<title>403"; "<title>500"; "page not found"; "access denied";
    "unauthorized"; "sign in to"; "login required" ].

(** [a || b] on possibly undefined values. *)
Definition js_or (a b : option json) : option json :=
  match a with
  | Some v => if truthy v then a else b
  | None => b
  end.

Definition truthy_opt (a : option json) : bool :=
  match a with Some v => truthy v | None => false end.

Definition js_to_string_opt (a : option json) : option string :=
  match a with Some v => js_to_string v | None => Some "undefined" end.

(** The [try { JSON.parse ... } catch { }] block of the validator: the
    reason it returns, or [None] when it falls through (the parse threw, a
    member could not be read, no error member is truthy, or the template
    literal that builds the reason threw). *)
Definition api_error `{Platform} (content : string) : option string :=
  match JSON_parse content with
  | None => None
  | Some JNull => None
  | Some json =>
      let message := prop json "message" in
      let error := prop json "error" in
      let errors := prop json "errors" in
      if truthy_opt (js_or (js_or message error) errors)
      then
        match js_to_string_opt (js_or (js_or message error)
                                      (Some (JString "Unknown error"))) with
        | Some text => Some ("API error: " +:+ text)
        | None => None
        end
      else None
  end.

Definition isValidInstructionContent `{Platform} (content source : string) : Validation :=
  if String.eqb content "" || Nat.eqb (String.length (trim content)) 0
  then {| valid := false; reason := Some "Empty content received" |}
  else
    let lowerContent := toLowerCase content in
    let trimmedLower := trim lowerContent in
    if startsWith trimmedLower "<!doctype" || startsWith trimmedLower "<html"
    then
      if existsb (includes lowerContent) htmlErrorIndicators
      then {| valid := false;
              reason := Some "Received HTML error page instead of instructions content" |}
      else {| valid := false;
              reason := Some "Received HTML content instead of Markdown instructions" |}
    else
      match (if startsWith trimmedLower "{" then api_error content else None) with
      | Some r => {| valid := false; reason := Some r |}
      | None => {| valid := true; reason := None |}
      end.

(** ** The editor and the network *)

Inductive Choice := Yes | YesToAll | No | Always.

(** What a run shows and writes, in order. *)
Inductive Event :=
| EvInformation (message : string)
| EvWarning (message : string)
| EvError (message : string)
| EvPrompt (message : string) (answer : option Choice)
| EvWrite (uri content : string).

Record WorkspaceFolder := { wf_uri : string; wf_name : string }.

(** The result of [fetch]: it rejects, or resolves to a response. *)
Inductive HttpResult :=
| HttpFailure (message : string)
| HttpResponse (ok : bool) (status statusText body : string).

Record AuthOptions := { createIfNone : bool; silent : bool }.

(** The result of [vscode.authentication.getSession]. *)
Inductive AuthResult :=
| AuthThrows (message : string)
| NoSession
| Session (accessToken : string).

(** The settings under [instructionSync], as [config.get] returns them
    (defaults applied). *)
Record Settings := {
  cfg_sources : list InstructionSource;
  cfg_remoteConfigUrl : string;
  cfg_remoteConfigCacheDuration : Z;
  cfg_confirmBeforeSync : bool
}.

(** Everything a run reads or changes.  [files] maps a URI to the decoded
    text of the file; [answers] holds the user's answers to the coming
    confirmation prompts ([None]: the prompt is dismissed; a prompt shown when
    no answer is left is dismissed as well); [sessions] is the store of the
    [SyncSession] objects alive, addressed by reference. *)
Record World := {
  files : gmap string string;
  write_denied : string -> bool;
  fs_error : string -> string;
  http : string -> list (string * string) -> HttpResult;
  getSession : string -> list string -> AuthOptions -> AuthResult;
  answers : list (option Choice);
  settings : Settings;
  remoteConfigCache : option (RemoteConfig * Z);
  now : Z;
  workspaceFolders : option (list WorkspaceFolder);
  findFiles : WorkspaceFolder -> string -> bool;
  sessions : gmap nat SyncSession
}.

(** ** Effects: state, exceptions and the trace *)

Inductive Result (A : Type) :=
| Ok (value : A)
| Throw (message : string).
Arguments Ok {A} value.
Arguments Throw {A} message.

Record Outcome (A : Type) := {
  result : Result A;
  final : World;
  events : list Event
}.
Arguments result {A} _.
Arguments final {A} _.
Arguments events {A} _.

Definition M (A : Type) : Type := World -> Outcome A.

Definition ret {A} (a : A) : M A :=
  fun w => {| result := Ok a; final := w; events := [] |}.

Definition throw {A} (message : string) : M A :=
  fun w => {| result := Throw message; final := w; events := [] |}.

Definition bind {A B} (m : M A) (k : A -> M B) : M B :=
  fun w =>
    let o := m w in
    match result o with
    | Ok a =>
        let o' := k a (final o) in
        {| result := result o'; final := final o'; events := events o ++ events o' |}
    | Throw e => {| result := Throw e; final := final o; events := events o |}
    end.

(** [try { m } catch (error) { handler(error.message) }] *)
Definition try_catch {A} (m : M A) (handler : string -> M A) : M A :=
  fun w =>
    let o := m w in
    match result o with
    | Ok a => o
    | Throw e =>
        let o' := handler e (final o) in
        {| result := result o'; final := final o'; events := events o ++ events o' |}
    end.

Declare Scope m_scope.
Delimit Scope m_scope with M.
Notation "x <- m ;; k" := (bind m (fun x => k))
  (at level 100, m at next level, right associativity) : m_scope.
Notation "m ;;; k" := (bind m (fun _ => k))
  (at level 100, right associativity) : m_scope.
Open Scope m_scope.

Definition get_world : M World :=
  fun w => {| result := Ok w; final := w; events := [] |}.

Definition put_world (w' : World) : M unit :=
  fun _ => {| result := Ok tt; final := w'; events := [] |}.

Definition emit (e : Event) : M unit :=
  fun w => {| result := Ok tt; final := w; events := [e] |}.

(** A value whose computation may have thrown a TypeError. *)
Definition or_throw {A} (a : option A) : M A :=
  match a with
  | Some x => ret x
  | None => throw TypeError_message
  end.

Definition set_files (f : gmap string string) (w : World) : World :=
  {| files := f; write_denied := write_denied w; fs_error := fs_error w;
     http := http w; getSession := getSession w; answers := answers w;
     settings := settings w; remoteConfigCache := remoteConfigCache w;
     now := now w; workspaceFolders := workspaceFolders w;
     findFiles := findFiles w; sessions := sessions w |}.

Definition set_answers (a : list (option Choice)) (w : World) : World :=
  {| files := files w; write_denied := write_denied w; fs_error := fs_error w;
     http := http w; getSession := getSession w; answers := a;
     settings := settings w; remoteConfigCache := remoteConfigCache w;
     now := now w; workspaceFolders := workspaceFolders w;
     findFiles := findFiles w; sessions := sessions w |}.

Definition set_settings (c : Settings) (w : World) : World :=
  {| files := files w; write_denied := write_denied w; fs_error := fs_error w;
     http := http w; getSession := getSession w; answers := answers w;
     settings := c; remoteConfigCache := remoteConfigCache w;
     now := now w; workspaceFolders := workspaceFolders w;
     findFiles := findFiles w; sessions := sessions w |}.

Definition set_remoteConfigCache (c : option (RemoteConfig * Z)) (w : World) : World :=
  {| files := files w; write_denied := write_denied w; fs_error := fs_error w;
     http := http w; getSession := getSession w; answers := answers w;
     settings := settings w; remoteConfigCache := c;
     now := now w; workspaceFolders := workspaceFolders w;
     findFiles := findFiles w; sessions := sessions w |}.

Definition set_sessions (h : gmap nat SyncSession) (w : World) : World :=
  {| files := files w; write_denied := write_denied w; fs_error := fs_error w;
     http := http w; getSession := getSession w; answers := answers w;
     settings := settings w; remoteConfigCache := remoteConfigCache w;
     now := now w; workspaceFolders := workspaceFolders w;
     findFiles := findFiles w; sessions := h |}.

(** *** The collaborators *)

(** [vscode.workspace.fs.readFile] followed by the UTF-8 decoding. *)
Definition readFile (uri : string) : M string :=
  w <- get_world;;
  match files w !! uri with
  | Some content => ret content
  | None => throw (fs_error w uri)
  end.

(** [vscode.workspace.fs.writeFile] of the UTF-8 encoding of [content]. *)
Definition writeFile (uri content : string) : M unit :=
  emit (EvWrite uri content);;;
  w <- get_world;;
  if write_denied w uri then throw (fs_error w uri)
  else put_world (set_files (<[uri := content]> (files w)) w).

Definition showInformationMessage (message : string) : M unit :=
  emit (EvInformation message).

Definition showErrorMessage (message : string) : M unit :=
  emit (EvError message).

(** [showWarningMessage] with a message only. *)
Definition showWarningMessage (message : string) : M unit :=
  emit (EvWarning message).

(** [showWarningMessage] with the four choices of the confirmation prompt;
    [None] is [undefined]. *)
Definition showConfirmation (message : string) : M (option Choice) :=
  w <- get_world;;
  let answer := match answers w with a :: _ => a | [] => None end in
  put_world (set_answers (tail (answers w)) w);;;
  emit (EvPrompt message answer);;;
  ret answer.

Definition fetch (url : string) (headers : list (string * string)) : M HttpResult :=
  w <- get_world;;
  match http w url headers with
  | HttpFailure message => throw message
  | response => ret response
  end.

Definition authentication_getSession
    (providerId : string) (scopes : list string) (options : AuthOptions)
    : M (option string) :=
  w <- get_world;;
  match getSession w providerId scopes options with
  | AuthThrows message => throw message
  | NoSession => ret None
  | Session token => ret (Some token)
  end.

(** ** Credentials *)

Definition getGitHubToken (isEnterprise : bool) : M (option string) :=
  try_catch
    (let scopes := ["repo"] in
     let authProviderId := if isEnterprise then "github-enterprise" else "github" in
     session <- authentication_getSession authProviderId scopes
                  {| createIfNone := false; silent := true |};;
     match session with
     | Some accessToken => ret (Some accessToken)
     | None =>
         authentication_getSession authProviderId scopes
           {| createIfNone := false; silent := false |}
     end)
    (fun _ => ret None).

Definition ADO_RESOURCE_SCOPE : string := "499b84ac-1321-427f-aa17-267ca6975798/.default".

(** [if (s?.accessToken)]: a session with a non-empty token. *)
Definition usable_token (session : option string) : option string :=
  match session with
  | Some accessToken => if String.eqb accessToken "" then None else Some accessToken
  | None => None
  end.

Definition getAzureDevOpsToken : M (option string) :=
  try_catch
    (silentSession <- authentication_getSession "microsoft" [ADO_RESOURCE_SCOPE]
                        {| createIfNone := false; silent := true |};;
     match usable_token silentSession with
     | Some accessToken => ret (Some accessToken)
     | None =>
         session <- authentication_getSession "microsoft" [ADO_RESOURCE_SCOPE]
                      {| createIfNone := true; silent := false |};;
         ret (usable_token session)
     end)
    (fun _ => ret None).

(** ** Content fetcher *)

(** The [Authorization] header, added when [if (token)] holds. *)
Definition bearer (token : option string) : list (string * string) :=
  match usable_token token with
  | Some t => [("Authorization", "Bearer " +:+ t)]
  | None => []
  end.

Definition reason_text (v : Validation) : string :=
  match reason v with Some r => r | None => "undefined" end.

Definition fetchContent `{Platform} (source : string) : M string :=
  if isLocalPath source then
    try_catch
      (let uri := localPathToUri source in
       readFile uri)
      (fun message =>
         throw ("Failed to read local file " +:+ source +:+ ": " +:+ message))
  else
    let kind := isGitHubUrl source in
    let isAzureDevOps := isAzureDevOpsUrl source in
    headers <-
      (if isGitHub kind then
         token <- getGitHubToken (isEnterprise kind);;
         ret (("Accept", "application/vnd.github.v3.raw") :: bearer token)
       else if isAzureDevOps then
         token <- getAzureDevOpsToken;;
         ret (("Accept", "text/plain") :: bearer token)
       else ret []);;
    response <- fetch source headers;;
    match response with
    | HttpFailure message => throw message
    | HttpResponse ok status statusText content =>
        if negb ok then
          throw ("Failed to fetch from " +:+ source +:+ ": " +:+ status +:+ " " +:+ statusText)
        else
          let validation := isValidInstructionContent content source in
          if negb (valid validation) then
            throw ("Invalid content from " +:+ source +:+ ": " +:+ reason_text validation)
          else ret content
    end.

(** ** Reading and writing the destination *)

(** [null] is [None]. *)
Definition getLocalInstructions `{Platform}
    (workspaceFolder : WorkspaceFolder) (source : InstructionSource)
    : M (option string) :=
  dest <- or_throw (getDestinationPath (Some source));;
  let instructionsUri := Uri_joinPath (wf_uri workspaceFolder) (fullPath dest) in
  try_catch
    (content <- readFile instructionsUri;;
     ret (Some content))
    (fun _ => ret None).

(** [vscode.workspace.fs.createDirectory]; directories are not part of
    [files], and the caller ignores a failure. *)
Definition createDirectory (uri : string) : M unit := ret tt.

(** [Uri.joinPath] rejects a path segment that is not a string. *)
Definition path_segment (v : json) : M string :=
  match v with
  | JString s => ret s
  | _ => throw "The path argument must be of type string"
  end.

Definition writeLocalInstructions `{Platform}
    (workspaceFolder : WorkspaceFolder) (content : string) (source : InstructionSource)
    : M unit :=
  dest <- or_throw (getDestinationPath (Some source));;
  segment <- path_segment (folder dest);;
  let destinationFolderUri := Uri_joinPath (wf_uri workspaceFolder) segment in
  let instructionsUri := Uri_joinPath (wf_uri workspaceFolder) (fullPath dest) in
  try_catch (createDirectory destinationFolderUri) (fun _ => ret tt);;;
  writeFile instructionsUri content.

(** ** Language detection *)

Definition languagePatterns : list (string * list string) :=
  [ ("AL", ["**/*.al"; "app.json"]);
    ("C#", ["**/*.cs"; "**/*.csproj"]);
    ("TypeScript", ["**/*.ts"; "**/*.tsx"]);
    ("JavaScript", ["**/*.js"; "**/*.jsx"]);
    ("Python", ["**/*.py"]);
    ("Java", ["**/*.java"]);
    ("Go", ["**/*.go"]);
    ("Rust", ["**/*.rs"]);
    ("C++", ["**/*.cpp"; "**/*.hpp"; "**/*.cc"]);
    ("C", ["**/*.c"; "**/*.h"]);
    ("Ruby", ["**/*.rb"]);
    ("PHP", ["**/*.php"]);
    ("Swift", ["**/*.swift"]);
    ("Kotlin", ["**/*.kt"]);
    ("Powershell", ["**/*.ps1"]) ].

(** The inner loop: the first pattern with a file decides, the rest is
    skipped. *)
Fixpoint any_pattern_matches (w : World) (workspaceFolder : WorkspaceFolder)
    (patterns : list string) : bool :=
  match patterns with
  | [] => false
  | pattern :: rest =>
      if findFiles w workspaceFolder pattern then true
      else any_pattern_matches w workspaceFolder rest
  end.

Fixpoint detect_languages (w : World) (workspaceFolder : WorkspaceFolder)
    (table : list (string * list string)) : list string :=
  match table with
  | [] => []
  | (language, patterns) :: rest =>
      if any_pattern_matches w workspaceFolder patterns
      then language :: detect_languages w workspaceFolder rest
      else detect_languages w workspaceFolder rest
  end.

Definition detectWorkspaceLanguage (workspaceFolder : WorkspaceFolder) : M (list string) :=
  w <- get_world;;
  ret (detect_languages w workspaceFolder languagePatterns).

(** ** Sync of one source *)

(** [session?.confirmAll], read through the reference. *)
Definition session_confirmAll (session : option nat) : M bool :=
  w <- get_world;;
  match session with
  | Some r =>
      match sessions w !! r with
      | Some s => ret (confirmAll s)
      | None => ret false
      end
  | None => ret false
  end.

(** [session.confirmAll = true] *)
Definition set_confirmAll (r : nat) : M unit :=
  w <- get_world;;
  put_world (set_sessions (<[r := {| confirmAll := true |}]> (sessions w)) w).

Definition get_confirmBeforeSync : M bool :=
  w <- get_world;;
  ret (cfg_confirmBeforeSync (settings w)).

(** [config.update('confirmBeforeSync', false, ConfigurationTarget.Global)] *)
Definition disable_confirmBeforeSync : M unit :=
  w <- get_world;;
  let c := settings w in
  put_world (set_settings
               {| cfg_sources := cfg_sources c;
                  cfg_remoteConfigUrl := cfg_remoteConfigUrl c;
                  cfg_remoteConfigCacheDuration := cfg_remoteConfigCacheDuration c;
                  cfg_confirmBeforeSync := false |} w).

(** [localContent !== remoteContent] *)
Definition differs (localContent : option string) (remoteContent : string) : bool :=
  match localContent with
  | Some l => negb (String.eqb l remoteContent)
  | None => true
  end.

Definition when (b : bool) (m : M unit) : M unit := if b then m else ret tt.

(** The confirmation block of [syncInstructions]: [false] is its
    [return false], [true] lets the write go ahead. *)
Definition confirmationGate `{Platform}
    (workspaceFolder : WorkspaceFolder) (source : InstructionSource)
    (localContent : option string) (requireConfirmation : bool) (session : option nat)
    : M bool :=
  confirmAll <- session_confirmAll session;;
  if requireConfirmation && negb confirmAll then
    confirmBeforeSync <- get_confirmBeforeSync;;
    if confirmBeforeSync then
      let action := match localContent with None => "Create" | Some _ => "Overwrite" end in
      dest <- or_throw (getDestinationPath (Some source));;
      let folderName := wf_name workspaceFolder in
      fileText <- or_throw (js_to_string (file dest));;
      let message :=
        "Instruction Sync: " +:+ action +:+ " " +:+ fileText +:+ " in " +:+
        quoted folderName +:+ " with " +:+ language source +:+ " instructions?" in
      result <- showConfirmation message;;
      match result with
      | Some No | None => ret false
      | Some YesToAll =>
          match session with
          | Some r => set_confirmAll r;;; ret true
          | None => ret true
          end
      | Some Always => disable_confirmBeforeSync;;; ret true
      | Some Yes => ret true
      end
    else ret true
  else ret true.

(** The notification that follows the write in [syncInstructions]. *)
Definition updatedNotification `{Platform}
    (workspaceFolder : WorkspaceFolder) (source : InstructionSource) : M unit :=
  dest <- or_throw (getDestinationPath (Some source));;
  let folderName := wf_name workspaceFolder in
  fileText <- or_throw (js_to_string (file dest));;
  showInformationMessage
    ("Instruction Sync: Updated " +:+ fileText +:+ " in " +:+
     quoted folderName +:+ " from " +:+ language source +:+ " configuration").

Definition syncInstructions `{Platform}
    (workspaceFolder : WorkspaceFolder) (source : InstructionSource)
    (showNotifications : bool) (requireConfirmation : bool) (session : option nat)
    : M bool :=
  try_catch
    (remoteContent <- fetchContent (url source);;
     localContent <- getLocalInstructions workspaceFolder source;;
     if differs localContent remoteContent then
       proceed <- confirmationGate workspaceFolder source localContent requireConfirmation session;;
       if proceed then
         writeLocalInstructions workspaceFolder remoteContent source;;;
         when showNotifications (updatedNotification workspaceFolder source);;;
         ret true
       else ret false
     else
       when showNotifications
         (let folderName := wf_name workspaceFolder in
          showInformationMessage
            ("Instruction Sync: Instructions are already up to date for " +:+
             language source +:+ " in " +:+ quoted folderName));;;
       ret false)
    (fun errorMessage =>
       let folderName := wf_name workspaceFolder in
       showErrorMessage
         ("Instruction Sync: Failed to sync instructions for " +:+ language source +:+
          " in " +:+ quoted folderName +:+ ": " +:+ errorMessage);;;
       ret false).

(** ** Remote configuration *)

Definition getLocalInstructionSources : M (list InstructionSource) :=
  w <- get_world;;
  ret (cfg_sources (settings w)).

(** The callback of [parsed.sources.filter]. *)
Definition remote_source_filter (s : json) : bool :=
  match s with
  | JObject _ | JArray _ =>
      is_js_string (prop s "language") && is_js_string (prop s "url")
  | _ => false
  end.

Definition string_member (s : json) (k : string) : string :=
  match prop s k with
  | Some (JString v) => v
  | _ => ""
  end.

(** An entry that passed the filter, seen as an [InstructionSource]. *)
Definition as_source (s : json) : InstructionSource :=
  {| language := string_member s "language";
     url := string_member s "url";
     enabled := prop s "enabled";
     destinationFolder := prop s "destinationFolder";
     destinationFile := prop s "destinationFile" |}.

Definition boolean_member (parsed : json) (k : string) : option bool :=
  match prop parsed k with
  | Some (JBool b) => Some b
  | _ => None
  end.

(** The structure validation of [fetchRemoteConfig]; [None] when reading a
    member of [parsed] throws, that is when [parsed] is [null]. *)
Definition validateRemoteConfig (parsed : json) : option RemoteConfig :=
  match parsed with
  | JNull => None
  | _ =>
      Some {| rc_sources :=
                match prop parsed "sources" with
                | Some (JArray sources) =>
                    Some (map as_source (List.filter remote_source_filter sources))
                | _ => None
                end;
              rc_syncOnOpen := boolean_member parsed "syncOnOpen";
              rc_syncOnConfigChange := boolean_member parsed "syncOnConfigChange";
              rc_confirmBeforeSync := boolean_member parsed "confirmBeforeSync" |}
  end.

Definition cached_config (w : World) : option RemoteConfig :=
  match remoteConfigCache w with
  | Some (config, _) => Some config
  | None => None
  end.

Definition fetchRemoteConfig `{Platform} (forceRefresh : bool) : M (option RemoteConfig) :=
  w <- get_world;;
  let remoteConfigUrl := cfg_remoteConfigUrl (settings w) in
  if String.eqb remoteConfigUrl "" then ret None
  else
    let cacheDuration := (cfg_remoteConfigCacheDuration (settings w) * 1000)%Z in
    let fresh :=
      match remoteConfigCache w with
      | Some (config, timestamp) =>
          if negb forceRefresh && (0 <? cacheDuration)%Z
             && (now w - timestamp <? cacheDuration)%Z
          then Some config else None
      | None => None
      end in
    match fresh with
    | Some config => ret (Some config)
    | None =>
        try_catch
          (content <- fetchContent remoteConfigUrl;;
           match JSON_parse content with
           | None => throw (JSON_error content)
           | Some parsed =>
               match validateRemoteConfig parsed with
               | None => throw "Cannot read properties of null (reading 'sources')"
               | Some remoteConf =>
                   w' <- get_world;;
                   put_world (set_remoteConfigCache (Some (remoteConf, now w')) w');;;
                   ret (Some remoteConf)
               end
           end)
          (fun errorMessage =>
             showErrorMessage
               ("Instruction Sync: Failed to fetch remote configuration: " +:+ errorMessage);;;
             w' <- get_world;;
             ret (cached_config w'))
    end.

(** ** Source merge *)

(** [Map.prototype.set] on a map kept as its entries in insertion order: a
    present key keeps its place and takes the new value, a new key goes to
    the end. *)
Fixpoint Map_set {V} (k : string) (v : V) (m : list (string * V)) : list (string * V) :=
  match m with
  | [] => [(k, v)]
  | (k', v') :: rest =>
      if String.eqb k' k then (k, v) :: rest else (k', v') :: Map_set k v rest
  end.

(** [Array.from(m.values())] *)
Definition Map_values {V} (m : list (string * V)) : list V := map snd m.

(** [None] when [getDestinationPath] throws. *)
Definition sourceKey `{Platform} (s : InstructionSource) : option string :=
  match getDestinationPath (Some s) with
  | Some dest => Some (toLowerCase (language s) +:+ "::" +:+ fullPath dest)
  | None => None
  end.

(** [for (const source of sources) merged.set(sourceKey(source), source)];
    [None] when [sourceKey] throws for one of the sources. *)
Fixpoint set_all `{Platform} (sources : list InstructionSource)
    (merged : list (string * InstructionSource))
    : option (list (string * InstructionSource)) :=
  match sources with
  | [] => Some merged
  | source :: rest =>
      match sourceKey source with
      | Some key => set_all rest (Map_set key source merged)
      | None => None
      end
  end.

(** The keyed-map merge that ends [getInstructionSources]. *)
Definition merge_general `{Platform}
    (remoteSources localSources : list InstructionSource)
    : option (list InstructionSource) :=
  match set_all remoteSources [] with
  | Some merged =>
      match set_all localSources merged with
      | Some merged' => Some (Map_values merged')
      | None => None
      end
  | None => None
  end.

(** What [getInstructionSources] returns for the local sources and the
    sources of the remote configuration ([None] as first argument: no remote
    configuration, or one without [sources]); [None] when it throws. *)
Definition merge `{Platform}
    (remoteSources : option (list InstructionSource))
    (localSources : list InstructionSource) : option (list InstructionSource) :=
  match remoteSources with
  | None | Some [] => Some localSources
  | Some remote =>
      match localSources with
      | [] => Some remote
      | _ :: _ => merge_general remote localSources
      end
  end.

Definition getInstructionSources `{Platform} (forceRefresh : bool)
    : M (list InstructionSource) :=
  localSources <- getLocalInstructionSources;;
  remoteConfig <- fetchRemoteConfig forceRefresh;;
  or_throw (merge (optional_member rc_sources remoteConfig) localSources).

(** ** Sync orchestrator *)

(** [const session: SyncSession = { confirmAll: false }]: a new object in
    the store, and its reference. *)
Definition new_session : M nat :=
  w <- get_world;;
  let r := fresh (dom (sessions w)) in
  put_world (set_sessions (<[r := {| confirmAll := false |}]> (sessions w)) w);;;
  ret r.

(** [detectedLanguages.find(lang => lang.toLowerCase() === source.language.toLowerCase())] *)
Definition matchingLanguage `{Platform}
    (detectedLanguages : list string) (source : InstructionSource) : option string :=
  List.find (fun lang => String.eqb (toLowerCase lang) (toLowerCase (language source)))
            detectedLanguages.

(** [source.enabled === false] *)
Definition disabled (source : InstructionSource) : bool :=
  match enabled source with
  | Some (JBool false) => true
  | _ => false
  end.

(** The loop over the sources for one workspace folder. *)
Fixpoint syncSources `{Platform}
    (workspaceFolder : WorkspaceFolder) (detectedLanguages : list string)
    (sources : list InstructionSource) (showNotifications : bool) (session : nat)
    : M unit :=
  match sources with
  | [] => ret tt
  | source :: rest =>
      (if disabled source then ret tt
       else
         match matchingLanguage detectedLanguages source with
         | Some lang =>
             if negb (String.eqb lang "") then
               syncInstructions workspaceFolder source showNotifications true (Some session);;;
               ret tt
             else ret tt
         | None => ret tt
         end);;;
      syncSources workspaceFolder detectedLanguages rest showNotifications session
  end.

(** The loop over the workspace folders. *)
Fixpoint syncFolders `{Platform}
    (folders : list WorkspaceFolder) (sources : list InstructionSource)
    (showNotifications : bool) (session : nat) : M unit :=
  match folders with
  | [] => ret tt
  | workspaceFolder :: rest =>
      detectedLanguages <- detectWorkspaceLanguage workspaceFolder;;
      (match detectedLanguages with
       | [] => ret tt
       | _ :: _ =>
           syncSources workspaceFolder detectedLanguages sources showNotifications session
       end);;;
      syncFolders rest sources showNotifications session
  end.

Definition performSync `{Platform} (showNotifications forceRefresh : bool) : M unit :=
  w <- get_world;;
  match workspaceFolders w with
  | None | Some [] =>
      when showNotifications
        (showWarningMessage "Instruction Sync: No workspace folder open")
  | Some folders =>
      sources <- getInstructionSources forceRefresh;;
      match sources with
      | [] =>
          when showNotifications
            (showInformationMessage
               "Instruction Sync: No instruction sources configured. Add sources in settings or set a remote configuration URL.")
      | _ :: _ =>
          session <- new_session;;
          syncFolders folders sources showNotifications session
      end
  end.

(** ** A reference platform over ASCII text *)

Module Reference.

Definition lower_char (c : ascii) : ascii :=
  let n := nat_of_ascii c in
  if (65 <=? n)%nat && (n <=? 90)%nat then ascii_of_nat (n + 32) else c.

Fixpoint toLowerCase (s : string) : string :=
  match s with
  | EmptyString => EmptyString
  | String c s' => String (lower_char c) (toLowerCase s')
  end.

(** White space and line terminators below 128: TAB, LF, VT, FF, CR, SP. *)
Definition is_space (c : ascii) : bool :=
  let n := nat_of_ascii c in
  ((9 <=? n)%nat && (n <=? 13)%nat) || Nat.eqb n 32.

Fixpoint trimStart (s : string) : string :=
  match s with
  | EmptyString => EmptyString
  | String c s' => if is_space c then trimStart s' else s
  end.

Fixpoint trimEnd (s : string) : string :=
  match s with
  | EmptyString => EmptyString
  | String c s' =>
      match trimEnd s' with
      | EmptyString => if is_space c then EmptyString else String c EmptyString
      | t => String c t
      end
  end.

Definition trim (s : string) : string := trimEnd (trimStart s).

(** *** JSON text (RFC 8259) *)

Definition is_digit (c : ascii) : bool :=
  let n := nat_of_ascii c in (48 <=? n)%nat && (n <=? 57)%nat.

Definition is_json_space (c : ascii) : bool :=
  let n := nat_of_ascii c in
  Nat.eqb n 32 || Nat.eqb n 9 || Nat.eqb n 10 || Nat.eqb n 13.

Fixpoint skip_space (s : string) : string :=
  match s with
  | String c s' => if is_json_space c then skip_space s' else s
  | EmptyString => EmptyString
  end.

(** The longest prefix of digits, and what follows it. *)
Fixpoint digits (s : string) : string * string :=
  match s with
  | String c s' =>
      if is_digit c then let '(d, rest) := digits s' in (String c d, rest)
      else (EmptyString, s)
  | EmptyString => (EmptyString, EmptyString)
  end.

Fixpoint all_zero (d : string) : bool :=
  match d with
  | EmptyString => true
  | String c d' => Ascii.eqb c "0" && all_zero d'
  end.

(** A number literal.  Its value is zero when every digit of the integer
    and fraction parts is; [num_text] keeps the literal, which is what
    JavaScript prints for the integers written without sign, fraction and
    exponent that have at most fifteen digits. *)
Definition number (s : string) : option (JsNumber * string) :=
  let '(sign, s1) :=
    match s with
    | String "-" s' => ("-", s')
    | _ => ("", s)
    end in
  let '(int, s2) := digits s1 in
  match int with
  | EmptyString => None
  | String c more =>
      if Ascii.eqb c "0" && negb (String.eqb more "") then None
      else
        let frac_part :=
          match s2 with
          | String "." s' =>
              let '(f, s3) := digits s' in
              if String.eqb f "" then None else Some (f, s3)
          | _ => Some ("", s2)
          end in
        match frac_part with
        | None => None
        | Some (frac, s3) =>
            let exp_part :=
              match s3 with
              | String e s' =>
                  if Ascii.eqb e "e" || Ascii.eqb e "E" then
                    let '(esign, s4) :=
                      match s' with
                      | String "+" s'' => ("+", s'')
                      | String "-" s'' => ("-", s'')
                      | _ => ("", s')
                      end in
                    let '(ex, s5) := digits s4 in
                    if String.eqb ex "" then None
                    else Some (String e esign +:+ ex, s5)
                  else Some ("", s3)
              | EmptyString => Some ("", s3)
              end in
            match exp_part with
            | None => None
            | Some (ex, rest) =>
                Some ({| num_truthy := negb (all_zero int && all_zero frac);
                         num_text :=
                           sign +:+ int +:+
                           (if String.eqb frac "" then "" else "." +:+ frac) +:+ ex |},
                      rest)
            end
        end
  end.

Definition hex_value (c : ascii) : option nat :=
  let n := nat_of_ascii c in
  if (48 <=? n)%nat && (n <=? 57)%nat then Some (n - 48)
  else if (65 <=? n)%nat && (n <=? 70)%nat then Some (n - 55)
  else if (97 <=? n)%nat && (n <=? 102)%nat then Some (n - 87)
  else None.

(** The character after a backslash, for the escapes of one character. *)
Definition simple_escape (c : ascii) : option ascii :=
  let n := nat_of_ascii c in
  if Nat.eqb n 34 then Some c
  else if Nat.eqb n 92 then Some c
  else if Nat.eqb n 47 then Some c
  else if Nat.eqb n 98 then Some (ascii_of_nat 8)
  else if Nat.eqb n 102 then Some (ascii_of_nat 12)
  else if Nat.eqb n 110 then Some (ascii_of_nat 10)
  else if Nat.eqb n 114 then Some (ascii_of_nat 13)
  else if Nat.eqb n 116 then Some (ascii_of_nat 9)
  else None.

(** The rest of a string literal after its opening quote.  A [\u] escape is
    read when it denotes a character below 256, the range of [ascii]. *)
Fixpoint string_body (fuel : nat) (s : string) : option (string * string) :=
  match fuel with
  | O => None
  | S fuel =>
      match s with
      | EmptyString => None
      | String c s' =>
          let n := nat_of_ascii c in
          if Nat.eqb n 34 then Some (EmptyString, s')
          else if Nat.eqb n 92 then
            match s' with
            | String "u" (String h1 (String h2 (String h3 (String h4 s'')))) =>
                match hex_value h1, hex_value h2, hex_value h3, hex_value h4 with
                | Some 0, Some 0, Some a, Some b =>
                    match string_body fuel s'' with
                    | Some (t, rest) => Some (String (ascii_of_nat (16 * a + b)) t, rest)
                    | None => None
                    end
                | _, _, _, _ => None
                end
            | String e s'' =>
                match simple_escape e, string_body fuel s'' with
                | Some d, Some (t, rest) => Some (String d t, rest)
                | _, _ => None
                end
            | EmptyString => None
            end
          else if (n <? 32)%nat then None
          else
            match string_body fuel s' with
            | Some (t, rest) => Some (String c t, rest)
            | None => None
            end
      end
  end.

Definition keyword (word : string) (v : json) (s : string) : option (json * string) :=
  if startsWith s word
  then Some (v, String.substring (String.length word) (String.length s) s)
  else None.

(** A value, then the elements of an array after its first bracket or a
    comma, then the members of an object likewise. *)
Fixpoint value (fuel : nat) (s : string) {struct fuel} : option (json * string) :=
  match fuel with
  | O => None
  | S fuel =>
      match skip_space s with
      | EmptyString => None
      | String c s' =>
          let n := nat_of_ascii c in
          if Nat.eqb n 123 then
            match skip_space s' with
            | String "}" rest => Some (JObject [], rest)
            | _ =>
                match members fuel s' with
                | Some (l, rest) => Some (JObject l, rest)
                | None => None
                end
            end
          else if Nat.eqb n 91 then
            match skip_space s' with
            | String "]" rest => Some (JArray [], rest)
            | _ =>
                match elements fuel s' with
                | Some (l, rest) => Some (JArray l, rest)
                | None => None
                end
            end
          else if Nat.eqb n 34 then
            match string_body (String.length s) s' with
            | Some (t, rest) => Some (JString t, rest)
            | None => None
            end
          else if Nat.eqb n 116 then keyword "true" (JBool true) (String c s')
          else if Nat.eqb n 102 then keyword "false" (JBool false) (String c s')
          else if Nat.eqb n 110 then keyword "null" JNull (String c s')
          else
            match number (String c s') with
            | Some (x, rest) => Some (JNumber x, rest)
            | None => None
            end
      end
  end
with elements (fuel : nat) (s : string) {struct fuel} : option (list json * string) :=
  match fuel with
  | O => None
  | S fuel =>
      match value fuel s with
      | Some (v, rest) =>
          match skip_space rest with
          | String "," rest' =>
              match elements fuel rest' with
              | Some (l, rest'') => Some (v :: l, rest'')
              | None => None
              end
          | String "]" rest' => Some ([v], rest')
          | _ => None
          end
      | None => None
      end
  end
with members (fuel : nat) (s : string) {struct fuel}
    : option (list (string * json) * string) :=
  match fuel with
  | O => None
  | S fuel =>
      match skip_space s with
      | String q s' =>
          if Nat.eqb (nat_of_ascii q) 34 then
            match string_body (String.length s) s' with
            | Some (k, rest) =>
                match skip_space rest with
                | String ":" rest' =>
                    match value fuel rest' with
                    | Some (v, rest'') =>
                        match skip_space rest'' with
                        | String "," rest3 =>
                            match members fuel rest3 with
                            | Some (l, rest4) => Some ((k, v) :: l, rest4)
                            | None => None
                            end
                        | String "}" rest3 => Some ([(k, v)], rest3)
                        | _ => None
                        end
                    | None => None
                    end
                | _ => None
                end
            | None => None
            end
          else None
      | EmptyString => None
      end
  end.

Definition JSON_parse (s : string) : option json :=
  match value (2 * String.length s + 2) s with
  | Some (v, rest) => if String.eqb (skip_space rest) "" then Some v else None
  | None => None
  end.

Definition JSON_error (s : string) : string := "Unexpected token in JSON".

(** *** URLs of the form [scheme://host[:port][/path][?query][#fragment]] *)

Fixpoint split_scheme (s : string) : option (string * string) :=
  if startsWith s "://" then Some (EmptyString, String.substring 3 (String.length s) s)
  else
    match s with
    | EmptyString => None
    | String c s' =>
        match split_scheme s' with
        | Some (scheme, rest) => Some (String c scheme, rest)
        | None => None
        end
    end.

(** The longest prefix free of the characters [stop] accepts, and the rest. *)
Fixpoint span_until (stop : ascii -> bool) (s : string) : string * string :=
  match s with
  | EmptyString => (EmptyString, EmptyString)
  | String c s' =>
      if stop c then (EmptyString, s)
      else let '(a, b) := span_until stop s' in (String c a, b)
  end.

Definition ends_authority (c : ascii) : bool :=
  Ascii.eqb c "/" || Ascii.eqb c "?" || Ascii.eqb c "#".

Definition ends_path (c : ascii) : bool :=
  Ascii.eqb c "?" || Ascii.eqb c "#".

Definition new_URL (u : string) : option Url :=
  match split_scheme u with
  | Some (String c scheme, rest) =>
      if is_ascii_letter c then
        let '(authority, after) := span_until ends_authority rest in
        let '(host, _) := span_until (fun c => Ascii.eqb c ":") authority in
        let '(path, _) := span_until ends_path after in
        if String.eqb host "" then None
        else Some {| hostname := toLowerCase host;
                     pathname := if String.eqb path "" then "/" else path |}
      else None
  | _ => None
  end.

Definition Uri_parse (s : string) : string := s.

Definition Uri_file (s : string) : string := "file://" +:+ s.

Definition Uri_joinPath (base path : string) : string := base +:+ "/" +:+ path.

Definition platform : Platform :=
  Build_Platform toLowerCase trim JSON_parse JSON_error new_URL
                 Uri_parse Uri_file Uri_joinPath.

End Reference.

(** [sq s] is [s] with each apostrophe replaced by a double quote: JSON text
    is written with apostrophes below. *)
Fixpoint sq (s : string) : string :=
  match s with
  | EmptyString => EmptyString
  | String c s' =>
      String (if Nat.eqb (nat_of_ascii c) 39 then ascii_of_nat 34 else c) (sq s')
  end.

(** ** Definitions used to state the properties *)

(** The emptiness test that opens [isValidInstructionContent]. *)
Definition blank `{Platform} (content : string) : bool :=
  String.eqb content "" || Nat.eqb (String.length (trim content)) 0.

(** The reason of the JSON branch, in the words of the specification: the
    message if it is truthy, else the error if it is truthy, else a fixed
    text. *)
Definition api_error_value (parsed : json) : json :=
  if truthy_opt (prop parsed "message") then default JNull (prop parsed "message")
  else if truthy_opt (prop parsed "error") then default JNull (prop parsed "error")
  else JString "Unknown error".

Definition any_error_member (json : json) : bool :=
  truthy_opt (prop json "message") || truthy_opt (prop json "error")
  || truthy_opt (prop json "errors").

(** The destination of a source that [getDestinationPath] can resolve. *)
Definition destination_of (s : InstructionSource) : Destination :=
  let folder := nullish_or (destinationFolder s) (JString ".github") in
  let file := nullish_or (destinationFile s) (JString "copilot-instructions.md") in
  {| folder := folder; file := file; fullPath := js_text folder +:+ "/" +:+ js_text file |}.

(** Whether [getDestinationPath] resolves a source: folder and file can be
    printed. *)
Definition resolvable (s : InstructionSource) : bool :=
  printable (folder (destination_of s)) && printable (file (destination_of s)).

(** The key of a source that [sourceKey] can compute. *)
Definition key_of `{Platform} (s : InstructionSource) : string :=
  toLowerCase (language s) +:+ "::" +:+ fullPath (destination_of s).

(** The two loops of the keyed-map merge when every key can be computed. *)
Fixpoint set_each `{Platform} (sources : list InstructionSource)
    (merged : list (string * InstructionSource)) : list (string * InstructionSource) :=
  match sources with
  | [] => merged
  | source :: rest => set_each rest (Map_set (key_of source) source merged)
  end.

Definition merged `{Platform}
    (remoteSources localSources : list InstructionSource) : list InstructionSource :=
  Map_values (set_each localSources (set_each remoteSources [])).

Definition keys {V} (m : list (string * V)) : list string := map fst m.

(** Every entry of the map is filed under its own key. *)
Definition well_keyed `{Platform} (m : list (string * InstructionSource)) : Prop :=
  Forall (fun e => fst e = key_of (snd e)) m.

(** [Map.prototype.get] *)
Fixpoint Map_get {V} (k : string) (m : list (string * V)) : option V :=
  match m with
  | [] => None
  | (k', v) :: rest => if String.eqb k' k then Some v else Map_get k rest
  end.

(** The last source of a list filed under [k]. *)
Definition last_with_key `{Platform} (k : string) (sources : list InstructionSource)
    : option InstructionSource :=
  List.find (fun s => String.eqb (key_of s) k) (rev sources).

(** Two sources of one configuration that share language and destination. *)
Definition csharp_old : InstructionSource :=
  {| language := "C#"; url := "https://example.com/old.md"; enabled := None;
     destinationFolder := None;
     destinationFile := Some (JString "copilot-instructions.md") |}.

Definition csharp_new : InstructionSource :=
  {| language := "C#"; url := "https://example.com/new.md"; enabled := None;
     destinationFolder := None;
     destinationFile := Some (JString "copilot-instructions.md") |}.

(** An outcome that comes after the events [ev]. *)
Definition after {A} (ev : list Event) (o : Outcome A) : Outcome A :=
  {| result := result o; final := final o; events := ev ++ events o |}.

Definition read_only {A} (m : M A) : Prop :=
  forall w, final (m w) = w /\ events (m w) = [].

(** [session?.confirmAll] in a given world. *)
Definition confirmed (w : World) (session : option nat) : bool :=
  match session with
  | Some r =>
      match sessions w !! r with
      | Some s => confirmAll s
      | None => false
      end
  | None => false
  end.

(** The text of the confirmation prompt for a source that
    [getDestinationPath] resolves. *)
Definition confirmation_message `{Platform}
    (workspaceFolder : WorkspaceFolder) (source : InstructionSource)
    (localContent : option string) : string :=
  "Instruction Sync: " +:+
  match localContent with None => "Create" | Some _ => "Overwrite" end +:+ " " +:+
  js_text (file (destination_of source)) +:+ " in " +:+
  quoted (wf_name workspaceFolder) +:+ " with " +:+ language source +:+ " instructions?".

Definition next_answer (w : World) : option Choice :=
  match answers w with a :: _ => a | [] => None end.

Definition approves (answer : option Choice) : bool :=
  match answer with
  | Some No | None => false
  | Some _ => true
  end.

(** The world after the prompt was answered. *)
Definition answered (session : option nat) (w : World) : World :=
  let w1 := set_answers (tail (answers w)) w in
  match next_answer w with
  | Some YesToAll =>
      match session with
      | Some r => set_sessions (<[r := {| confirmAll := true |}]> (sessions w1)) w1
      | None => w1
      end
  | Some Always =>
      set_settings
        {| cfg_sources := cfg_sources (settings w1);
           cfg_remoteConfigUrl := cfg_remoteConfigUrl (settings w1);
           cfg_remoteConfigCacheDuration := cfg_remoteConfigCacheDuration (settings w1);
           cfg_confirmBeforeSync := false |} w1
  | _ => w1
  end.

Definition prompts (requireConfirmation : bool) (session : option nat) (w : World) : bool :=
  requireConfirmation && negb (confirmed w session) && cfg_confirmBeforeSync (settings w).

(** The URI of the destination file of a source that [getDestinationPath]
    resolves. *)
Definition destination_uri `{Platform}
    (workspaceFolder : WorkspaceFolder) (source : InstructionSource) : string :=
  Uri_joinPath (wf_uri workspaceFolder) (fullPath (destination_of source)).

Definition failure_message (workspaceFolder : WorkspaceFolder) (source : InstructionSource)
    (errorMessage : string) : string :=
  "Instruction Sync: Failed to sync instructions for " +:+ language source +:+
  " in " +:+ quoted (wf_name workspaceFolder) +:+ ": " +:+ errorMessage.

Definition updated_message (workspaceFolder : WorkspaceFolder) (source : InstructionSource)
    : string :=
  "Instruction Sync: Updated " +:+ js_text (file (destination_of source)) +:+
  " in " +:+ quoted (wf_name workspaceFolder) +:+ " from " +:+ language source +:+
  " configuration".

Definition up_to_date_message (workspaceFolder : WorkspaceFolder) (source : InstructionSource)
    : string :=
  "Instruction Sync: Instructions are already up to date for " +:+ language source +:+
  " in " +:+ quoted (wf_name workspaceFolder).

Definition notice (showNotifications : bool) (message : string) : list Event :=
  if showNotifications then [EvInformation message] else [].

(** The write of [syncInstructions] and what follows it, from the world
    [w1] the confirmation left. *)
Definition write_outcome `{Platform}
    (workspaceFolder : WorkspaceFolder) (source : InstructionSource)
    (showNotifications : bool) (remoteContent : string) (w1 : World) : Outcome bool :=
  let o := writeLocalInstructions workspaceFolder remoteContent source w1 in
  match result o with
  | Ok _ =>
      {| result := Ok true; final := final o;
         events := events o ++ notice showNotifications
                                      (updated_message workspaceFolder source) |}
  | Throw e =>
      {| result := Ok false; final := final o;
         events := events o ++ [EvError (failure_message workspaceFolder source e)] |}
  end.

(** [syncInstructions], run step by step. *)
Definition sync_outcome `{Platform}
    (workspaceFolder : WorkspaceFolder) (source : InstructionSource)
    (showNotifications requireConfirmation : bool) (session : option nat) (w : World)
    : Outcome bool :=
  match result (fetchContent (url source) w) with
  | Throw e =>
      {| result := Ok false; final := w;
         events := [EvError (failure_message workspaceFolder source e)] |}
  | Ok remoteContent =>
      if negb (resolvable source) then
        {| result := Ok false; final := w;
           events := [EvError (failure_message workspaceFolder source TypeError_message)] |}
      else
      let localContent := files w !! destination_uri workspaceFolder source in
      if differs localContent remoteContent then
        if prompts requireConfirmation session w then
          let asked :=
            EvPrompt (confirmation_message workspaceFolder source localContent)
                     (next_answer w) in
          if approves (next_answer w) then
            let o := write_outcome workspaceFolder source showNotifications remoteContent
                                   (answered session w) in
            {| result := result o; final := final o; events := asked :: events o |}
          else {| result := Ok false; final := answered session w; events := [asked] |}
        else write_outcome workspaceFolder source showNotifications remoteContent w
      else
        {| result := Ok false; final := w;
           events := notice showNotifications
                            (up_to_date_message workspaceFolder source) |}
  end.

Definition is_prompt (e : Event) : bool :=
  match e with EvPrompt _ _ => true | _ => false end.

Definition is_yes_to_all (e : Event) : bool :=
  match e with EvPrompt _ (Some YesToAll) => true | _ => false end.

Definition no_prompt (l : list Event) : bool := forallb (fun e => negb (is_prompt e)) l.

Definition no_yes_to_all (l : list Event) : bool :=
  forallb (fun e => negb (is_yes_to_all e)) l.

(** No prompt is shown after a prompt answered "Yes to All". *)
Fixpoint quiet_after_yes_to_all (l : list Event) : bool :=
  match l with
  | [] => true
  | e :: rest => if is_yes_to_all e then no_prompt rest else quiet_after_yes_to_all rest
  end.

(** A source the loop of [performSync] is to sync for a workspace folder
    with the languages [detectedLanguages]: not disabled, and its language
    equal to a detected one up to case. *)
Definition applicable `{Platform} (detectedLanguages : list string)
    (source : InstructionSource) : bool :=
  negb (disabled source) &&
  existsb (fun lang => String.eqb (toLowerCase lang) (toLowerCase (language source)))
          detectedLanguages.

(** [syncInstructions] for each source of a list, in order, in one session. *)
Fixpoint syncEach `{Platform} (workspaceFolder : WorkspaceFolder)
    (sources : list InstructionSource) (showNotifications : bool) (session : nat)
    : M unit :=
  match sources with
  | [] => ret tt
  | source :: rest =>
      syncInstructions workspaceFolder source showNotifications true (Some session);;;
      syncEach workspaceFolder rest showNotifications session
  end.

(** For each workspace folder in turn, every applicable source is synced. *)
Fixpoint syncAllMatching `{Platform} (folders : list WorkspaceFolder)
    (sources : list InstructionSource) (showNotifications : bool) (session : nat)
    : M unit :=
  match folders with
  | [] => ret tt
  | workspaceFolder :: rest =>
      detectedLanguages <- detectWorkspaceLanguage workspaceFolder;;
      syncEach workspaceFolder (List.filter (applicable detectedLanguages) sources)
               showNotifications session;;;
      syncAllMatching rest sources showNotifications session
  end.

(** [performSync] with its two loops replaced by [syncAllMatching]. *)
Definition performSync_all_matching `{Platform} (showNotifications forceRefresh : bool)
    : M unit :=
  w <- get_world;;
  match workspaceFolders w with
  | None | Some [] =>
      when showNotifications
        (showWarningMessage "Instruction Sync: No workspace folder open")
  | Some folders =>
      sources <- getInstructionSources forceRefresh;;
      match sources with
      | [] =>
          when showNotifications
            (showInformationMessage
               "Instruction Sync: No instruction sources configured. Add sources in settings or set a remote configuration URL.")
      | _ :: _ =>
          session <- new_session;;
          syncAllMatching folders sources showNotifications session
      end
  end.

(** A computation that leaves the sessions alone and shows no prompt. *)
Definition prompt_free {A} (m : M A) : Prop :=
  forall w, sessions (final (m w)) = sessions w /\ no_prompt (events (m w)) = true.

(** A computation that respects the session [r]: once [confirmAll] is set it
    stays set and no prompt is shown; in any case no prompt follows a "Yes to
    All", and a "Yes to All" in the trace means [confirmAll] is set at the
    end. *)
Definition session_safe {A} (r : nat) (m : M A) : Prop :=
  forall w,
    (confirmed w (Some r) = true ->
     confirmed (final (m w)) (Some r) = true /\ no_prompt (events (m w)) = true) /\
    quiet_after_yes_to_all (events (m w)) = true /\
    (confirmed (final (m w)) (Some r) = true \/ no_yes_to_all (events (m w)) = true).

Definition example_folder : WorkspaceFolder :=
  {| wf_uri := "file:///work/app"; wf_name := "app" |}.

(** A world with one workspace folder that holds C# files, the local sources
    [localSources], the remote configuration URL [remoteConfigUrl], a network
    that serves the documents [pages] and answers 404 otherwise, the files
    [stored], the user's answers [replies] and the sessions [open]. *)
Definition example_world (localSources : list InstructionSource) (remoteConfigUrl : string)
    (pages : list (string * string)) (stored : gmap string string)
    (replies : list (option Choice)) (open : gmap nat SyncSession) : World :=
  {| files := stored;
     write_denied := fun _ => false;
     fs_error := fun uri => "EntryNotFound (FileSystemError): " +:+ uri;
     http := fun u _ =>
               match Map_get u pages with
               | Some body => HttpResponse true "200" "OK" body
               | None => HttpResponse false "404" "Not Found" ""
               end;
     getSession := fun _ _ _ => NoSession;
     answers := replies;
     settings := {| cfg_sources := localSources;
                    cfg_remoteConfigUrl := remoteConfigUrl;
                    cfg_remoteConfigCacheDuration := 3600;
                    cfg_confirmBeforeSync := true |};
     remoteConfigCache := None;
     now := 0;
     workspaceFolders := Some [example_folder];
     findFiles := fun _ pattern => String.eqb pattern "**/*.cs";
     sessions := open |}.

Definition csharp_general : InstructionSource :=
  {| language := "c#"; url := "https://example.com/general.md"; enabled := None;
     destinationFolder := None; destinationFile := None |}.

Definition csharp_testing : InstructionSource :=
  {| language := "C#"; url := "https://example.com/testing.md"; enabled := Some (JBool true);
     destinationFolder := Some (JString ".vscode");
     destinationFile := Some (JString "testing.md") |}.

Definition example_pages : list (string * string) :=
  [ ("https://example.com/general.md", "# General");
    ("https://example.com/testing.md", "# Testing") ].




(** An entry with a string [enabled] and a numeric [destinationFolder]
    passes, next to entries that are dropped and a well-typed one. *)
Definition example_remote_document : string :=
  sq "{'sources': [{'language': 'C#', 'url': 'https://example.com/a.md', 'enabled': 'no', 'destinationFolder': 5}, {'language': 'AL'}, 7, null, {'language': 'Go', 'url': '/shared/go.md'}], 'syncOnOpen': true}".

Definition remote_world : World :=
  example_world [] "https://example.com/sync.json"
    [("https://example.com/sync.json", example_remote_document)] ∅ [] ∅.

Definition ill_typed_source : InstructionSource :=
  {| language := "C#"; url := "https://example.com/a.md";
     enabled := Some (JString "no");
     destinationFolder := Some (JNumber {| num_truthy := true; num_text := "5" |});
     destinationFile := None |}.

Definition go_source : InstructionSource :=
  {| language := "Go"; url := "/shared/go.md"; enabled := None;
     destinationFolder := None; destinationFile := None |}.

Definition local_source : InstructionSource :=
  {| language := "C#"; url := "/shared/instructions.md"; enabled := None;
     destinationFolder := None; destinationFile := None |}.

Definition error_page : string := "<html><title>404 Not Found</title></html>".

Definition shared_drive : gmap string string :=
  {[ "file:///shared/instructions.md" := error_page ]}.

Definition confirmed_session : gmap nat SyncSession := {[ 0 := {| confirmAll := true |} ]}.

Definition fresh_session : gmap nat SyncSession := {[ 0 := {| confirmAll := false |} ]}.

Module Legacy.

(** The first revision of [extension.ts], kept in the repository next to
    the current one: a source is a language and a URL, and every source is
    synced into the one file [COPILOT_INSTRUCTIONS_PATH]. *)

Definition COPILOT_INSTRUCTIONS_PATH : string := ".github/copilot-instructions.md".

Definition fetchRemoteContent `{Platform} (url : string) : M string :=
  let kind := isGitHubUrl url in
  headers <-
    (if isGitHub kind then
       token <- getGitHubToken (isEnterprise kind);;
       ret (("Accept", "application/vnd.github.v3.raw") :: bearer token)
     else ret [("Accept", "application/vnd.github.v3.raw")]);;
  response <- fetch url headers;;
  match response with
  | HttpFailure message => throw message
  | HttpResponse ok status statusText content =>
      if negb ok then
        throw ("Failed to fetch from " +:+ url +:+ ": " +:+ status +:+ " " +:+ statusText)
      else ret content
  end.

Definition getLocalInstructions `{Platform} (workspaceFolder : WorkspaceFolder)
    : M (option string) :=
  let instructionsUri := Uri_joinPath (wf_uri workspaceFolder) COPILOT_INSTRUCTIONS_PATH in
  try_catch
    (content <- readFile instructionsUri;;
     ret (Some content))
    (fun _ => ret None).

Definition writeLocalInstructions `{Platform}
    (workspaceFolder : WorkspaceFolder) (content : string) : M unit :=
  let githubFolderUri := Uri_joinPath (wf_uri workspaceFolder) ".github" in
  let instructionsUri := Uri_joinPath (wf_uri workspaceFolder) COPILOT_INSTRUCTIONS_PATH in
  try_catch (createDirectory githubFolderUri) (fun _ => ret tt);;;
  writeFile instructionsUri content.

Definition languagePatterns : list (string * list string) :=
  [ ("AL", ["**/*.al"]);
    ("C#", ["**/*.cs"; "**/*.csproj"]);
    ("TypeScript", ["**/*.ts"; "**/*.tsx"]);
    ("JavaScript", ["**/*.js"; "**/*.jsx"]);
    ("Python", ["**/*.py"]);
    ("Java", ["**/*.java"]);
    ("Go", ["**/*.go"]);
    ("Rust", ["**/*.rs"]);
    ("C++", ["**/*.cpp"; "**/*.hpp"; "**/*.cc"]);
    ("C", ["**/*.c"; "**/*.h"]);
    ("Ruby", ["**/*.rb"]);
    ("PHP", ["**/*.php"]);
    ("Swift", ["**/*.swift"]);
    ("Kotlin", ["**/*.kt"]) ].

Definition detectWorkspaceLanguage (workspaceFolder : WorkspaceFolder) : M (list string) :=
  w <- get_world;;
  ret (detect_languages w workspaceFolder languagePatterns).

(** The confirmation block of [syncInstructions].  The prompt of this
    revision offers Yes, No and Always; any answer other than No, a
    dismissal and Always lets the write go ahead. *)
Definition confirmationGate (source : InstructionSource) (localContent : option string)
    (requireConfirmation : bool) : M bool :=
  if requireConfirmation then
    confirmBeforeSync <- get_confirmBeforeSync;;
    if confirmBeforeSync then
      let action := match localContent with None => "Create" | Some _ => "Overwrite" end in
      let message :=
        "Instruction Sync: " +:+ action +:+ " copilot-instructions.md with " +:+
        language source +:+ " instructions from remote?" in
      result <- showConfirmation message;;
      match result with
      | Some No | None => ret false
      | Some Always => disable_confirmBeforeSync;;; ret true
      | Some _ => ret true
      end
    else ret true
  else ret true.

Definition syncInstructions `{Platform}
    (workspaceFolder : WorkspaceFolder) (source : InstructionSource)
    (showNotifications : bool) (requireConfirmation : bool) : M bool :=
  try_catch
    (remoteContent <- fetchRemoteContent (url source);;
     localContent <- getLocalInstructions workspaceFolder;;
     if differs localContent remoteContent then
       proceed <- confirmationGate source localContent requireConfirmation;;
       if proceed then
         writeLocalInstructions workspaceFolder remoteContent;;;
         when showNotifications
           (showInformationMessage
              ("Instruction Sync: Updated copilot-instructions.md from " +:+
               language source +:+ " configuration"));;;
         ret true
       else ret false
     else
       when showNotifications
         (showInformationMessage
            ("Instruction Sync: Instructions are already up to date for " +:+
             language source));;;
       ret false)
    (fun errorMessage =>
       showErrorMessage
         ("Instruction Sync: Failed to sync instructions for " +:+ language source +:+
          ": " +:+ errorMessage);;;
       ret false).

Definition getInstructionSources : M (list InstructionSource) :=
  w <- get_world;;
  ret (cfg_sources (settings w)).

(** The loop over the sources for one workspace folder, which is left
    after the first matching source. *)
Fixpoint syncSources `{Platform}
    (workspaceFolder : WorkspaceFolder) (detectedLanguages : list string)
    (sources : list InstructionSource) (showNotifications : bool) : M unit :=
  match sources with
  | [] => ret tt
  | source :: rest =>
      if disabled source then
        syncSources workspaceFolder detectedLanguages rest showNotifications
      else
        match matchingLanguage detectedLanguages source with
        | Some lang =>
            if negb (String.eqb lang "") then
              syncInstructions workspaceFolder source showNotifications true;;;
              ret tt
            else syncSources workspaceFolder detectedLanguages rest showNotifications
        | None => syncSources workspaceFolder detectedLanguages rest showNotifications
        end
  end.

(** The loop over the workspace folders. *)
Fixpoint syncFolders `{Platform}
    (folders : list WorkspaceFolder) (sources : list InstructionSource)
    (showNotifications : bool) : M unit :=
  match folders with
  | [] => ret tt
  | workspaceFolder :: rest =>
      detectedLanguages <- detectWorkspaceLanguage workspaceFolder;;
      (match detectedLanguages with
       | [] => ret tt
       | _ :: _ => syncSources workspaceFolder detectedLanguages sources showNotifications
       end);;;
      syncFolders rest sources showNotifications
  end.

Definition performSync `{Platform} (showNotifications : bool) : M unit :=
  w <- get_world;;
  match workspaceFolders w with
  | None | Some [] =>
      when showNotifications
        (showWarningMessage "Instruction Sync: No workspace folder open")
  | Some folders =>
      sources <- getInstructionSources;;
      match sources with
      | [] =>
          when showNotifications
            (showInformationMessage
               "Instruction Sync: No instruction sources configured. Add sources in settings.")
      | _ :: _ => syncFolders folders sources showNotifications
      end
  end.

(** For each workspace folder in turn, the first applicable source is
    synced, and no other. *)
Fixpoint syncFirstMatching `{Platform} (folders : list WorkspaceFolder)
    (sources : list InstructionSource) (showNotifications : bool) : M unit :=
  match folders with
  | [] => ret tt
  | workspaceFolder :: rest =>
      detectedLanguages <- detectWorkspaceLanguage workspaceFolder;;
      (match List.find (applicable detectedLanguages) sources with
       | Some source =>
           syncInstructions workspaceFolder source showNotifications true;;;
           ret tt
       | None => ret tt
       end);;;
      syncFirstMatching rest sources showNotifications
  end.

(** [performSync] with its two loops replaced by [syncFirstMatching]. *)
Definition performSync_first_matching `{Platform} (showNotifications : bool) : M unit :=
  w <- get_world;;
  match workspaceFolders w with
  | None | Some [] =>
      when showNotifications
        (showWarningMessage "Instruction Sync: No workspace folder open")
  | Some folders =>
      sources <- getInstructionSources;;
      match sources with
      | [] =>
          when showNotifications
            (showInformationMessage
               "Instruction Sync: No instruction sources configured. Add sources in settings.")
      | _ :: _ => syncFirstMatching folders sources showNotifications
      end
  end.

End Legacy.

(** ** Further definitions used to state properties *)


Definition unprintable_source : InstructionSource :=
  {| language := "C#"; url := "https://example.com/general.md"; enabled := None;
     destinationFolder :=
       Some (JObject [("toString", JNumber {| num_truthy := true; num_text := "1" |})]);
     destinationFile := None |}.


(** [getGitHubToken], as a function of the authentication provider. *)
Definition github_token (sessionOf : string -> list string -> AuthOptions -> AuthResult)
    (isEnterprise : bool) : option string :=
  let authProviderId := if isEnterprise then "github-enterprise" else "github" in
  match sessionOf authProviderId ["repo"] {| createIfNone := false; silent := true |} with
  | AuthThrows _ => None
  | Session accessToken => Some accessToken
  | NoSession =>
      match sessionOf authProviderId ["repo"] {| createIfNone := false; silent := false |} with
      | AuthThrows _ => None
      | NoSession => None
      | Session accessToken => Some accessToken
      end
  end.

(** [getAzureDevOpsToken], as a function of the authentication provider. *)
Definition ado_token (sessionOf : string -> list string -> AuthOptions -> AuthResult)
    : option string :=
  let silently :=
    sessionOf "microsoft" [ADO_RESOURCE_SCOPE] {| createIfNone := false; silent := true |} in
  let interactively :=
    sessionOf "microsoft" [ADO_RESOURCE_SCOPE] {| createIfNone := true; silent := false |} in
  match silently with
  | AuthThrows _ => None
  | Session accessToken =>
      if String.eqb accessToken "" then
        match interactively with
        | Session t => usable_token (Some t)
        | _ => None
        end
      else Some accessToken
  | NoSession =>
      match interactively with
      | Session t => usable_token (Some t)
      | _ => None
      end
  end.

(** The headers [fetchContent] sends with the request for a remote source. *)
Definition request_headers `{Platform}
    (sessionOf : string -> list string -> AuthOptions -> AuthResult) (source : string)
    : list (string * string) :=
  if isGitHub (isGitHubUrl source) then
    ("Accept", "application/vnd.github.v3.raw")
      :: bearer (github_token sessionOf (isEnterprise (isGitHubUrl source)))
  else if isAzureDevOpsUrl source then
    ("Accept", "text/plain") :: bearer (ado_token sessionOf)
  else [].

(** What [fetchContent] makes of the answer to its request. *)
Definition response_result `{Platform} (source : string) (response : HttpResult)
    : Result string :=
  match response with
  | HttpFailure message => Throw message
  | HttpResponse ok status statusText content =>
      if negb ok then
        Throw ("Failed to fetch from " +:+ source +:+ ": " +:+ status +:+ " " +:+ statusText)
      else if negb (valid (isValidInstructionContent content source)) then
        Throw ("Invalid content from " +:+ source +:+ ": " +:+
               reason_text (isValidInstructionContent content source))
      else Ok content
  end.

(** The result of [fetchContent] in a world. *)
Definition fetch_result `{Platform} (source : string) (w : World) : Result string :=
  if isLocalPath source then
    match files w !! localPathToUri source with
    | Some content => Ok content
    | None =>
        Throw ("Failed to read local file " +:+ source +:+ ": " +:+
               fs_error w (localPathToUri source))
    end
  else response_result source (http w source (request_headers (getSession w) source)).

(** The first occurrences of the keys of a list, in order. *)
Fixpoint add_keys (seen : list string) (ks : list string) : list string :=
  match ks with
  | [] => seen
  | k :: rest =>
      add_keys (if existsb (String.eqb k) seen then seen else seen ++ [k]) rest
  end.

Definition first_occurrences (ks : list string) : list string := add_keys [] ks.

(** The text of a header list, one [; name: value] per header. *)
Fixpoint header_lines (headers : list (string * string)) : string :=
  match headers with
  | [] => ""
  | (name, value) :: rest => "; " +:+ name +:+ ": " +:+ value +:+ header_lines rest
  end.

(** A world without sources or files whose authentication provider is
    [sessionOf] and whose network answers every request with the headers it
    received. *)
Definition echo_world (sessionOf : string -> list string -> AuthOptions -> AuthResult)
    : World :=
  {| files := ∅;
     write_denied := fun _ => false;
     fs_error := fun uri => "EntryNotFound (FileSystemError): " +:+ uri;
     http := fun _ headers => HttpResponse true "200" "OK" ("# Headers" +:+ header_lines headers);
     getSession := sessionOf;
     answers := [];
     settings := {| cfg_sources := [];
                    cfg_remoteConfigUrl := "";
                    cfg_remoteConfigCacheDuration := 3600;
                    cfg_confirmBeforeSync := true |};
     remoteConfigCache := None;
     now := 0;
     workspaceFolders := Some [example_folder];
     findFiles := fun _ pattern => String.eqb pattern "**/*.cs";
     sessions := ∅ |}.

(** Authentication providers: one that holds a GitHub session and a
    Microsoft session, one that throws. *)
Definition signed_in (providerId : string) (scopes : list string) (o : AuthOptions)
    : AuthResult :=
  if String.eqb providerId "github" then Session "gh-token"
  else if String.eqb providerId "microsoft" then Session "ms-token"
  else NoSession.


(** The configuration [fetchRemoteConfig] answers from the cache, if it may. *)
Definition fresh_cache (forceRefresh : bool) (w : World) : option RemoteConfig :=
  let cacheDuration := (cfg_remoteConfigCacheDuration (settings w) * 1000)%Z in
  match remoteConfigCache w with
  | Some (config, timestamp) =>
      if negb forceRefresh && (0 <? cacheDuration)%Z && (now w - timestamp <? cacheDuration)%Z
      then Some config else None
  | None => None
  end.

(** The configuration that fetching and parsing the remote document gives. *)
Definition loaded_config `{Platform} (w : World) : Result RemoteConfig :=
  match fetch_result (cfg_remoteConfigUrl (settings w)) w with
  | Throw e => Throw e
  | Ok content =>
      match JSON_parse content with
      | None => Throw (JSON_error content)
      | Some parsed =>
          match validateRemoteConfig parsed with
          | None => Throw "Cannot read properties of null (reading 'sources')"
          | Some remoteConf => Ok remoteConf
          end
      end
  end.

Definition remote_config_failure (errorMessage : string) : Event :=
  EvError ("Instruction Sync: Failed to fetch remote configuration: " +:+ errorMessage).

(** The outcome of [fetchRemoteConfig]. *)
Definition remote_config_outcome `{Platform} (forceRefresh : bool) (w : World)
    : Outcome (option RemoteConfig) :=
  if String.eqb (cfg_remoteConfigUrl (settings w)) "" then
    {| result := Ok None; final := w; events := [] |}
  else
    match fresh_cache forceRefresh w with
    | Some config => {| result := Ok (Some config); final := w; events := [] |}
    | None =>
        match loaded_config w with
        | Ok remoteConf =>
            {| result := Ok (Some remoteConf);
               final := set_remoteConfigCache (Some (remoteConf, now w)) w;
               events := [] |}
        | Throw e =>
            {| result := Ok (cached_config w); final := w;
               events := [remote_config_failure e] |}
        end
    end.

(** The world [w] at the time [t]; with the network down; with another
    cache duration. *)
Definition at_time (t : Z) (w : World) : World :=
  {| files := files w; write_denied := write_denied w; fs_error := fs_error w;
     http := http w; getSession := getSession w; answers := answers w;
     settings := settings w; remoteConfigCache := remoteConfigCache w;
     now := t; workspaceFolders := workspaceFolders w;
     findFiles := findFiles w; sessions := sessions w |}.

Definition offline (w : World) : World :=
  {| files := files w; write_denied := write_denied w; fs_error := fs_error w;
     http := fun _ _ => HttpFailure "fetch failed";
     getSession := getSession w; answers := answers w;
     settings := settings w; remoteConfigCache := remoteConfigCache w;
     now := now w; workspaceFolders := workspaceFolders w;
     findFiles := findFiles w; sessions := sessions w |}.

Definition with_cacheDuration (seconds : Z) (w : World) : World :=
  set_settings {| cfg_sources := cfg_sources (settings w);
                  cfg_remoteConfigUrl := cfg_remoteConfigUrl (settings w);
                  cfg_remoteConfigCacheDuration := seconds;
                  cfg_confirmBeforeSync := cfg_confirmBeforeSync (settings w) |} w.

(** The configuration that [example_remote_document] holds. *)
Definition example_remote_config : RemoteConfig :=
  {| rc_sources := Some [ill_typed_source; go_source];
     rc_syncOnOpen := Some true;
     rc_syncOnConfigChange := None;
     rc_confirmBeforeSync := None |}.


(** A computation whose writes all satisfy [P], and that leaves alone every
    file it does not write. *)
Definition orderly {A} (P : string -> string -> Prop) (m : M A) : Prop :=
  forall w,
    (forall u content, In (EvWrite u content) (events (m w)) -> P u content) /\
    (forall uri, (forall content, ~ In (EvWrite uri content) (events (m w))) ->
                 files (final (m w)) !! uri = files w !! uri).

(** What holds of a write that syncs [source] into [workspaceFolder]: the
    destination of the source was resolved and the write goes there, and
    content that came over the network has passed the validator. *)
Definition synced_from `{Platform} (workspaceFolder : WorkspaceFolder)
    (source : InstructionSource) (u content : string) : Prop :=
  getDestinationPath (Some source) <> None /\
  u = destination_uri workspaceFolder source /\
  (isLocalPath (url source) = false ->
   valid (isValidInstructionContent content (url source)) = true).

(** The same for some enabled source of [sources] and some folder of
    [folders]. *)
Definition synced_from_some `{Platform} (folders : list WorkspaceFolder)
    (sources : list InstructionSource) (u content : string) : Prop :=
  exists workspaceFolder source,
    In workspaceFolder folders /\ In source sources /\ disabled source = false /\
    synced_from workspaceFolder source u content.

(** ** The commands that [activate] registers *)

(** The callbacks of the commands, with the answer to the quick pick or to
    the input box as an argument.  [config.update] is taken to change what
    [config.get] returns, and the configuration watcher to be idle, as it is
    with the default [syncOnConfigChange]. *)

(** The loop of the force-sync command over the workspace folders. *)
Fixpoint syncPicked `{Platform} (folders : list WorkspaceFolder)
    (source : InstructionSource) : M unit :=
  match folders with
  | [] => ret tt
  | workspaceFolder :: rest =>
      syncInstructions workspaceFolder source true true None;;;
      syncPicked rest source
  end.

(** [sources.filter(s => s.enabled !== false)] *)
Definition enabledSources (sources : list InstructionSource) : list InstructionSource :=
  List.filter (fun s => negb (disabled s)) sources.

(** [kine-instruction-sync.forceSync]; [pick] is the place of the chosen
    item in the quick pick, [None] when the pick is dismissed. *)
Definition forceSyncCommand `{Platform} (pick : option nat) : M unit :=
  w <- get_world;;
  match workspaceFolders w with
  | None | Some [] => showWarningMessage "Instruction Sync: No workspace folder open"
  | Some folders =>
      sources <- getInstructionSources true;;
      match sources with
      | [] => showWarningMessage "Instruction Sync: No instruction sources configured"
      | _ :: _ =>
          match pick ≫= (fun i => enabledSources sources !! i) with
          | Some picked => syncPicked folders picked
          | None => ret tt
          end
      end
  end.

(** The [validateInput] of the input box for the remote configuration URL:
    the message shown, [None] when the value is accepted. *)
Definition validateInput (value : string) : option string :=
  if negb (String.eqb value "") && negb (startsWith value "http://")
     && negb (startsWith value "https://") && negb (isLocalPath value)
  then Some "Please enter a valid URL (http:// or https://) or a local file path"
  else None.

(** The world once the command has stored [url] and cleared the cache. *)
Definition with_remoteConfigUrl (url : string) (w : World) : World :=
  set_remoteConfigCache None
    (set_settings {| cfg_sources := cfg_sources (settings w);
                     cfg_remoteConfigUrl := url;
                     cfg_remoteConfigCacheDuration := cfg_remoteConfigCacheDuration (settings w);
                     cfg_confirmBeforeSync := cfg_confirmBeforeSync (settings w) |} w).

(** [kine-instruction-sync.setRemoteConfig]; [url] is the value entered,
    [None] when the input box is cancelled. *)
Definition setRemoteConfigCommand `{Platform} (url : option string) : M unit :=
  match url with
  | None => ret tt
  | Some url =>
      w <- get_world;;
      put_world (with_remoteConfigUrl url w);;;
      if negb (String.eqb url "") then
        showInformationMessage "Instruction Sync: Remote configuration URL set. Syncing...";;;
        performSync true true
      else showInformationMessage "Instruction Sync: Remote configuration URL cleared."
  end.

(** A computation that leaves a component of the world as it is. *)
Definition preserves {A B} (component : World -> B) (m : M A) : Prop :=
  forall w, component (final (m w)) = component w.



(** The world [w] with another answer of the file search. *)
Definition set_findFiles (found : WorkspaceFolder -> string -> bool) (w : World) : World :=
  {| files := files w; write_denied := write_denied w; fs_error := fs_error w;
     http := http w; getSession := getSession w; answers := answers w;
     settings := settings w; remoteConfigCache := remoteConfigCache w;
     now := now w; workspaceFolders := workspaceFolders w;
     findFiles := found; sessions := sessions w |}.

(** A computation that does not search for files: it runs alike whatever
    the file search would answer. *)
Definition search_free {A} (m : M A) : Prop :=
  forall found w,
    m (set_findFiles found w)
    = {| result := result (m w); final := set_findFiles found (final (m w));
         events := events (m w) |}.

(** A provider that holds no session and signs the user in when asked to
    create one. *)
Definition signs_in_on_demand (providerId : string) (scopes : list string) (o : AuthOptions)
    : AuthResult :=
  if createIfNone o then Session "new-token" else NoSession.

(** * Properties *)

Lemma nullish_or_absent (a : option json) (d : json) :
  a = None \/ a = Some JNull -> nullish_or a d = d.
Proof. by intros [-> | ->]. Qed.

Lemma string_length_app (a b : string) :
  String.length (a +:+ b) = String.length a + String.length b.
Proof. induction a as [|c a IH]; simpl; [done | by rewrite IH]. Qed.

Lemma substring_all (b : string) : String.substring 0 (String.length b) b = b.
Proof. induction b as [|c b IH]; simpl; [done | by rewrite IH]. Qed.

Lemma substring_app_r (a b : string) :
  String.substring (String.length a) (String.length b) (a +:+ b) = b.
Proof. induction a as [|c a IH]; simpl; [apply substring_all | done]. Qed.

Lemma endsWith_app (a b : string) : endsWith (a +:+ b) b = true.
Proof.
  unfold endsWith. rewrite string_length_app.
  replace (String.length a + String.length b - String.length b)
    with (String.length a) by lia.
  rewrite substring_app_r, String.eqb_refl, andb_true_r.
  apply Nat.leb_le; lia.
Qed.

Lemma nullish_or_present (a : option json) (v d : json) :
  a = Some v -> v <> JNull -> nullish_or a d = v.
Proof. intros -> Hv. by destruct v. Qed.

Lemma js_to_string_Some (v : json) (t : string) :
  js_to_string v = Some t <-> printable v = true /\ t = js_text v.
Proof.
  unfold js_to_string. destruct (printable v); [| by split; [| intros [? _]]].
  split; [by intros [= <-] | by intros [_ ->]].
Qed.

Lemma js_to_string_None (v : json) : js_to_string v = None <-> printable v = false.
Proof. unfold js_to_string. by destruct (printable v). Qed.

Lemma getDestinationPath_resolved (s : InstructionSource) :
  getDestinationPath (Some s) = if resolvable s then Some (destination_of s) else None.
Proof.
  unfold getDestinationPath, resolvable, destination_of, js_to_string.
  cbn [optional_member folder file].
  destruct (printable (nullish_or (destinationFolder s) _)); [| done].
  by destruct (printable (nullish_or (destinationFile s) _)).
Qed.

(** C10.  [getDestinationPath] substitutes [".github"] and
    ["copilot-instructions.md"] exactly for an absent ([undefined] or [null])
    member and keeps any other value, the empty string included; the full
    path is the text of the folder, a slash and the text of the file, and the
    call throws exactly when one of the two cannot be printed.  With
    [destinationFolder = ""] and no [destinationFile] the folder is [""] and
    the full path is ["/copilot-instructions.md"], and with
    [destinationFile = ""] the full path is the folder followed by ["/"]. *)
Theorem getDestinationPath_defaults_only_when_absent (s : InstructionSource) :
  (forall d, getDestinationPath (Some s) = Some d ->
     (destinationFolder s = None \/ destinationFolder s = Some JNull ->
        folder d = JString ".github") /\
     (forall v, destinationFolder s = Some v -> v <> JNull -> folder d = v) /\
     (destinationFile s = None \/ destinationFile s = Some JNull ->
        file d = JString "copilot-instructions.md") /\
     (forall v, destinationFile s = Some v -> v <> JNull -> file d = v) /\
     exists folderText fileText,
       js_to_string (folder d) = Some folderText /\
       js_to_string (file d) = Some fileText /\
       fullPath d = folderText +:+ "/" +:+ fileText) /\
  (getDestinationPath (Some s) = None <->
   js_to_string (nullish_or (destinationFolder s) (JString ".github")) = None \/
   js_to_string (nullish_or (destinationFile s) (JString "copilot-instructions.md")) = None) /\
  (destinationFolder s = Some (JString "") ->
   destinationFile s = None \/ destinationFile s = Some JNull ->
   getDestinationPath (Some s)
   = Some {| folder := JString ""; file := JString "copilot-instructions.md";
             fullPath := "/copilot-instructions.md" |}) /\
  (destinationFile s = Some (JString "") ->
   forall d, getDestinationPath (Some s) = Some d ->
     file d = JString "" /\
     (exists folderText, js_to_string (folder d) = Some folderText /\
                         fullPath d = folderText +:+ "/") /\
     endsWith (fullPath d) "/" = true).
Proof.
  unfold getDestinationPath; cbn [optional_member].
  split; [| split; [| split]].
  - intros d Hd.
    destruct (js_to_string (nullish_or (destinationFolder s) _)) as [a|] eqn:Ha; [| done].
    destruct (js_to_string (nullish_or (destinationFile s) _)) as [b|] eqn:Hb; [| done].
    injection Hd as <-. cbn [folder file fullPath].
    split; [intros Hf; by rewrite nullish_or_absent |].
    split; [intros v Hv Hnn; by apply nullish_or_present |].
    split; [intros Hf; by rewrite nullish_or_absent |].
    split; [intros v Hv Hnn; by apply nullish_or_present |].
    by exists a, b.
  - destruct (js_to_string (nullish_or (destinationFolder s) _)) as [a|];
      [| split; [by left | done]].
    destruct (js_to_string (nullish_or (destinationFile s) _)) as [b|];
      [| split; [by right | done]].
    split; [done | by intros [? | ?]].
  - intros -> Hfile. by rewrite (nullish_or_absent (destinationFile s)).
  - intros -> d Hd. cbn [nullish_or] in Hd.
    destruct (js_to_string (nullish_or (destinationFolder s) _)) as [a|] eqn:Ha; [| done].
    cbn in Hd. injection Hd as <-. cbn [folder file fullPath].
    split; [done |]. split; [by exists a | apply endsWith_app].
Qed.

Lemma getDestinationPath_empty_folder_example :
  let s := {| language := "C#"; url := "https://example.com/a.md"; enabled := None;
              destinationFolder := Some (JString ""); destinationFile := None |} in
  getDestinationPath (Some s)
  = Some {| folder := JString ""; file := JString "copilot-instructions.md";
            fullPath := "/copilot-instructions.md" |}.
Proof.
  intros s.
  destruct (getDestinationPath_defaults_only_when_absent s) as (_ & _ & Hfolder & _).
  apply Hfolder; [reflexivity | by left].
Defined.

(** ** Content validator *)

Lemma append_nil (b : string) : "" +:+ b = b.
Proof. reflexivity. Qed.

Lemma append_cons (c : ascii) (a b : string) : String c a +:+ b = String c (a +:+ b).
Proof. reflexivity. Qed.

Lemma startsWith_nil (s : string) : startsWith s "" = true.
Proof. by destruct s. Qed.

Lemma startsWith_app (t b p : string) :
  startsWith t p = true -> startsWith (t +:+ b) p = true.
Proof.
  revert t; induction p as [|c p IH]; intros t.
  - intros _. apply startsWith_nil.
  - destruct t as [|d t]; [done |]. rewrite append_cons. simpl.
    destruct (Ascii.eqb c d); [apply IH | done].
Qed.

Lemma includes_here (s p : string) : startsWith s p = true -> includes s p = true.
Proof. intros Hs. destruct s; cbn [includes]; by rewrite Hs. Qed.

Lemma includes_app (a t b p : string) :
  startsWith t p = true -> includes (a +:+ t +:+ b) p = true.
Proof.
  intros Ht. induction a as [|c a IH].
  - rewrite append_nil. by apply includes_here, startsWith_app.
  - rewrite append_cons. cbn [includes]. rewrite IH. apply orb_true_r.
Qed.

Lemma startsWith_head (t : string) (c d : ascii) (p q : string) :
  startsWith t (String c p) = true -> c <> d -> startsWith t (String d q) = false.
Proof.
  destruct t as [|e t]; simpl; [done |].
  destruct (Ascii.eqb_spec c e) as [-> | ?]; [| done].
  intros _ Hne. destruct (Ascii.eqb_spec d e) as [-> | ?]; done.
Qed.

(** Content with the HTML prefix is never accepted. *)
Lemma html_prefix_is_invalid `{Platform} (content source : string) :
  startsWith (trim (toLowerCase content)) "<!doctype" = true \/
  startsWith (trim (toLowerCase content)) "<html" = true ->
  valid (isValidInstructionContent content source) = false.
Proof.
  intros Hp. unfold isValidInstructionContent.
  destruct (_ || _); [done |].
  assert (startsWith (trim (toLowerCase content)) "<!doctype"
          || startsWith (trim (toLowerCase content)) "<html" = true) as ->
    by (destruct Hp as [-> | ->]; [done | apply orb_true_r]).
  by destruct (existsb _ _).
Qed.

(** Content that opens with the html tag always gets the error-page reason:
    the tag is itself in [htmlErrorIndicators], so the other reason is out of
    reach for it. *)
Lemma html_tag_reason `{Platform} (content source : string) :
  trim_is_infix ->
  blank content = false ->
  startsWith (trim (toLowerCase content)) "<html" = true ->
  isValidInstructionContent content source
  = {| valid := false;
       reason := Some "Received HTML error page instead of instructions content" |}.
Proof.
  intros Htrim Hb Hp. unfold isValidInstructionContent.
  fold (blank content); rewrite Hb, Hp, orb_true_r.
  destruct (Htrim (toLowerCase content)) as (a & b & Heq).
  assert (includes (toLowerCase content) "<html" = true) as Hin
    by (rewrite Heq at 1; by apply includes_app).
  assert (existsb (includes (toLowerCase content)) htmlErrorIndicators = true) as ->; [| done].
  apply existsb_exists. exists "<html". split; [| done].
  unfold htmlErrorIndicators. right; left; done.
Qed.

Lemma trimStart_suffix (s : string) : exists a, s = a +:+ Reference.trimStart s.
Proof.
  induction s as [|c s [a IH]]; [by exists "" |].
  cbn [Reference.trimStart]. destruct (Reference.is_space c).
  - exists (String c a). rewrite append_cons. by f_equal.
  - by exists "".
Qed.

Lemma trimEnd_prefix (s : string) : exists b, s = Reference.trimEnd s +:+ b.
Proof.
  induction s as [|c s [b IH]]; [by exists "" |].
  cbn [Reference.trimEnd]. destruct (Reference.trimEnd s) as [|d t] eqn:Ht.
  - destruct (Reference.is_space c).
    + exists (String c s). by rewrite append_nil.
    + exists s. by rewrite append_cons, append_nil.
  - exists b. rewrite append_cons. by f_equal.
Qed.

(** The reference platform trims as [trim_is_infix] requires. *)
Lemma reference_trim_is_infix : @trim_is_infix Reference.platform.
Proof.
  intros s. cbn [trim Reference.platform]. unfold Reference.trim.
  destruct (trimStart_suffix s) as [a Ha].
  destruct (trimEnd_prefix (Reference.trimStart s)) as [b Hb].
  exists a, b. by rewrite <- Hb.
Qed.

(** So on the reference platform every page that opens with the html tag is
    reported as an error page. *)
Lemma reference_html_tag_reason (content source : string) :
  @blank Reference.platform content = false ->
  startsWith (Reference.trim (Reference.toLowerCase content)) "<html" = true ->
  @isValidInstructionContent Reference.platform content source
  = {| valid := false;
       reason := Some "Received HTML error page instead of instructions content" |}.
Proof. apply (@html_tag_reason Reference.platform), reference_trim_is_infix. Qed.

(** C5.  On the page ["<html><body>Hi</body></html>"], which carries none of
    the error markers (no 404/401/403/500 title, no "page not found", "access
    denied", "unauthorized", "sign in to", "login required"), the validator
    answers invalid with the reason of an HTML error page, not the reason
    "HTML content instead of Markdown". *)
Theorem plain_html_page_reported_as_error_page (source : string) :
  @isValidInstructionContent Reference.platform "<html><body>Hi</body></html>" source
  = {| valid := false;
       reason := Some "Received HTML error page instead of instructions content" |}.
Proof. reflexivity. Qed.

(** The reason "HTML content instead of Markdown" is still produced, for a
    doctype that is not followed by an html or head tag. *)
Lemma bare_doctype_reason (source : string) :
  @isValidInstructionContent Reference.platform "<!DOCTYPE svg>" source
  = {| valid := false;
       reason := Some "Received HTML content instead of Markdown instructions" |}.
Proof. reflexivity. Qed.

Lemma truthy_js_or (a b : option json) :
  truthy_opt (js_or a b) = truthy_opt a || truthy_opt b.
Proof.
  destruct a as [v|]; simpl; [| done].
  destruct (truthy v) eqn:E; simpl; by rewrite ?E.
Qed.

Lemma js_or_truthy (a b : option json) : truthy_opt a = true -> js_or a b = a.
Proof. destruct a as [v|]; simpl; [by intros -> | done]. Qed.

Lemma js_or_falsy (a b : option json) : truthy_opt a = false -> js_or a b = b.
Proof. destruct a as [v|]; simpl; [by intros -> | done]. Qed.

Lemma api_error_parsed `{Platform} (content : string) (json : json) :
  JSON_parse content = Some json ->
  api_error content
  = if any_error_member json then
      match js_to_string (api_error_value json) with
      | Some text => Some ("API error: " +:+ text)
      | None => None
      end
    else None.
Proof.
  intros Hparse. unfold api_error, any_error_member, api_error_value. rewrite Hparse.
  destruct json as [| | | | |members]; try done.
  set (message := prop (JObject members) "message").
  set (error := prop (JObject members) "error").
  set (errors := prop (JObject members) "errors").
  rewrite !truthy_js_or.
  destruct (truthy_opt message) eqn:Em.
  { simpl. rewrite !(js_or_truthy message _ Em). by destruct message. }
  rewrite (js_or_falsy message error Em).
  destruct (truthy_opt error) eqn:Ee.
  { simpl. rewrite (js_or_truthy error _ Ee). by destruct error. }
  rewrite (js_or_falsy error _ Ee). simpl.
  by destruct (truthy_opt errors).
Qed.

(** C6, as the code has it.  For content that is not blank and whose
    trimmed, lowercased form starts with a brace: when [JSON.parse] succeeds
    and one of [message], [error], [errors] is truthy, the reason is built
    from the message if it is truthy, else from the error if it is truthy,
    else from "Unknown error"; the content is invalid with the reason "API
    error: " followed by that text, unless printing the value throws (an
    object with a member [toString]), which the empty [catch] swallows, so
    that the content is accepted.  When the parse fails, or none of the three
    is truthy (absent, or present with a falsy value such as the empty
    string), the content is accepted. *)
Theorem json_payload_validation `{Platform} (content source : string) :
  blank content = false ->
  startsWith (trim (toLowerCase content)) "{" = true ->
  isValidInstructionContent content source
  = match JSON_parse content with
    | Some json =>
        if any_error_member json
        then
          match js_to_string (api_error_value json) with
          | Some text => {| valid := false; reason := Some ("API error: " +:+ text) |}
          | None => {| valid := true; reason := None |}
          end
        else {| valid := true; reason := None |}
    | None => {| valid := true; reason := None |}
    end.
Proof.
  intros Hb Hbrace. unfold isValidInstructionContent.
  fold (blank content); rewrite Hb.
  rewrite (startsWith_head _ "{" "<" "" "!doctype" Hbrace) by done.
  rewrite (startsWith_head _ "{" "<" "" "html" Hbrace) by done.
  cbn [orb]. rewrite Hbrace.
  destruct (JSON_parse content) as [json|] eqn:Hparse.
  - rewrite (api_error_parsed _ _ Hparse). destruct (any_error_member json); [| done].
    by destruct (js_to_string (api_error_value json)).
  - unfold api_error. by rewrite Hparse.
Qed.

Lemma json_payload_validation_example :
  @isValidInstructionContent Reference.platform
     (sq "{'message': 'Not Found', 'documentation_url': 'https://docs.github.com'}")
     "https://example.com"
  = {| valid := false; reason := Some "API error: Not Found" |} /\
  @isValidInstructionContent Reference.platform
     (sq "{'message': {'toString': 1}}") "https://example.com"
  = {| valid := true; reason := None |}.
Proof.
  split.
  - rewrite (@json_payload_validation Reference.platform); [reflexivity | reflexivity ..].
  - rewrite (@json_payload_validation Reference.platform); [reflexivity | reflexivity ..].
Defined.

(** A document with a [message] member is accepted when the message is the
    empty string, and one whose only error member is [errors] is rejected
    with a reason that does not show its value. *)
Lemma json_message_member_accepted :
  @JSON_parse Reference.platform (sq "{'message':''}")
    = Some (JObject [("message", JString "")]) /\
  @isValidInstructionContent Reference.platform (sq "{'message':''}") "https://example.com"
    = {| valid := true; reason := None |} /\
  @JSON_parse Reference.platform (sq "{'errors':['quota']}")
    = Some (JObject [("errors", JArray [JString "quota"])]) /\
  @isValidInstructionContent Reference.platform (sq "{'errors':['quota']}") "https://example.com"
    = {| valid := false; reason := Some "API error: Unknown error" |}.
Proof. repeat split; reflexivity. Qed.

(** ** Source merge *)

Lemma Map_set_fresh {V} (k : string) (v : V) (m : list (string * V)) :
  ~ In k (keys m) -> Map_set k v m = m ++ [(k, v)].
Proof.
  induction m as [|[k' v'] m IH]; simpl; [done |].
  intros Hnin. destruct (String.eqb_spec k' k) as [-> | Hne].
  - exfalso; apply Hnin; by left.
  - rewrite IH; [done |]. intros Hin; apply Hnin; by right.
Qed.

Lemma Map_set_keys_present {V} (k : string) (v : V) (m : list (string * V)) :
  In k (keys m) -> keys (Map_set k v m) = keys m.
Proof.
  induction m as [|[k' v'] m IH]; simpl; [done |].
  intros Hin. destruct (String.eqb_spec k' k) as [-> | Hne]; simpl; [done |].
  rewrite IH; [done |]. by destruct Hin.
Qed.

Lemma Map_set_keys_NoDup {V} (k : string) (v : V) (m : list (string * V)) :
  List.NoDup (keys m) -> List.NoDup (keys (Map_set k v m)).
Proof.
  intros Hnd. destruct (in_dec String.string_dec k (keys m)) as [Hin | Hnin].
  - by rewrite Map_set_keys_present.
  - rewrite (Map_set_fresh _ _ _ Hnin). unfold keys. rewrite map_app. simpl.
    apply List.NoDup_app.
    + exact Hnd.
    + repeat constructor. intros [].
    + intros x Hx [<- | []]. by apply Hnin.
Qed.

Lemma Map_set_Forall {V} (P : string * V -> Prop) (k : string) (v : V)
    (m : list (string * V)) :
  Forall P m -> P (k, v) -> Forall P (Map_set k v m).
Proof.
  intros Hm Hkv. induction Hm as [|[k' v'] m Hx Hm IH]; simpl.
  - by repeat constructor.
  - destruct (String.eqb k' k); by constructor.
Qed.

Lemma Map_get_set_eq {V} (k : string) (v : V) (m : list (string * V)) :
  Map_get k (Map_set k v m) = Some v.
Proof.
  induction m as [|[k' v'] m IH]; simpl.
  - by rewrite String.eqb_refl.
  - destruct (String.eqb_spec k' k) as [-> | Hne]; simpl.
    + by rewrite String.eqb_refl.
    + destruct (String.eqb_spec k' k); [done | exact IH].
Qed.

Lemma Map_get_set_ne {V} (k k' : string) (v : V) (m : list (string * V)) :
  k' <> k -> Map_get k' (Map_set k v m) = Map_get k' m.
Proof.
  intros Hne. induction m as [|[k0 v0] m IH]; simpl.
  - destruct (String.eqb_spec k k'); [congruence | done].
  - destruct (String.eqb_spec k0 k) as [-> | Hne0]; simpl.
    + destruct (String.eqb_spec k k'); [congruence | done].
    + by rewrite IH.
Qed.

Lemma Map_get_In {V} (k : string) (v : V) (m : list (string * V)) :
  List.NoDup (keys m) -> In (k, v) m -> Map_get k m = Some v.
Proof.
  induction m as [|[k' v'] m IH]; simpl; [done |].
  intros Hnd [Heq | Hin].
  - injection Heq as -> ->. by rewrite String.eqb_refl.
  - apply List.NoDup_cons_iff in Hnd as [Hnin Hnd].
    destruct (String.eqb_spec k' k) as [-> | Hne]; [| by apply IH].
    exfalso. apply Hnin. change k with (fst (k, v)). by apply in_map.
Qed.

Section Merge.
Context `{Platform}.

Lemma last_with_key_cons (k : string) (s : InstructionSource)
    (sources : list InstructionSource) :
  last_with_key k (s :: sources)
  = match last_with_key k sources with
    | Some l => Some l
    | None => if String.eqb (key_of s) k then Some s else None
    end.
Proof.
  unfold last_with_key. simpl rev.
  induction (rev sources) as [|x l IH]; simpl; [done |].
  by destruct (String.eqb (key_of x) k).
Qed.

Lemma last_with_key_Some (k : string) (sources : list InstructionSource)
    (s : InstructionSource) :
  last_with_key k sources = Some s -> In s sources /\ key_of s = k.
Proof.
  unfold last_with_key. intros Hf. apply List.find_some in Hf as [Hin Hk].
  split; [by apply in_rev | by apply String.eqb_eq].
Qed.

Lemma last_with_key_None (k : string) (sources : list InstructionSource)
    (s : InstructionSource) :
  last_with_key k sources = None -> In s sources -> key_of s <> k.
Proof.
  unfold last_with_key. intros Hf Hin.
  apply in_rev in Hin. by apply (List.find_none _ _ Hf), String.eqb_neq in Hin.
Qed.

Lemma set_each_keys_NoDup (sources : list InstructionSource)
    (m : list (string * InstructionSource)) :
  List.NoDup (keys m) -> List.NoDup (keys (set_each sources m)).
Proof.
  revert m; induction sources as [|s sources IH]; intros m Hm; simpl; [done |].
  by apply IH, Map_set_keys_NoDup.
Qed.

Lemma set_each_well_keyed (sources : list InstructionSource)
    (m : list (string * InstructionSource)) :
  well_keyed m -> well_keyed (set_each sources m).
Proof.
  revert m; induction sources as [|s sources IH]; intros m Hm; simpl; [done |].
  by apply IH, Map_set_Forall.
Qed.

Lemma set_each_get (k : string) (sources : list InstructionSource)
    (m : list (string * InstructionSource)) :
  Map_get k (set_each sources m)
  = match last_with_key k sources with
    | Some s => Some s
    | None => Map_get k m
    end.
Proof.
  revert m; induction sources as [|s sources IH]; intros m; simpl; [done |].
  rewrite IH, last_with_key_cons.
  destruct (last_with_key k sources); [done |].
  destruct (String.eqb_spec (key_of s) k) as [<- | Hne].
  - apply Map_get_set_eq.
  - by apply Map_get_set_ne.
Qed.

Lemma set_each_distinct (sources : list InstructionSource)
    (m : list (string * InstructionSource)) :
  List.NoDup (map key_of sources) ->
  (forall s, In s sources -> ~ In (key_of s) (keys m)) ->
  set_each sources m = m ++ map (fun s => (key_of s, s)) sources.
Proof.
  revert m; induction sources as [|s sources IH]; intros m Hnd Hfresh; simpl.
  - by rewrite app_nil_r.
  - apply List.NoDup_cons_iff in Hnd as [Hs Hnd].
    rewrite Map_set_fresh by (apply Hfresh; by left).
    rewrite IH; [by rewrite <- app_assoc | done |].
    intros s' Hs'. unfold keys. rewrite map_app, in_app_iff. simpl.
    intros [Hin | [Heq | []]].
    + by apply (Hfresh s'); [right |].
    + apply Hs. rewrite Heq. by apply in_map.
Qed.

Lemma merged_values (sources : list InstructionSource) :
  Map_values (map (fun s => (key_of s, s)) sources) = sources.
Proof.
  unfold Map_values. rewrite map_map. simpl. apply map_id.
Qed.

(** The keyed-map merge yields pairwise distinct keys. *)
Lemma merged_NoDup (remoteSources localSources : list InstructionSource) :
  List.NoDup (map key_of (merged remoteSources localSources)).
Proof.
  unfold merged, Map_values.
  set (m := set_each localSources (set_each remoteSources [])).
  assert (List.NoDup (keys m)) as Hnd
    by (apply set_each_keys_NoDup, set_each_keys_NoDup; constructor).
  assert (well_keyed m) as Hwk
    by (apply set_each_well_keyed, set_each_well_keyed; constructor).
  replace (map key_of (map snd m)) with (keys m); [done |].
  unfold keys. rewrite map_map. apply map_ext_Forall.
  eapply Forall_impl; [exact Hwk | done].
Qed.

(** In the keyed-map merge, the entry under a key that a local source has is
    the last local source with that key. *)
Lemma merged_local_wins (remoteSources localSources : list InstructionSource)
    (s l : InstructionSource) :
  In s (merged remoteSources localSources) ->
  In l localSources -> key_of l = key_of s ->
  last_with_key (key_of s) localSources = Some s.
Proof.
  unfold merged, Map_values.
  set (m := set_each localSources (set_each remoteSources [])).
  intros Hs Hl Hkey.
  assert (List.NoDup (keys m)) as Hnd
    by (apply set_each_keys_NoDup, set_each_keys_NoDup; constructor).
  assert (well_keyed m) as Hwk
    by (apply set_each_well_keyed, set_each_well_keyed; constructor).
  apply in_map_iff in Hs as ([k s'] & Heq & Hin). simpl in Heq; subst s'.
  assert (k = key_of s) as ->
    by (eapply Forall_forall in Hwk; [| apply list_elem_of_In; exact Hin]; exact Hwk).
  pose proof (Map_get_In _ _ _ Hnd Hin) as Hget.
  unfold m in Hget. rewrite set_each_get in Hget.
  destruct (last_with_key (key_of s) localSources) as [s'|] eqn:Hlast; [done |].
  exfalso. by apply (last_with_key_None _ _ l Hlast Hl).
Qed.

(** In particular that entry is one of the local sources. *)
Lemma merged_local_entry (remoteSources localSources : list InstructionSource)
    (s l : InstructionSource) :
  In s (merged remoteSources localSources) ->
  In l localSources -> key_of l = key_of s ->
  In s localSources.
Proof.
  intros Hs Hl Hkey.
  by destruct (last_with_key_Some _ _ _
                 (merged_local_wins remoteSources localSources s l Hs Hl Hkey)).
Qed.

End Merge.

Lemma sourceKey_resolved `{Platform} (s : InstructionSource) :
  sourceKey s = if resolvable s then Some (key_of s) else None.
Proof. unfold sourceKey. rewrite getDestinationPath_resolved. by destruct (resolvable s). Qed.

Lemma sourceKey_Some `{Platform} (s : InstructionSource) :
  sourceKey s <> None -> resolvable s = true /\ sourceKey s = Some (key_of s).
Proof. rewrite sourceKey_resolved. by destruct (resolvable s). Qed.

Lemma set_all_resolved `{Platform} (sources : list InstructionSource)
    (m : list (string * InstructionSource)) :
  set_all sources m
  = if forallb resolvable sources then Some (set_each sources m) else None.
Proof.
  revert m; induction sources as [|s sources IH]; intros m; [done |].
  cbn [set_all set_each forallb]. rewrite sourceKey_resolved.
  destruct (resolvable s); [apply IH | done].
Qed.

Lemma merge_general_resolved `{Platform} (remoteSources localSources : list InstructionSource) :
  merge_general remoteSources localSources
  = if forallb resolvable (remoteSources ++ localSources)
    then Some (merged remoteSources localSources) else None.
Proof.
  unfold merge_general, merged. rewrite forallb_app, set_all_resolved.
  destruct (forallb resolvable remoteSources); [| done].
  rewrite set_all_resolved. by destruct (forallb resolvable localSources).
Qed.

Lemma computable_keys `{Platform} (sources : list InstructionSource) :
  (forall s, In s sources -> sourceKey s <> None) ->
  forallb resolvable sources = true /\
  map sourceKey sources = map Some (map key_of sources).
Proof.
  induction sources as [|s sources IH]; intros Hkeys; [done |].
  destruct (sourceKey_Some s) as [Hr Hk]; [apply Hkeys; by left |].
  destruct IH as [Hrs Hks]; [intros s' Hs'; apply Hkeys; by right |].
  cbn [forallb map]. by rewrite Hr, Hrs, Hk, Hks.
Qed.

Lemma distinct_keys `{Platform} (sources : list InstructionSource) :
  (forall s, In s sources -> sourceKey s <> None) ->
  List.NoDup (map sourceKey sources) ->
  forallb resolvable sources = true /\ List.NoDup (map key_of sources).
Proof.
  intros Hkeys Hnd. destruct (computable_keys sources Hkeys) as [Hr Hk].
  split; [done |]. rewrite Hk in Hnd. by apply List.NoDup_map_inv in Hnd.
Qed.

(** C2, as the code has it.  For a local list whose keys can be computed
    and are pairwise distinct, the merge with no remote sources (absent or
    empty) returns the local list unchanged, and so does the keyed-map merge
    of the same inputs; for a remote list whose keys can be computed and are
    pairwise distinct, the merge with no local sources returns the remote list
    unchanged, and so does the keyed-map merge. *)
Theorem merge_short_circuits `{Platform} (remoteSources localSources : list InstructionSource) :
  ((forall s, In s localSources -> sourceKey s <> None) ->
   List.NoDup (map sourceKey localSources) ->
     merge None localSources = Some localSources /\
     merge (Some []) localSources = Some localSources /\
     merge_general [] localSources = Some localSources) /\
  ((forall s, In s remoteSources -> sourceKey s <> None) ->
   List.NoDup (map sourceKey remoteSources) ->
     merge (Some remoteSources) [] = Some remoteSources /\
     merge_general remoteSources [] = Some remoteSources).
Proof.
  split; intros Hkeys Hnd; destruct (distinct_keys _ Hkeys Hnd) as [Hr Hd].
  - split; [done |]. split; [done |].
    rewrite merge_general_resolved. cbn [app]. rewrite Hr. f_equal.
    unfold merged. cbn [set_each].
    rewrite set_each_distinct; [apply merged_values | done | by intros ? _ []].
  - split; [by destruct remoteSources |].
    rewrite merge_general_resolved, app_nil_r, Hr. f_equal.
    unfold merged. cbn [set_each].
    rewrite set_each_distinct; [apply merged_values | done | by intros ? _ []].
Qed.

Lemma merge_short_circuits_example :
  let sources := [csharp_general; csharp_testing; go_source] in
  (@merge Reference.platform None sources = Some sources /\
   @merge_general Reference.platform [] sources = Some sources) /\
  (@merge Reference.platform (Some sources) [] = Some sources /\
   @merge_general Reference.platform sources [] = Some sources).
Proof.
  intros sources.
  assert (forall s, In s sources -> @sourceKey Reference.platform s <> None) as Hkeys
    by (intros s [<- | [<- | [<- | []]]]; by vm_compute).
  assert (List.NoDup (map (@sourceKey Reference.platform) sources)) as Hnd
    by (apply NoDup_ListNoDup, (bool_decide_unpack _); by vm_compute).
  destruct (@merge_short_circuits Reference.platform sources sources) as [Hlocal Hremote].
  destruct (Hlocal Hkeys Hnd) as (Hshort & _ & Hgeneral).
  destruct (Hremote Hkeys Hnd) as (Hshort' & Hgeneral').
  split; split; assumption.
Defined.

(** On a local list with two entries under one key the short-circuit returns
    both and the keyed-map merge keeps the later one. *)
Lemma merge_short_circuit_differs_on_shared_key :
  @sourceKey Reference.platform csharp_old = @sourceKey Reference.platform csharp_new /\
  @sourceKey Reference.platform csharp_old = Some "c#::.github/copilot-instructions.md" /\
  @merge Reference.platform None [csharp_old; csharp_new] = Some [csharp_old; csharp_new] /\
  @merge_general Reference.platform [] [csharp_old; csharp_new] = Some [csharp_new] /\
  @merge Reference.platform None [csharp_old; csharp_new]
    <> @merge_general Reference.platform [] [csharp_old; csharp_new].
Proof. repeat split; try reflexivity. discriminate. Qed.

(** The keys have to be computable: a lone source whose destination cannot
    be printed passes the short-circuit untouched, where the keyed-map merge
    throws. *)
Lemma merge_short_circuit_needs_keys :
  @merge Reference.platform None [unprintable_source] = Some [unprintable_source] /\
  @merge_general Reference.platform [] [unprintable_source] = None.
Proof. split; reflexivity. Qed.

(** ** Runs: computations that only read *)

Lemma outcome_eta {A} (o : Outcome A) :
  {| result := result o; final := final o; events := events o |} = o.
Proof. by destruct o. Qed.

Lemma after_nil {A} (o : Outcome A) : after [] o = o.
Proof. by destruct o. Qed.

Lemma bind_run {A B} (m : M A) (k : A -> M B) (w : World) :
  bind m k w = match result (m w) with
               | Ok a => after (events (m w)) (k a (final (m w)))
               | Throw e => {| result := Throw e; final := final (m w);
                               events := events (m w) |}
               end.
Proof. reflexivity. Qed.

Lemma try_catch_bind {A B} (m : M A) (k : A -> M B) (handler : string -> M B) (w : World) :
  try_catch (bind m k) handler w
  = match result (m w) with
    | Ok a => after (events (m w)) (try_catch (k a) handler (final (m w)))
    | Throw e => after (events (m w)) (handler e (final (m w)))
    end.
Proof.
  unfold try_catch, bind, after.
  destruct (m w) as [[a|e] w1 ev1]; cbn [result final events]; [| reflexivity].
  destruct (k a w1) as [[b|e] w2 ev2]; cbn [result final events]; [reflexivity |].
  by rewrite app_assoc.
Qed.

Lemma read_only_ret {A} (a : A) : read_only (ret a).
Proof. done. Qed.

Lemma read_only_throw {A} (e : string) : read_only (@throw A e).
Proof. done. Qed.

Lemma read_only_get_world : read_only get_world.
Proof. done. Qed.

Lemma read_only_bind {A B} (m : M A) (k : A -> M B) :
  read_only m -> (forall a, read_only (k a)) -> read_only (bind m k).
Proof.
  intros Hm Hk w. unfold bind. destruct (Hm w) as [Hf He].
  destruct (result (m w)) as [a|e]; simpl; [| done].
  rewrite Hf, He. destruct (Hk a w) as [-> ->]. done.
Qed.

Lemma read_only_try_catch {A} (m : M A) (handler : string -> M A) :
  read_only m -> (forall e, read_only (handler e)) -> read_only (try_catch m handler).
Proof.
  intros Hm Hk w. unfold try_catch. destruct (Hm w) as [Hf He].
  destruct (result (m w)) as [a|e]; simpl; [done |].
  rewrite Hf, He. destruct (Hk e w) as [-> ->]. done.
Qed.

Lemma read_only_run {A} (m : M A) (w : World) :
  read_only m -> m w = {| result := result (m w); final := w; events := [] |}.
Proof.
  intros Hm. destruct (Hm w) as [Hf He].
  rewrite <- (outcome_eta (m w)) at 1. by rewrite Hf, He.
Qed.

Lemma bind_read_only {A B} (m : M A) (k : A -> M B) (w : World) :
  read_only m ->
  bind m k w = match result (m w) with
               | Ok a => k a w
               | Throw e => {| result := Throw e; final := w; events := [] |}
               end.
Proof.
  intros Hm. unfold bind. destruct (Hm w) as [-> ->].
  destruct (result (m w)); [apply outcome_eta | done].
Qed.

Lemma try_catch_read_only {A} (m : M A) (handler : string -> M A) (w : World) :
  read_only m ->
  try_catch m handler w = match result (m w) with
                          | Ok a => {| result := Ok a; final := w; events := [] |}
                          | Throw e => handler e w
                          end.
Proof.
  intros Hm. unfold try_catch. rewrite (read_only_run m w Hm). simpl.
  destruct (result (m w)); [done | apply outcome_eta].
Qed.

(** Rewrite a bind whose first computation only reads, by the lemma [lem]
    that says so. *)
Ltac bind_reads lem :=
  match goal with
  | |- context [bind ?m ?k ?w] => rewrite (bind_read_only m k w lem)
  end.

Ltac try_reads lem :=
  match goal with
  | |- context [try_catch ?m ?h ?w] => rewrite (try_catch_read_only m h w lem)
  end.

Ltac read_only_step :=
  first [ apply read_only_ret | apply read_only_throw | apply read_only_get_world
        | apply read_only_bind; [| intros ?]
        | apply read_only_try_catch; [| intros ?]
        | case_match ].

Lemma read_only_readFile (uri : string) : read_only (readFile uri).
Proof. unfold readFile. repeat read_only_step. Qed.

Lemma read_only_fetch (url : string) (headers : list (string * string)) :
  read_only (fetch url headers).
Proof. unfold fetch. repeat read_only_step. Qed.

Lemma read_only_getSession (providerId : string) (scopes : list string) (o : AuthOptions) :
  read_only (authentication_getSession providerId scopes o).
Proof. unfold authentication_getSession. repeat read_only_step. Qed.

Lemma read_only_getGitHubToken (isEnterprise : bool) : read_only (getGitHubToken isEnterprise).
Proof.
  unfold getGitHubToken.
  repeat first [ apply read_only_getSession | read_only_step ].
Qed.

Lemma read_only_getAzureDevOpsToken : read_only getAzureDevOpsToken.
Proof.
  unfold getAzureDevOpsToken.
  repeat first [ apply read_only_getSession | read_only_step ].
Qed.

Lemma read_only_fetchContent `{Platform} (source : string) : read_only (fetchContent source).
Proof.
  unfold fetchContent.
  repeat first [ apply read_only_readFile | apply read_only_fetch
               | apply read_only_getGitHubToken | apply read_only_getAzureDevOpsToken
               | read_only_step ].
Qed.

Lemma resolvable_file_text (source : InstructionSource) :
  resolvable source = true ->
  js_to_string (file (destination_of source)) = Some (js_text (file (destination_of source))).
Proof. unfold resolvable, js_to_string. by intros [_ ->]%andb_true_iff. Qed.

Lemma getLocalInstructions_run `{Platform}
    (workspaceFolder : WorkspaceFolder) (source : InstructionSource) (w : World) :
  getLocalInstructions workspaceFolder source w
  = if resolvable source then
      {| result := Ok (files w !! destination_uri workspaceFolder source);
         final := w; events := [] |}
    else {| result := Throw TypeError_message; final := w; events := [] |}.
Proof.
  unfold getLocalInstructions, destination_uri. rewrite getDestinationPath_resolved.
  destruct (resolvable source); [| reflexivity].
  unfold or_throw, try_catch, bind, readFile, get_world, ret, throw. simpl.
  by destruct (files w !! _).
Qed.

(** ** Content fetcher *)

Lemma read_only_headers `{Platform} (source : string) :
  read_only
    (if isGitHub (isGitHubUrl source) then
       token <- getGitHubToken (isEnterprise (isGitHubUrl source));;
       ret (("Accept", "application/vnd.github.v3.raw") :: bearer token)
     else if isAzureDevOpsUrl source then
       token <- getAzureDevOpsToken;;
       ret (("Accept", "text/plain") :: bearer token)
     else ret []).
Proof.
  repeat first [ apply read_only_getGitHubToken | apply read_only_getAzureDevOpsToken
               | read_only_step ].
Qed.

(** C9.  For a source that [isLocalPath] classifies as local, [fetchContent]
    returns the text of the file as it is, whatever
    [isValidInstructionContent] says of it; for any other source, a text
    that [fetchContent] returns has passed [isValidInstructionContent]. *)
Theorem local_content_is_not_validated `{Platform} (source content : string) (w : World) :
  (isLocalPath source = true ->
   files w !! localPathToUri source = Some content ->
   fetchContent source w = {| result := Ok content; final := w; events := [] |}) /\
  (isLocalPath source = false ->
   result (fetchContent source w) = Ok content ->
   valid (isValidInstructionContent content source) = true).
Proof.
  split.
  - intros Hlocal Hfile. unfold fetchContent. rewrite Hlocal.
    try_reads (read_only_readFile (localPathToUri source)).
    unfold readFile, bind, get_world, ret. simpl. by rewrite Hfile.
  - intros Hremote. unfold fetchContent. rewrite Hremote. cbv zeta.
    bind_reads (read_only_headers source).
    match goal with
    | |- context [match result ?o with _ => _ end] => destruct (result o) as [headers|e]
    end; [| done].
    bind_reads (read_only_fetch source headers).
    destruct (result (fetch source headers w)) as [[msg | ok status statusText body]|e];
      try done.
    destruct ok; simpl; [| done].
    destruct (valid (isValidInstructionContent body source)) eqn:Hv; simpl; [| done].
    intros [= <-]. exact Hv.
Qed.

(** ** Sync of one source *)

Lemma confirmationGate_run `{Platform}
    (workspaceFolder : WorkspaceFolder) (source : InstructionSource)
    (localContent : option string) (requireConfirmation : bool) (session : option nat)
    (w : World) :
  resolvable source = true ->
  confirmationGate workspaceFolder source localContent requireConfirmation session w
  = if prompts requireConfirmation session w then
      {| result := Ok (approves (next_answer w));
         final := answered session w;
         events := [EvPrompt (confirmation_message workspaceFolder source localContent)
                             (next_answer w)] |}
    else {| result := Ok true; final := w; events := [] |}.
Proof.
  intros Hr. pose proof (resolvable_file_text source Hr) as Hfile.
  unfold confirmationGate, confirmation_message. rewrite getDestinationPath_resolved, Hr.
  unfold prompts, confirmed, answered, next_answer,
    session_confirmAll, get_confirmBeforeSync, showConfirmation, set_confirmAll,
    disable_confirmBeforeSync, or_throw, bind, get_world, put_world, emit, ret.
  cbn [result final events sessions settings answers set_answers set_sessions set_settings].
  rewrite ?Hfile.
  destruct session as [r|]; [destruct (sessions w !! r) as [[[]]|] |];
    destruct requireConfirmation; cbn [result final events andb negb confirmAll app];
    try reflexivity;
    destruct (cfg_confirmBeforeSync (settings w));
    cbn [result final events andb negb confirmAll app]; try reflexivity;
    destruct (answers w) as [|[[]|] rest]; reflexivity.
Qed.

Lemma writeLocalInstructions_run `{Platform}
    (workspaceFolder : WorkspaceFolder) (content : string) (source : InstructionSource)
    (w : World) :
  writeLocalInstructions workspaceFolder content source w
  = if resolvable source then
      match folder (destination_of source) with
      | JString _ =>
          let uri := destination_uri workspaceFolder source in
          if write_denied w uri
          then {| result := Throw (fs_error w uri); final := w;
                  events := [EvWrite uri content] |}
          else {| result := Ok tt; final := set_files (<[uri := content]> (files w)) w;
                  events := [EvWrite uri content] |}
      | _ => {| result := Throw "The path argument must be of type string"; final := w;
                events := [] |}
      end
    else {| result := Throw TypeError_message; final := w; events := [] |}.
Proof.
  unfold writeLocalInstructions, destination_uri.
  rewrite getDestinationPath_resolved. destruct (resolvable source); [| reflexivity].
  cbv beta iota zeta delta [or_throw bind ret result final events app].
  destruct (folder (destination_of source)) as [| | |segment| |];
    cbv beta iota zeta delta
      [path_segment createDirectory writeFile try_catch bind get_world put_world emit
       ret throw result final events app];
    try reflexivity.
  destruct (write_denied w _); reflexivity.
Qed.

Lemma updatedNotification_run `{Platform}
    (workspaceFolder : WorkspaceFolder) (source : InstructionSource) (w : World) :
  resolvable source = true ->
  updatedNotification workspaceFolder source w
  = {| result := Ok tt; final := w;
       events := [EvInformation (updated_message workspaceFolder source)] |}.
Proof.
  intros Hr. pose proof (resolvable_file_text source Hr) as Hfile.
  unfold updatedNotification, updated_message. rewrite getDestinationPath_resolved, Hr.
  unfold or_throw, bind, ret, showInformationMessage, emit. cbn [result final events].
  by rewrite Hfile.
Qed.

Lemma syncInstructions_run `{Platform}
    (workspaceFolder : WorkspaceFolder) (source : InstructionSource)
    (showNotifications requireConfirmation : bool) (session : option nat) (w : World) :
  syncInstructions workspaceFolder source showNotifications requireConfirmation session w
  = sync_outcome workspaceFolder source showNotifications requireConfirmation session w.
Proof.
  unfold syncInstructions, sync_outcome.
  rewrite try_catch_bind.
  destruct (read_only_fetchContent (url source) w) as [-> ->].
  destruct (result (fetchContent (url source) w)) as [remoteContent|e];
    rewrite after_nil; [| reflexivity].
  rewrite try_catch_bind, getLocalInstructions_run.
  destruct (resolvable source) eqn:Hr; cbn [result final events negb]; rewrite after_nil;
    [| reflexivity].
  assert (forall w2, when showNotifications (updatedNotification workspaceFolder source) w2
                     = {| result := Ok tt; final := w2;
                          events := notice showNotifications
                                           (updated_message workspaceFolder source) |})
    as Hnotice.
  { intros w2. destruct showNotifications; [by apply updatedNotification_run | done]. }
  destruct (differs _ remoteContent).
  - rewrite try_catch_bind, (confirmationGate_run _ _ _ _ _ _ Hr).
    destruct (prompts requireConfirmation session w); cbn [result final events].
    + destruct (approves (next_answer w)); [| reflexivity].
      rewrite try_catch_bind. unfold write_outcome.
      destruct (writeLocalInstructions _ _ _ _) as [[[]|e] w2 ev]; cbn [result final events].
      * rewrite try_catch_bind, Hnotice. cbn [result final events].
        unfold after, try_catch, ret. cbn [result final events app].
        by rewrite ?app_nil_r.
      * reflexivity.
    + rewrite after_nil, try_catch_bind. unfold write_outcome.
      destruct (writeLocalInstructions _ _ _ _) as [[[]|e] w2 ev]; cbn [result final events].
      * rewrite try_catch_bind, Hnotice. cbn [result final events].
        unfold after, try_catch, ret. cbn [result final events app].
        by rewrite ?app_nil_r.
      * reflexivity.
  - rewrite try_catch_bind. by destruct showNotifications.
Qed.

Lemma no_prompt_app (a b : list Event) : no_prompt (a ++ b) = no_prompt a && no_prompt b.
Proof. apply forallb_app. Qed.

Lemma no_yes_to_all_app (a b : list Event) :
  no_yes_to_all (a ++ b) = no_yes_to_all a && no_yes_to_all b.
Proof. apply forallb_app. Qed.

Lemma no_prompt_no_yes_to_all (l : list Event) : no_prompt l = true -> no_yes_to_all l = true.
Proof.
  induction l as [|e l IH]; simpl; [done |].
  intros [He Hl]%andb_true_iff. rewrite IH by done.
  by destruct e as [| | |m [[]|]|].
Qed.

Lemma no_yes_to_all_quiet (l : list Event) :
  no_yes_to_all l = true -> quiet_after_yes_to_all l = true.
Proof.
  induction l as [|e l IH]; simpl; [done |].
  intros [He Hl]%andb_true_iff. destruct (is_yes_to_all e); [done | by apply IH].
Qed.

Lemma quiet_app_no_prompt (a b : list Event) :
  quiet_after_yes_to_all a = true -> no_prompt b = true ->
  quiet_after_yes_to_all (a ++ b) = true.
Proof.
  intros Ha Hb. induction a as [|e a IH]; simpl in *.
  - by apply no_yes_to_all_quiet, no_prompt_no_yes_to_all.
  - destruct (is_yes_to_all e); [| by apply IH].
    by rewrite no_prompt_app, Ha, Hb.
Qed.

Lemma quiet_app_no_yes_to_all (a b : list Event) :
  no_yes_to_all a = true ->
  quiet_after_yes_to_all (a ++ b) = quiet_after_yes_to_all b.
Proof.
  induction a as [|e a IH]; simpl; [done |].
  intros [He Hl]%andb_true_iff. destruct (is_yes_to_all e); [done | by apply IH].
Qed.

Lemma write_outcome_no_prompt `{Platform}
    (workspaceFolder : WorkspaceFolder) (source : InstructionSource)
    (showNotifications : bool) (remoteContent : string) (w1 : World) :
  no_prompt (events (write_outcome workspaceFolder source showNotifications
                                   remoteContent w1)) = true.
Proof.
  unfold write_outcome. rewrite writeLocalInstructions_run.
  destruct (resolvable source); [| reflexivity].
  destruct (folder _); cbn [result final events]; try reflexivity.
  cbv zeta. destruct (write_denied w1 _); cbn [result final events]; [reflexivity |].
  by destruct showNotifications.
Qed.

(** The write changes the files only. *)
Lemma write_outcome_keeps `{Platform}
    (workspaceFolder : WorkspaceFolder) (source : InstructionSource)
    (showNotifications : bool) (remoteContent : string) (w1 : World) :
  let o := write_outcome workspaceFolder source showNotifications remoteContent w1 in
  sessions (final o) = sessions w1 /\ answers (final o) = answers w1 /\
  settings (final o) = settings w1.
Proof.
  unfold write_outcome. rewrite writeLocalInstructions_run.
  destruct (resolvable source); [| done].
  destruct (folder _); cbn [result final events]; try done.
  cbv zeta. by destruct (write_denied w1 _).
Qed.

(** The branch of [sync_outcome] for a destination that cannot be resolved
    is as the one for a failed fetch. *)
Ltac resolve_source :=
  match goal with
  | |- context [negb (resolvable ?source)] =>
      let Hr := fresh "Hresolved" in
      destruct (resolvable source) eqn:Hr; cbn [negb]
  end.

Lemma no_prompt_In (l : list Event) (message : string) (answer : option Choice) :
  no_prompt l = true -> ~ In (EvPrompt message answer) l.
Proof.
  unfold no_prompt. rewrite forallb_forall. intros Hl Hin. by apply Hl in Hin.
Qed.

(** C7.  When the confirmation prompt of a [syncInstructions] call is
    answered "No" or dismissed, the call returns [false], the files, the
    sessions and the settings are as before, and the prompt is the only event
    of the call: nothing is written and no error is shown. *)
Theorem declined_confirmation_skips `{Platform}
    (workspaceFolder : WorkspaceFolder) (source : InstructionSource)
    (showNotifications requireConfirmation : bool) (session : option nat) (w : World)
    (message : string) (answer : option Choice) :
  let o := syncInstructions workspaceFolder source showNotifications requireConfirmation
                            session w in
  In (EvPrompt message answer) (events o) ->
  answer = Some No \/ answer = None ->
  result o = Ok false /\
  files (final o) = files w /\
  sessions (final o) = sessions w /\
  settings (final o) = settings w /\
  events o = [EvPrompt message answer].
Proof.
  cbv zeta. rewrite syncInstructions_run. unfold sync_outcome.
  destruct (result (fetchContent (url source) w)) as [remoteContent|e];
    cbn [events]; [| by intros [? | []]].
  resolve_source; [| cbn [events]; by intros [? | []]].
  destruct (differs _ remoteContent);
    [| destruct showNotifications; cbn; [by intros [? | []] | by intros []]].
  destruct (prompts requireConfirmation session w).
  - destruct (approves (next_answer w)) eqn:Happ; cbn [result final events].
    + intros [[= <- <-] | Hin] Hans.
      * destruct Hans as [Ha | Ha]; by rewrite Ha in Happ.
      * by apply no_prompt_In in Hin; [| apply write_outcome_no_prompt].
    + intros [[= <- <-] | []] Hans. unfold answered.
      destruct Hans as [Ha | Ha]; by rewrite Ha.
  - intros Hin. by apply no_prompt_In in Hin; [| apply write_outcome_no_prompt].
Qed.

(** ** The confirmation session *)

Lemma prompts_confirmed (requireConfirmation : bool) (session : option nat) (w : World) :
  confirmed w session = true -> prompts requireConfirmation session w = false.
Proof. unfold prompts. intros ->. by destruct requireConfirmation. Qed.

Lemma answered_yes_to_all (r : nat) (w : World) :
  next_answer w = Some YesToAll -> confirmed (answered (Some r) w) (Some r) = true.
Proof.
  intros Ha. unfold answered, confirmed. rewrite Ha.
  cbn [sessions set_sessions]. by rewrite lookup_insert_eq.
Qed.

Lemma write_outcome_confirmed `{Platform}
    (workspaceFolder : WorkspaceFolder) (source : InstructionSource)
    (showNotifications : bool) (remoteContent : string) (session : option nat) (w1 : World) :
  confirmed (final (write_outcome workspaceFolder source showNotifications
                                  remoteContent w1)) session
  = confirmed w1 session.
Proof.
  unfold confirmed.
  by destruct (write_outcome_keeps workspaceFolder source showNotifications
                                   remoteContent w1) as (-> & _ & _).
Qed.

Lemma write_outcome_writes `{Platform}
    (workspaceFolder : WorkspaceFolder) (source : InstructionSource)
    (showNotifications : bool) (remoteContent : string) (w1 : World) (segment : string) :
  resolvable source = true ->
  folder (destination_of source) = JString segment ->
  let o := write_outcome workspaceFolder source showNotifications remoteContent w1 in
  let uri := destination_uri workspaceFolder source in
  In (EvWrite uri remoteContent) (events o) /\
  (write_denied w1 uri = false ->
   result o = Ok true /\ files (final o) = <[uri := remoteContent]> (files w1)).
Proof.
  intros Hr Hfolder. unfold write_outcome. rewrite writeLocalInstructions_run, Hr, Hfolder.
  cbv zeta. destruct (write_denied w1 _); cbn [result final events files set_files].
  - split; [by left | done].
  - split; [by left | done].
Qed.

(** A call made when the session has [confirmAll] set. *)
Lemma syncInstructions_confirmed `{Platform}
    (workspaceFolder : WorkspaceFolder) (source : InstructionSource)
    (showNotifications requireConfirmation : bool) (r : nat) (w : World) :
  confirmed w (Some r) = true ->
  let o := syncInstructions workspaceFolder source showNotifications requireConfirmation
                            (Some r) w in
  no_prompt (events o) = true /\
  answers (final o) = answers w /\
  sessions (final o) = sessions w.
Proof.
  intros Hc. cbv zeta. rewrite syncInstructions_run. unfold sync_outcome.
  rewrite (prompts_confirmed _ _ _ Hc).
  destruct (result (fetchContent (url source) w)) as [remoteContent|e]; [| done].
  resolve_source; [| done].
  destruct (differs _ remoteContent).
  - split; [apply write_outcome_no_prompt |].
    by destruct (write_outcome_keeps workspaceFolder source showNotifications
                                     remoteContent w) as (-> & -> & _).
  - by destruct showNotifications.
Qed.

(** What any call leaves in the trace, and in the session. *)
Lemma syncInstructions_any `{Platform}
    (workspaceFolder : WorkspaceFolder) (source : InstructionSource)
    (showNotifications requireConfirmation : bool) (r : nat) (w : World) :
  let o := syncInstructions workspaceFolder source showNotifications requireConfirmation
                            (Some r) w in
  quiet_after_yes_to_all (events o) = true /\
  (confirmed (final o) (Some r) = true \/ no_yes_to_all (events o) = true) /\
  (forall message, In (EvPrompt message (Some YesToAll)) (events o) ->
                   confirmed (final o) (Some r) = true).
Proof.
  cbv zeta. rewrite syncInstructions_run. unfold sync_outcome.
  destruct (result (fetchContent (url source) w)) as [remoteContent|e];
    [| split; [done | split; [by right | by intros ? [? | []]]]].
  resolve_source; [| split; [done | split; [by right | by intros ? [? | []]]]].
  pose proof (write_outcome_no_prompt workspaceFolder source showNotifications
                                      remoteContent) as Hnp.
  destruct (differs _ remoteContent).
  - destruct (prompts requireConfirmation (Some r) w).
    + destruct (next_answer w) as [[]|] eqn:Ha; cbn [approves result final events].
      * split; [by apply no_yes_to_all_quiet; cbn; rewrite no_prompt_no_yes_to_all |].
        split; [right; by cbn; rewrite no_prompt_no_yes_to_all |].
        intros m [? | Hin]; [done | by apply no_prompt_In in Hin].
      * rewrite write_outcome_confirmed, answered_yes_to_all by done.
        split; [cbn; apply Hnp | by split; [left |]].
      * split; [done | split; [by right | by intros ? [? | []]]].
      * split; [by apply no_yes_to_all_quiet; cbn; rewrite no_prompt_no_yes_to_all |].
        split; [right; by cbn; rewrite no_prompt_no_yes_to_all |].
        intros m [? | Hin]; [done | by apply no_prompt_In in Hin].
      * split; [done | split; [by right | by intros ? [? | []]]].
    + split; [by apply no_yes_to_all_quiet, no_prompt_no_yes_to_all |].
      split; [right; by apply no_prompt_no_yes_to_all |].
      intros m Hin. by apply no_prompt_In in Hin.
  - split; [by destruct showNotifications |].
    split; [right; by destruct showNotifications |].
    destruct showNotifications; cbn; [by intros ? [? | []] | by intros ? []].
Qed.

(** ** The orchestrator *)

Lemma bind_ret_l {A B} (a : A) (k : A -> M B) (w : World) : bind (ret a) k w = k a w.
Proof. rewrite bind_run. cbn [ret result final events]. apply after_nil. Qed.

Lemma bind_assoc {A B C} (m : M A) (k : A -> M B) (k' : B -> M C) (w : World) :
  bind (bind m k) k' w = bind m (fun a => bind (k a) k') w.
Proof.
  unfold bind. destruct (m w) as [[a|e] w1 ev1]; cbn [result final events]; [| done].
  destruct (k a w1) as [[b|e] w2 ev2]; cbn [result final events]; [| done].
  by rewrite app_assoc.
Qed.

Lemma bind_ext {A B} (m : M A) (k k' : A -> M B) (w : World) :
  (forall a w', k a w' = k' a w') -> bind m k w = bind m k' w.
Proof. intros Hk. unfold bind. destruct (result (m w)); [by rewrite Hk | done]. Qed.

Lemma detect_languages_named (w : World) (workspaceFolder : WorkspaceFolder)
    (table : list (string * list string)) :
  Forall (fun l => l <> "") (map fst table) ->
  Forall (fun l => l <> "") (detect_languages w workspaceFolder table).
Proof.
  induction table as [|[l ps] table IH]; simpl; [done |].
  intros [Hl Ht]%Forall_cons. destruct (any_pattern_matches w workspaceFolder ps).
  - constructor; [done | by apply IH].
  - by apply IH.
Qed.

Lemma detected_languages_named (w : World) (workspaceFolder : WorkspaceFolder) :
  Forall (fun l => l <> "") (detect_languages w workspaceFolder languagePatterns).
Proof. apply detect_languages_named. unfold languagePatterns. simpl. by repeat constructor. Qed.

Lemma matchingLanguage_applicable `{Platform} (detectedLanguages : list string)
    (source : InstructionSource) :
  Forall (fun l => l <> "") detectedLanguages ->
  match matchingLanguage detectedLanguages source with
  | Some lang => negb (String.eqb lang "") = true /\
                 applicable detectedLanguages source = negb (disabled source)
  | None => applicable detectedLanguages source = false
  end.
Proof.
  unfold matchingLanguage, applicable. intros Hnamed.
  induction Hnamed as [|l ls Hl Hls IH]; cbn [List.find existsb].
  - apply andb_false_r.
  - destruct (String.eqb (toLowerCase l) (toLowerCase (language source))).
    + split; [| by rewrite orb_true_l, andb_true_r].
      by apply negb_true_iff, String.eqb_neq.
    + exact IH.
Qed.

Lemma syncSources_all_matching `{Platform} (workspaceFolder : WorkspaceFolder)
    (detectedLanguages : list string) (sources : list InstructionSource)
    (showNotifications : bool) (session : nat) (w : World) :
  Forall (fun l => l <> "") detectedLanguages ->
  syncSources workspaceFolder detectedLanguages sources showNotifications session w
  = syncEach workspaceFolder (List.filter (applicable detectedLanguages) sources)
             showNotifications session w.
Proof.
  intros Hnamed. revert w. induction sources as [|source rest IH]; intros w; [done |].
  cbn [syncSources List.filter].
  pose proof (matchingLanguage_applicable detectedLanguages source Hnamed) as Hm.
  destruct (disabled source) eqn:Hd.
  - assert (applicable detectedLanguages source = false) as ->
      by (unfold applicable; by rewrite Hd).
    rewrite bind_ret_l. apply IH.
  - destruct (matchingLanguage detectedLanguages source) as [lang|].
    + destruct Hm as [-> ->]. cbn [negb syncEach].
      rewrite bind_assoc. apply bind_ext. intros ? w'. rewrite bind_ret_l. apply IH.
    + rewrite Hm, bind_ret_l. apply IH.
Qed.

Lemma filter_applicable_nil `{Platform} (sources : list InstructionSource) :
  List.filter (applicable []) sources = [].
Proof.
  induction sources as [|s ss IH]; [done |].
  cbn [List.filter]. unfold applicable at 1. cbn [existsb]. by rewrite andb_false_r.
Qed.

Lemma syncFolders_all_matching `{Platform} (folders : list WorkspaceFolder)
    (sources : list InstructionSource) (showNotifications : bool) (session : nat)
    (w : World) :
  syncFolders folders sources showNotifications session w
  = syncAllMatching folders sources showNotifications session w.
Proof.
  revert w. induction folders as [|workspaceFolder rest IH]; intros w; [done |].
  cbn [syncFolders syncAllMatching].
  unfold detectWorkspaceLanguage. rewrite !bind_assoc. apply bind_ext. intros w0 w'.
  rewrite !bind_ret_l.
  pose proof (detected_languages_named w0 workspaceFolder) as Hnamed.
  destruct (detect_languages w0 workspaceFolder languagePatterns) as [|l ls] eqn:Hd.
  - rewrite filter_applicable_nil. cbn [syncEach]. rewrite !bind_ret_l. apply IH.
  - rewrite !bind_run, (syncSources_all_matching _ _ _ _ _ _ Hnamed).
    destruct (result _); [| done]. by rewrite IH.
Qed.

Lemma applicable_spec `{Platform} (detectedLanguages : list string)
    (source : InstructionSource) :
  applicable detectedLanguages source = true <->
  enabled source <> Some (JBool false) /\
  exists lang, In lang detectedLanguages /\
               toLowerCase lang = toLowerCase (language source).
Proof.
  unfold applicable, disabled. rewrite andb_true_iff, negb_true_iff, existsb_exists.
  split.
  - intros [Hen (lang & Hin & Heq)]. split.
    + intros Heq'. by rewrite Heq' in Hen.
    + exists lang. split; [done | by apply String.eqb_eq].
  - intros [Hen (lang & Hin & Heq)]. split.
    + destruct (enabled source) as [[| [] | | | |]|]; done.
    + exists lang. split; [done | by apply String.eqb_eq].
Qed.

(** ** The first revision of the orchestrator *)

(** That revision synced the first applicable source only. *)
Lemma legacy_syncs_first_match_only `{Platform} (workspaceFolder : WorkspaceFolder)
    (detectedLanguages : list string) (sources : list InstructionSource)
    (showNotifications : bool) (w : World) :
  Forall (fun l => l <> "") detectedLanguages ->
  Legacy.syncSources workspaceFolder detectedLanguages sources showNotifications w
  = match List.find (applicable detectedLanguages) sources with
    | Some source =>
        (Legacy.syncInstructions workspaceFolder source showNotifications true;;; ret tt) w
    | None => ret tt w
    end.
Proof.
  intros Hnamed. induction sources as [|source rest IH]; [done |].
  cbn [Legacy.syncSources List.find].
  pose proof (matchingLanguage_applicable detectedLanguages source Hnamed) as Hm.
  destruct (disabled source) eqn:Hd.
  - assert (applicable detectedLanguages source = false) as ->
      by (unfold applicable; by rewrite Hd).
    exact IH.
  - destruct (matchingLanguage detectedLanguages source) as [lang|].
    + by destruct Hm as [-> ->].
    + by rewrite Hm.
Qed.

Lemma find_applicable_nil `{Platform} (sources : list InstructionSource) :
  List.find (applicable []) sources = None.
Proof.
  induction sources as [|s ss IH]; [done |].
  cbn [List.find]. unfold applicable at 1. cbn [existsb]. by rewrite andb_false_r.
Qed.

Lemma bind_cong {A B} (m m' : M A) (k k' : A -> M B) (w : World) :
  m w = m' w -> (forall a w', k a w' = k' a w') -> bind m k w = bind m' k' w.
Proof.
  intros Hm Hk. unfold bind. rewrite Hm.
  destruct (result (m' w)); [by rewrite Hk | done].
Qed.

Lemma legacy_syncFolders_first_matching `{Platform} (folders : list WorkspaceFolder)
    (sources : list InstructionSource) (showNotifications : bool) (w : World) :
  Legacy.syncFolders folders sources showNotifications w
  = Legacy.syncFirstMatching folders sources showNotifications w.
Proof.
  revert w. induction folders as [|workspaceFolder rest IH]; intros w; [done |].
  cbn [Legacy.syncFolders Legacy.syncFirstMatching].
  unfold Legacy.detectWorkspaceLanguage. rewrite !bind_assoc. apply bind_ext. intros w0 w'.
  rewrite !bind_ret_l.
  assert (Forall (fun l => l <> "")
            (detect_languages w0 workspaceFolder Legacy.languagePatterns)) as Hnamed.
  { apply detect_languages_named. unfold Legacy.languagePatterns. simpl.
    by repeat constructor. }
  destruct (detect_languages w0 workspaceFolder Legacy.languagePatterns) as [|l ls] eqn:Hd.
  - rewrite find_applicable_nil, !bind_ret_l. apply IH.
  - apply bind_cong; [| intros _ w1; apply IH].
    rewrite (legacy_syncs_first_match_only _ _ _ _ _ Hnamed).
    by destruct (List.find _ sources).
Qed.

Lemma legacy_performSync_first_matching `{Platform} (showNotifications : bool) (w : World) :
  Legacy.performSync showNotifications w
  = Legacy.performSync_first_matching showNotifications w.
Proof.
  unfold Legacy.performSync, Legacy.performSync_first_matching.
  apply bind_ext. intros w0 w'.
  destruct (workspaceFolders w0) as [[|f fs]|]; try reflexivity.
  apply bind_ext. intros [|s ss] w1; [reflexivity |].
  apply legacy_syncFolders_first_matching.
Qed.

(** C1.  In the current revision [performSync] is [performSync_all_matching]:
    in every run and for every workspace folder, [syncInstructions] is
    called, in list order and in the session of the run, for every source of
    the merged list that is applicable to the languages detected for the
    folder, and a source is applicable exactly when its [enabled] is not
    [false] and its language equals a detected language up to case; the loop
    does not stop at the first such source.  In the first revision
    [performSync] is [Legacy.performSync_first_matching]: for every workspace
    folder, [syncInstructions] is called for the first applicable source of
    the configured list and for no other. *)
Theorem performSync_syncs_every_matching_source `{Platform}
    (showNotifications forceRefresh : bool) (w : World) :
  performSync showNotifications forceRefresh w
    = performSync_all_matching showNotifications forceRefresh w /\
  (forall detectedLanguages sources source,
     In source (List.filter (applicable detectedLanguages) sources) <->
     In source sources /\
     enabled source <> Some (JBool false) /\
     exists lang, In lang detectedLanguages /\
                  toLowerCase lang = toLowerCase (language source)) /\
  Legacy.performSync showNotifications w
    = Legacy.performSync_first_matching showNotifications w.
Proof.
  split; [| split].
  - unfold performSync, performSync_all_matching.
    apply bind_ext. intros w0 w'.
    destruct (workspaceFolders w0) as [[|f fs]|]; try reflexivity.
    apply bind_ext. intros [|s ss] w1; [reflexivity |].
    apply bind_ext. intros session w2. apply syncFolders_all_matching.
  - intros detectedLanguages sources source.
    by rewrite filter_In, applicable_spec.
  - apply legacy_performSync_first_matching.
Qed.

(** In the first revision the second of two matching sources is not synced:
    both sources of the run below are enabled and match the detected
    language, yet the run is the sync of the first alone. It shows one prompt
    and writes the content of the first source; the second answer is left
    unused and the one file of the workspace holds the content of the first
    source.  The current revision syncs both. *)
Lemma legacy_performSync_stops_after_first_match :
  let w := example_world [csharp_general; csharp_testing] "" example_pages ∅
             [Some Yes; Some Yes] ∅ in
  let o := @Legacy.performSync Reference.platform false w in
  detect_languages w example_folder Legacy.languagePatterns = ["C#"] /\
  List.filter (@applicable Reference.platform ["C#"]) (cfg_sources (settings w))
    = [csharp_general; csharp_testing] /\
  o = (@Legacy.syncInstructions Reference.platform example_folder csharp_general false true;;;
       ret tt) w /\
  events o
    = [ EvPrompt "Instruction Sync: Create copilot-instructions.md with c# instructions from remote?"
                 (Some Yes);
        EvWrite "file:///work/app/.github/copilot-instructions.md" "# General" ] /\
  answers (final o) = [Some Yes] /\
  files (final o) !! "file:///work/app/.github/copilot-instructions.md" = Some "# General" /\
  events (@performSync Reference.platform false false w)
    = [ EvPrompt (@confirmation_message Reference.platform example_folder csharp_general None)
                 (Some Yes);
        EvWrite "file:///work/app/.github/copilot-instructions.md" "# General";
        EvPrompt (@confirmation_message Reference.platform example_folder csharp_testing None)
                 (Some Yes);
        EvWrite "file:///work/app/.vscode/testing.md" "# Testing" ].
Proof.
  intros w o. split; [by vm_compute |]. split; [by vm_compute |].
  split; [by vm_compute |]. split; [by vm_compute |]. split; [by vm_compute |].
  split; by vm_compute.
Qed.

Lemma read_only_prompt_free {A} (m : M A) : read_only m -> prompt_free m.
Proof. intros Hm w. by destruct (Hm w) as [-> ->]. Qed.

Lemma prompt_free_bind {A B} (m : M A) (k : A -> M B) :
  prompt_free m -> (forall a, prompt_free (k a)) -> prompt_free (bind m k).
Proof.
  intros Hm Hk w. rewrite bind_run. destruct (Hm w) as [Hs He].
  destruct (result (m w)) as [a|e]; [| done].
  destruct (Hk a (final (m w))) as [Hs' He']. cbn [after final events].
  by rewrite Hs', Hs, no_prompt_app, He, He'.
Qed.

Lemma prompt_free_try_catch {A} (m : M A) (handler : string -> M A) :
  prompt_free m -> (forall e, prompt_free (handler e)) -> prompt_free (try_catch m handler).
Proof.
  intros Hm Hk w. unfold try_catch. destruct (Hm w) as [Hs He].
  destruct (result (m w)) as [a|e]; [done |].
  destruct (Hk e (final (m w))) as [Hs' He']. cbn [final events].
  by rewrite Hs', Hs, no_prompt_app, He, He'.
Qed.

Lemma prompt_free_safe {A} (r : nat) (m : M A) : prompt_free m -> session_safe r m.
Proof.
  intros Hm w. destruct (Hm w) as [Hs He]. unfold confirmed. rewrite Hs.
  split; [done |]. split; [by apply no_yes_to_all_quiet, no_prompt_no_yes_to_all |].
  right. by apply no_prompt_no_yes_to_all.
Qed.

Lemma session_safe_bind {A B} (r : nat) (m : M A) (k : A -> M B) :
  session_safe r m -> (forall a, session_safe r (k a)) -> session_safe r (bind m k).
Proof.
  intros Hm Hk w. rewrite bind_run. destruct (Hm w) as (Hc & Hq & Hy).
  destruct (result (m w)) as [a|e]; [| done].
  destruct (Hk a (final (m w))) as (Hc' & Hq' & Hy'). cbn [after final events].
  split; [| split].
  - intros Hw. destruct (Hc Hw) as [Hw1 He1]. destruct (Hc' Hw1) as [Hw2 He2].
    by rewrite no_prompt_app, He1, He2.
  - destruct Hy as [Hw1 | Hn1].
    + destruct (Hc' Hw1) as [_ He2]. by apply quiet_app_no_prompt.
    + by rewrite quiet_app_no_yes_to_all.
  - destruct Hy' as [Hw2 | Hn2]; [by left |].
    destruct Hy as [Hw1 | Hn1].
    + left. by apply Hc'.
    + right. by rewrite no_yes_to_all_app, Hn1, Hn2.
Qed.

Lemma session_safe_syncInstructions `{Platform}
    (workspaceFolder : WorkspaceFolder) (source : InstructionSource)
    (showNotifications requireConfirmation : bool) (r : nat) :
  session_safe r (syncInstructions workspaceFolder source showNotifications
                                   requireConfirmation (Some r)).
Proof.
  intros w.
  destruct (syncInstructions_any workspaceFolder source showNotifications
                                 requireConfirmation r w) as (Hq & Hy & _).
  split; [| done]. intros Hw.
  destruct (syncInstructions_confirmed workspaceFolder source showNotifications
                                       requireConfirmation r w Hw) as (He & _ & Hs).
  split; [| done]. unfold confirmed in *. by rewrite Hs.
Qed.

Lemma session_safe_syncEach `{Platform} (workspaceFolder : WorkspaceFolder)
    (sources : list InstructionSource) (showNotifications : bool) (r : nat) :
  session_safe r (syncEach workspaceFolder sources showNotifications r).
Proof.
  induction sources as [|source rest IH]; cbn [syncEach].
  - by apply prompt_free_safe, read_only_prompt_free, read_only_ret.
  - apply session_safe_bind; [apply session_safe_syncInstructions | done].
Qed.

Lemma read_only_detectWorkspaceLanguage (workspaceFolder : WorkspaceFolder) :
  read_only (detectWorkspaceLanguage workspaceFolder).
Proof. unfold detectWorkspaceLanguage. repeat read_only_step. Qed.

Lemma session_safe_syncAllMatching `{Platform} (folders : list WorkspaceFolder)
    (sources : list InstructionSource) (showNotifications : bool) (r : nat) :
  session_safe r (syncAllMatching folders sources showNotifications r).
Proof.
  induction folders as [|workspaceFolder rest IH]; cbn [syncAllMatching].
  - by apply prompt_free_safe, read_only_prompt_free, read_only_ret.
  - apply session_safe_bind.
    + apply prompt_free_safe, read_only_prompt_free, read_only_detectWorkspaceLanguage.
    + intros detected. apply session_safe_bind; [apply session_safe_syncEach | done].
Qed.

Lemma prompt_free_fetchRemoteConfig `{Platform} (forceRefresh : bool) :
  prompt_free (fetchRemoteConfig forceRefresh).
Proof.
  unfold fetchRemoteConfig.
  apply prompt_free_bind; [apply read_only_prompt_free, read_only_get_world |].
  intros w0. destruct (String.eqb _ ""); [apply read_only_prompt_free, read_only_ret |].
  cbv zeta.
  destruct (match remoteConfigCache w0 with Some _ => _ | None => _ end);
    [apply read_only_prompt_free, read_only_ret |].
  apply prompt_free_try_catch.
  - apply prompt_free_bind; [apply read_only_prompt_free, read_only_fetchContent |].
    intros content. destruct (JSON_parse content) as [parsed|];
      [| apply read_only_prompt_free, read_only_throw].
    destruct (validateRemoteConfig parsed) as [remoteConf|];
      [| apply read_only_prompt_free, read_only_throw].
    intros w1. split; reflexivity.
  - intros e. apply prompt_free_bind; [intros w1; split; reflexivity |].
    intros _. apply prompt_free_bind; [apply read_only_prompt_free, read_only_get_world |].
    intros w1. apply read_only_prompt_free, read_only_ret.
Qed.

Lemma read_only_or_throw {A} (a : option A) : read_only (or_throw a).
Proof. by destruct a. Qed.

Lemma prompt_free_getInstructionSources `{Platform} (forceRefresh : bool) :
  prompt_free (getInstructionSources forceRefresh).
Proof.
  unfold getInstructionSources, getLocalInstructionSources.
  apply prompt_free_bind.
  - apply read_only_prompt_free. repeat read_only_step.
  - intros localSources. apply prompt_free_bind; [apply prompt_free_fetchRemoteConfig |].
    intros remoteConfig. apply read_only_prompt_free, read_only_or_throw.
Qed.

Lemma new_session_run (w : World) :
  new_session w
  = {| result := Ok (fresh (dom (sessions w)));
       final := set_sessions (<[fresh (dom (sessions w)) := {| confirmAll := false |}]>
                                (sessions w)) w;
       events := [] |}.
Proof. reflexivity. Qed.

Lemma when_quiet (b : bool) (e : Event) (w : World) :
  is_prompt e = false -> no_prompt (events (when b (emit e) w)) = true.
Proof. intros He. destruct b; cbn; [by rewrite He | done]. Qed.

Lemma session_safe_syncFolders `{Platform} (folders : list WorkspaceFolder)
    (sources : list InstructionSource) (showNotifications : bool) (r : nat) :
  session_safe r (syncFolders folders sources showNotifications r).
Proof.
  intros w. rewrite syncFolders_all_matching. apply session_safe_syncAllMatching.
Qed.

Lemma performSync_quiet `{Platform} (showNotifications forceRefresh : bool) (w : World) :
  quiet_after_yes_to_all (events (performSync showNotifications forceRefresh w)) = true.
Proof.
  unfold performSync.
  rewrite (bind_read_only _ _ w read_only_get_world).
  change (result (get_world w)) with (Ok w). cbv beta iota.
  assert (forall m, quiet_after_yes_to_all
                      (events (when showNotifications (showWarningMessage m) w)) = true)
    as Hwarn by (intros m; by apply no_yes_to_all_quiet, no_prompt_no_yes_to_all, when_quiet).
  destruct (workspaceFolders w) as [[|f fs]|]; [apply Hwarn | | apply Hwarn].
  rewrite bind_run.
  destruct (prompt_free_getInstructionSources forceRefresh w) as [_ He].
  destruct (result (getInstructionSources forceRefresh w)) as [[|s ss]|e].
  - unfold after. cbn [events].
    rewrite quiet_app_no_yes_to_all by by apply no_prompt_no_yes_to_all.
    by apply no_yes_to_all_quiet, no_prompt_no_yes_to_all, when_quiet.
  - unfold after. cbn [events].
    rewrite quiet_app_no_yes_to_all by by apply no_prompt_no_yes_to_all.
    rewrite bind_run, new_session_run. cbn [result final events]. rewrite after_nil.
    apply session_safe_syncFolders.
  - cbn [events]. by apply no_yes_to_all_quiet, no_prompt_no_yes_to_all.
Qed.

Lemma new_session_unconfirmed (w : World) :
  match result (new_session w) with
  | Ok r => sessions w !! r = None /\ confirmed (final (new_session w)) (Some r) = false
  | Throw _ => False
  end.
Proof.
  rewrite new_session_run. cbn [result final]. unfold confirmed.
  cbn [sessions set_sessions]. rewrite lookup_insert_eq. split; [| done].
  apply not_elem_of_dom, is_fresh.
Qed.

(** C4.  A run of [performSync] opens one session, with [confirmAll]
    false.  In a session [r]: a call to [syncInstructions] whose prompt is
    answered "Yes to All" leaves [confirmAll] set; a call made when
    [confirmAll] is set shows no prompt, takes no answer, leaves [confirmAll]
    set and, when [getDestinationPath] resolves the source to a destination
    whose folder is a string and the fetched content differs from the local
    content, calls the write with the fetched content (and returns [true] with
    the file updated when the write is not refused); the loops of the run,
    entered with [confirmAll] set, show no prompt at all; and in the trace of
    a whole run no prompt comes after a prompt answered "Yes to All". *)
Theorem yes_to_all_skips_later_prompts `{Platform}
    (workspaceFolder : WorkspaceFolder) (source : InstructionSource)
    (showNotifications requireConfirmation : bool) (r : nat) (w : World) :
  let o := syncInstructions workspaceFolder source showNotifications requireConfirmation
                            (Some r) w in
  (forall r', result (new_session w) = Ok r' ->
              confirmed (final (new_session w)) (Some r') = false) /\
  (forall message,
     In (EvPrompt message (Some YesToAll)) (events o) ->
     confirmed (final o) (Some r) = true) /\
  (confirmed w (Some r) = true ->
     no_prompt (events o) = true /\
     answers (final o) = answers w /\
     confirmed (final o) (Some r) = true /\
     (forall remoteContent dest segment,
        let uri := Uri_joinPath (wf_uri workspaceFolder) (fullPath dest) in
        result (fetchContent (url source) w) = Ok remoteContent ->
        getDestinationPath (Some source) = Some dest ->
        folder dest = JString segment ->
        differs (files w !! uri) remoteContent = true ->
        In (EvWrite uri remoteContent) (events o) /\
        (write_denied w uri = false ->
         result o = Ok true /\ files (final o) = <[uri := remoteContent]> (files w))) /\
     (forall folders sources,
        no_prompt (events (syncFolders folders sources showNotifications r w)) = true)) /\
  (forall forceRefresh,
     quiet_after_yes_to_all (events (performSync showNotifications forceRefresh w)) = true).
Proof.
  cbv zeta. split; [| split; [| split]].
  - intros r' Hr'. pose proof (new_session_unconfirmed w) as Hnew.
    rewrite Hr' in Hnew. by destruct Hnew.
  - apply syncInstructions_any.
  - intros Hc.
    destruct (syncInstructions_confirmed workspaceFolder source showNotifications
                                         requireConfirmation r w Hc) as (He & Ha & Hs).
    split; [done |]. split; [done |].
    split; [unfold confirmed in *; by rewrite Hs |]. split.
    + intros remoteContent dest segment Hfetch Hdest Hfolder Hdiff.
      rewrite getDestinationPath_resolved in Hdest.
      destruct (resolvable source) eqn:Hr; [| done]. injection Hdest as <-.
      fold (destination_uri workspaceFolder source) in Hdiff |- *.
      rewrite syncInstructions_run. unfold sync_outcome.
      rewrite Hfetch, Hr. cbn [negb].
      rewrite Hdiff, (prompts_confirmed _ _ _ Hc).
      by apply write_outcome_writes with segment.
    + intros folders sources.
      by destruct (session_safe_syncFolders folders sources showNotifications r w)
        as (Hsafe & _); destruct (Hsafe Hc).
  - intros forceRefresh. apply performSync_quiet.
Qed.

(** ** Remote configuration *)





(** C3.  With no remote configuration and the two local sources
    [csharp_old] and [csharp_new], which share the key
    ["c#::.github/copilot-instructions.md"], [getInstructionSources] returns
    both: the merged list has two entries with one key. *)
Theorem merged_list_keeps_shared_key :
  result (@getInstructionSources Reference.platform false
            (example_world [csharp_old; csharp_new] "" [] ∅ [] ∅))
    = Ok [csharp_old; csharp_new] /\
  @sourceKey Reference.platform csharp_old = Some "c#::.github/copilot-instructions.md" /\
  @sourceKey Reference.platform csharp_new = Some "c#::.github/copilot-instructions.md" /\
  csharp_old <> csharp_new.
Proof.
  split; [by vm_compute | split; [by vm_compute | split; [by vm_compute | discriminate]]].
Qed.

(** ** Runs on the example worlds *)

(** An error page stored in a local file is returned as content, though the
    validator rejects it. *)
Lemma local_error_page_is_returned :
  let w := example_world [local_source] "" [] shared_drive [] ∅ in
  @fetchContent Reference.platform "/shared/instructions.md" w
    = {| result := Ok error_page; final := w; events := [] |} /\
  valid (@isValidInstructionContent Reference.platform error_page "/shared/instructions.md")
    = false.
Proof.
  intros w. split; [| reflexivity].
  apply (@local_content_is_not_validated Reference.platform
           "/shared/instructions.md" error_page w); [reflexivity | by vm_compute].
Defined.

(** And it is written to the destination by a sync. *)
Lemma local_error_page_is_synced :
  events (@performSync Reference.platform false false
            (example_world [local_source] "" [] shared_drive [Some Yes] ∅))
  = [ EvPrompt (@confirmation_message Reference.platform example_folder local_source None) (Some Yes);
      EvWrite "file:///work/app/.github/copilot-instructions.md" error_page ].
Proof. by vm_compute. Qed.

(** Both C# sources are synced for the one workspace folder, the first
    after a "Yes to All" and the second without a prompt. *)
Lemma performSync_two_sources :
  events (@performSync Reference.platform false false
            (example_world [csharp_general; csharp_testing] "" example_pages ∅
                           [Some YesToAll] ∅))
  = [ EvPrompt (@confirmation_message Reference.platform example_folder csharp_general None) (Some YesToAll);
      EvWrite "file:///work/app/.github/copilot-instructions.md" "# General";
      EvWrite "file:///work/app/.vscode/testing.md" "# Testing" ].
Proof. by vm_compute. Qed.

Lemma confirmed_session_writes_without_prompt :
  let w := example_world [csharp_general; csharp_testing] "" example_pages ∅
             [Some YesToAll; Some No] fresh_session in
  let o1 := @syncInstructions Reference.platform example_folder csharp_general
              false true (Some 0) w in
  let o2 := @syncInstructions Reference.platform example_folder csharp_testing
              false true (Some 0) (final o1) in
  confirmed w (Some 0) = false /\
  confirmed (final o1) (Some 0) = true /\
  no_prompt (events o2) = true /\
  answers (final o2) = [Some No] /\
  In (EvWrite "file:///work/app/.vscode/testing.md" "# Testing") (events o2) /\
  result o2 = Ok true.
Proof.
  intros w o1 o2. split; [reflexivity |].
  destruct (@yes_to_all_skips_later_prompts Reference.platform example_folder
              csharp_general false true 0 w) as (_ & Hyes & _).
  pose proof (Hyes (@confirmation_message Reference.platform example_folder csharp_general None)
                   ltac:(vm_compute; by left)) as Hc.
  destruct (@yes_to_all_skips_later_prompts Reference.platform example_folder
              csharp_testing false true 0 (final o1)) as (_ & _ & Hconfirmed & _).
  destruct (Hconfirmed Hc) as (Hquiet & Hanswers & _ & Hwrite & _).
  destruct (Hwrite "# Testing"
              {| folder := JString ".vscode"; file := JString "testing.md";
                 fullPath := ".vscode/testing.md" |} ".vscode"
              ltac:(by vm_compute) eq_refl eq_refl ltac:(by vm_compute))
    as [Hin Hdone].
  destruct (Hdone eq_refl) as [Hresult _].
  split; [exact Hc |]. split; [exact Hquiet |].
  split; [exact (eq_trans Hanswers ltac:(by vm_compute)) |].
  split; [exact Hin | exact Hresult].
Defined.

(** When a member of the destination cannot be printed, [getDestinationPath]
    throws inside the [try] of [syncInstructions]: the call reports the
    TypeError, returns [false] and writes nothing, whatever the session. *)
Lemma unprintable_destination_is_reported `{Platform}
    (workspaceFolder : WorkspaceFolder) (source : InstructionSource)
    (showNotifications requireConfirmation : bool) (session : option nat) (w : World)
    (remoteContent : string) :
  result (fetchContent (url source) w) = Ok remoteContent ->
  getDestinationPath (Some source) = None ->
  syncInstructions workspaceFolder source showNotifications requireConfirmation session w
  = {| result := Ok false; final := w;
       events := [EvError (failure_message workspaceFolder source TypeError_message)] |}.
Proof.
  intros Hfetch Hdest. rewrite getDestinationPath_resolved in Hdest.
  rewrite syncInstructions_run. unfold sync_outcome. rewrite Hfetch.
  by destruct (resolvable source).
Qed.

Lemma unprintable_destination_example :
  let source := {| language := "C#"; url := "https://example.com/general.md";
                   enabled := None; destinationFolder := None;
                   destinationFile :=
                     Some (JObject [("toString",
                                     JNumber {| num_truthy := true; num_text := "1" |})]) |} in
  let w := example_world [source] "" example_pages ∅ [Some Yes] confirmed_session in
  @syncInstructions Reference.platform example_folder source true true (Some 0) w
  = {| result := Ok false; final := w;
       events := [EvError (sq "Instruction Sync: Failed to sync instructions for C# in 'app': Cannot convert object to primitive value")] |}.
Proof.
  intros source w.
  apply (@unprintable_destination_is_reported Reference.platform example_folder source
           true true (Some 0) w "# General"); [by vm_compute | reflexivity].
Qed.

Lemma declined_confirmation_example :
  let w := example_world [csharp_general] "" example_pages ∅ [Some No] fresh_session in
  let o := @syncInstructions Reference.platform example_folder csharp_general
             true true (Some 0) w in
  result o = Ok false /\
  files (final o) = files w /\
  sessions (final o) = sessions w /\
  settings (final o) = settings w /\
  events o = [EvPrompt (@confirmation_message Reference.platform example_folder csharp_general None) (Some No)].
Proof.
  intros w o.
  apply (@declined_confirmation_skips Reference.platform example_folder csharp_general
           true true (Some 0) w
           (@confirmation_message Reference.platform example_folder csharp_general None) (Some No)).
  - vm_compute. by left.
  - by left.
Defined.

(** ** The unit tests of the repository, on the reference platform *)

Section UnitTests.
#[local] Existing Instance Reference.platform.

Lemma test_getDestinationPath :
  fullPath <$> getDestinationPath None = Some ".github/copilot-instructions.md" /\
  fullPath <$> getDestinationPath
              (Some {| language := "AL"; url := "https://example.com/file.md";
                       enabled := None;
                       destinationFolder := Some (JString ".vscode");
                       destinationFile := None |})
    = Some ".vscode/copilot-instructions.md" /\
  fullPath <$> getDestinationPath
              (Some {| language := "AL"; url := "https://example.com/file.md";
                       enabled := None;
                       destinationFolder := None;
                       destinationFile := Some (JString "al-instructions.md") |})
    = Some ".github/al-instructions.md" /\
  fullPath <$> getDestinationPath
              (Some {| language := "AL"; url := "https://example.com/file.md";
                       enabled := None;
                       destinationFolder := Some (JString ".vscode");
                       destinationFile := Some (JString "custom.md") |})
    = Some ".vscode/custom.md".
Proof. repeat split. Qed.

Lemma test_isGitHubUrl :
  isGitHubUrl "https://github.com/org/repo"
    = {| isGitHub := true; isEnterprise := false |} /\
  isGitHubUrl "https://raw.githubusercontent.com/org/repo/main/file.md"
    = {| isGitHub := true; isEnterprise := false |} /\
  isGitHubUrl "https://mycompany.ghe.com/org/repo"
    = {| isGitHub := true; isEnterprise := true |} /\
  isGitHubUrl "https://mycompany.github.com/org/repo"
    = {| isGitHub := true; isEnterprise := true |} /\
  isGitHubUrl "https://example.com/file.md"
    = {| isGitHub := false; isEnterprise := false |} /\
  isGitHubUrl "not a url" = {| isGitHub := false; isEnterprise := false |}.
Proof. repeat split. Qed.

Lemma test_isAzureDevOpsUrl :
  map isAzureDevOpsUrl
    [ "https://dev.azure.com/org/project/_git/repo";
      "https://myorg.visualstudio.com/project/_git/repo";
      "https://myserver.com/_apis/git/repositories";
      "https://myserver.com/project/_git/repo";
      "https://example.com/file.md";
      "not a url" ]
  = [true; true; true; true; false; false].
Proof. reflexivity. Qed.

Lemma test_isLocalPath :
  map isLocalPath
    [ "file:///C:/folder/file.md"; "C:\folder\file.md"; "C:/folder/file.md";
      "/home/user/file.md"; "https://example.com/file.md"; "relative/path/file.md";
      "//server/share" ]
  = [true; true; true; true; false; false; false].
Proof. reflexivity. Qed.

Lemma test_isValidInstructionContent :
  map (fun content => valid (isValidInstructionContent content "https://example.com"))
    [ "# Instructions";
      "";
      "     ";
      "<!DOCTYPE html><html><head><title>404 Not Found</title></head><body></body></html>";
      "<html><head><title>Some Page</title></head><body>Content</body></html>";
      sq "{'message': 'Not Found', 'documentation_url': 'https://docs.github.com'}";
      sq "{'key': 'value', 'data': [1, 2, 3]}";
      "{this is not json but starts with brace}" ]
  = [true; false; false; false; false; false; true; true].
Proof. reflexivity. Qed.

Lemma test_merge :
  merge_general [{| language := "C#"; url := "https://remote.com/csharp.md"; enabled := None;
                    destinationFolder := None; destinationFile := None |}]
                [{| language := "C#"; url := "https://local.com/csharp.md"; enabled := None;
                    destinationFolder := None; destinationFile := None |}]
    = Some [{| language := "C#"; url := "https://local.com/csharp.md"; enabled := None;
               destinationFolder := None; destinationFile := None |}] /\
  length <$> (merge_general
            [{| language := "C#"; url := "https://remote.com/csharp.md"; enabled := None;
                destinationFolder := None;
                destinationFile := Some (JString "remote-instructions.md") |}]
            [{| language := "C#"; url := "https://local.com/csharp.md"; enabled := None;
                destinationFolder := None;
                destinationFile := Some (JString "local-instructions.md") |}]) = Some 2 /\
  merge_general [{| language := "TypeScript"; url := "https://remote.com/ts.md";
                    enabled := None; destinationFolder := None; destinationFile := None |}]
                [{| language := "typescript"; url := "https://local.com/ts.md";
                    enabled := None; destinationFolder := None; destinationFile := None |}]
    = Some [{| language := "typescript"; url := "https://local.com/ts.md";
               enabled := None; destinationFolder := None; destinationFile := None |}].
Proof. repeat split. Qed.

End UnitTests.

(** * Further properties *)

(** ** Local paths and the validator *)

Lemma startsWith_cons (s : string) (c : ascii) (p : string) :
  startsWith s (String c p) = true ->
  exists s', s = String c s' /\ startsWith s' p = true.
Proof.
  destruct s as [|d s]; simpl; [done |].
  destruct (Ascii.eqb_spec c d) as [-> | ?]; [| done]. by exists s.
Qed.

(** X1.  A source that starts with [http://], [https://] or [//] is never taken
    for a local path: it is fetched from the network, not read from a file. *)
Theorem web_urls_are_not_local (source : string) :
  startsWith source "http://" = true \/ startsWith source "https://" = true
  \/ startsWith source "//" = true ->
  isLocalPath source = false.
Proof.
  intros [Hs | [Hs | Hs]].
  - apply startsWith_cons in Hs as (s1 & -> & Hs).
    by apply startsWith_cons in Hs as (s2 & -> & Hs).
  - apply startsWith_cons in Hs as (s1 & -> & Hs).
    by apply startsWith_cons in Hs as (s2 & -> & Hs).
  - apply startsWith_cons in Hs as (s1 & -> & Hs).
    apply startsWith_cons in Hs as (s2 & -> & Hs). by destruct s2.
Qed.

Lemma web_urls_are_not_local_example :
  isLocalPath "https://raw.githubusercontent.com/org/standards/main/csharp.md" = false.
Proof. apply web_urls_are_not_local. right; left. reflexivity. Defined.

Lemma startsWith_shorter (t : string) (c : ascii) (p : string) :
  startsWith t (String c "") = false -> startsWith t (String c p) = false.
Proof.
  destruct t as [|d t]; simpl; [done |].
  destruct (Ascii.eqb c d); [| done]. by rewrite startsWith_nil.
Qed.

(** X2.  Content that is not blank and whose trimmed, lowercased form starts
    with neither [<] nor a brace is accepted, whatever words it contains: the
    error markers are looked for in HTML documents only. *)
Theorem markdown_is_accepted `{Platform} (content source : string) :
  blank content = false ->
  startsWith (trim (toLowerCase content)) "<" = false ->
  startsWith (trim (toLowerCase content)) "{" = false ->
  isValidInstructionContent content source = {| valid := true; reason := None |}.
Proof.
  intros Hb Hlt Hbrace. unfold isValidInstructionContent.
  fold (blank content). rewrite Hb, Hbrace.
  by rewrite (startsWith_shorter _ "<" "!doctype" Hlt), (startsWith_shorter _ "<" "html" Hlt).
Qed.

Lemma markdown_is_accepted_example :
  @isValidInstructionContent Reference.platform
    "# Access denied? Page not found? <title>404</title> and unauthorized" "https://example.com"
  = {| valid := true; reason := None |}.
Proof. by apply (@markdown_is_accepted Reference.platform). Defined.

(** ** Language detection *)

Lemma any_pattern_matches_spec (w : World) (workspaceFolder : WorkspaceFolder)
    (patterns : list string) :
  any_pattern_matches w workspaceFolder patterns = true <->
  exists pattern, In pattern patterns /\ findFiles w workspaceFolder pattern = true.
Proof.
  induction patterns as [|p ps IH]; simpl.
  - split; [done | by intros (? & [] & _)].
  - destruct (findFiles w workspaceFolder p) eqn:Hp.
    + split; [| done]. intros _. exists p. split; [by left | done].
    + rewrite IH. split.
      * intros (q & Hq & Hf). exists q. split; [by right | done].
      * intros (q & [<- | Hq] & Hf); [congruence |]. by exists q.
Qed.

Lemma detect_languages_In (w : World) (workspaceFolder : WorkspaceFolder)
    (table : list (string * list string)) (language : string) :
  In language (detect_languages w workspaceFolder table) <->
  exists patterns, In (language, patterns) table /\
                   any_pattern_matches w workspaceFolder patterns = true.
Proof.
  induction table as [|[l ps] table IH]; simpl.
  - split; [done | by intros (? & [] & _)].
  - destruct (any_pattern_matches w workspaceFolder ps) eqn:Hps; simpl; rewrite IH.
    + split.
      * intros [<- | (qs & Hin & Hq)]; [exists ps | exists qs]; split; auto.
      * intros (qs & [[= <- <-] | Hin] & Hq); [by left | right; by exists qs].
    + split.
      * intros (qs & Hin & Hq). exists qs. split; [by right | done].
      * intros (qs & [[= <- <-] | Hin] & Hq); [congruence | by exists qs].
Qed.

Lemma detect_languages_NoDup (w : World) (workspaceFolder : WorkspaceFolder)
    (table : list (string * list string)) :
  List.NoDup (map fst table) -> List.NoDup (detect_languages w workspaceFolder table).
Proof.
  induction table as [|[l ps] table IH]; simpl; [constructor |].
  intros [Hl Ht]%List.NoDup_cons_iff.
  destruct (any_pattern_matches w workspaceFolder ps); [| by apply IH].
  constructor; [| by apply IH].
  intros (qs & Hin & _)%detect_languages_In. apply Hl.
  change l with (fst (l, qs)). by apply in_map.
Qed.

(** X3.  [detectWorkspaceLanguage] only reads; a language is detected exactly
    when one of the patterns the table lists for it has a file in the folder,
    and no language is reported twice. *)
Theorem detected_languages_characterised (workspaceFolder : WorkspaceFolder) (w : World) :
  exists detected,
    detectWorkspaceLanguage workspaceFolder w
      = {| result := Ok detected; final := w; events := [] |} /\
    List.NoDup detected /\
    forall language,
      In language detected <->
      exists patterns pattern,
        In (language, patterns) languagePatterns /\ In pattern patterns /\
        findFiles w workspaceFolder pattern = true.
Proof.
  exists (detect_languages w workspaceFolder languagePatterns).
  split; [reflexivity |]. split.
  - apply detect_languages_NoDup. unfold languagePatterns. cbn [map fst].
    apply NoDup_ListNoDup, (bool_decide_unpack _). by vm_compute.
  - intros language. rewrite detect_languages_In. split.
    + intros (ps & Hin & (p & Hp & Hf)%any_pattern_matches_spec). by exists ps, p.
    + intros (ps & p & Hin & Hp & Hf). exists ps. split; [done |].
      apply any_pattern_matches_spec. by exists p.
Qed.

(** ** Credentials and the content fetcher *)

Lemma getGitHubToken_run (isEnterprise : bool) (w : World) :
  getGitHubToken isEnterprise w
  = {| result := Ok (github_token (getSession w) isEnterprise); final := w; events := [] |}.
Proof.
  unfold getGitHubToken, github_token.
  cbv beta iota zeta delta
    [try_catch bind authentication_getSession get_world ret throw result final events app].
  destruct isEnterprise.
  - destruct (getSession w "github-enterprise" ["repo"]
                {| createIfNone := false; silent := true |}); try reflexivity.
    by destruct (getSession w "github-enterprise" ["repo"]
                   {| createIfNone := false; silent := false |}).
  - destruct (getSession w "github" ["repo"]
                {| createIfNone := false; silent := true |}); try reflexivity.
    by destruct (getSession w "github" ["repo"]
                   {| createIfNone := false; silent := false |}).
Qed.

Lemma getAzureDevOpsToken_run (w : World) :
  getAzureDevOpsToken w
  = {| result := Ok (ado_token (getSession w)); final := w; events := [] |}.
Proof.
  unfold getAzureDevOpsToken, ado_token.
  cbv beta iota zeta delta
    [try_catch bind authentication_getSession get_world ret throw result final events app
     usable_token].
  destruct (getSession w "microsoft" [ADO_RESOURCE_SCOPE]
              {| createIfNone := false; silent := true |}) as [m | | t]; try reflexivity.
  - by destruct (getSession w "microsoft" [ADO_RESOURCE_SCOPE]
                   {| createIfNone := true; silent := false |}) as [m | | t'];
      try destruct (String.eqb t' "").
  - destruct (String.eqb t ""); [| reflexivity].
    by destruct (getSession w "microsoft" [ADO_RESOURCE_SCOPE]
                   {| createIfNone := true; silent := false |}) as [m | | t'];
      try destruct (String.eqb t' "").
Qed.

Lemma fetchContent_run `{Platform} (source : string) (w : World) :
  fetchContent source w = {| result := fetch_result source w; final := w; events := [] |}.
Proof.
  unfold fetchContent, fetch_result. destruct (isLocalPath source).
  - try_reads (read_only_readFile (localPathToUri source)).
    unfold readFile, bind, get_world, ret, throw. cbn [result final events].
    by destruct (files w !! localPathToUri source).
  - cbv zeta. bind_reads (read_only_headers source).
    assert (result ((if isGitHub (isGitHubUrl source) then
                       token <- getGitHubToken (isEnterprise (isGitHubUrl source));;
                       ret (("Accept", "application/vnd.github.v3.raw") :: bearer token)
                     else if isAzureDevOpsUrl source then
                       token <- getAzureDevOpsToken;;
                       ret (("Accept", "text/plain") :: bearer token)
                     else ret []) w)
            = Ok (request_headers (getSession w) source)) as ->.
    { unfold request_headers. destruct (isGitHub (isGitHubUrl source)).
      - by rewrite bind_run, getGitHubToken_run.
      - destruct (isAzureDevOpsUrl source); [| reflexivity].
        by rewrite bind_run, getAzureDevOpsToken_run. }
    bind_reads (read_only_fetch source (request_headers (getSession w) source)).
    unfold fetch at 1, bind at 1, get_world at 1. cbn [result final events].
    unfold response_result.
    destruct (http w source (request_headers (getSession w) source))
      as [message | ok status statusText content]; [reflexivity |].
    cbn [ret result]. destruct ok; [| reflexivity]. cbn [negb].
    by destruct (valid (isValidInstructionContent content source)).
Qed.

(** X4.  To a remote source that is neither a GitHub nor an Azure DevOps URL the
    request goes without any header, whatever sessions the editor holds: no
    token is sent to such a host. *)
Theorem no_credentials_for_other_hosts `{Platform} (source : string) (w : World) :
  isLocalPath source = false ->
  isGitHub (isGitHubUrl source) = false ->
  isAzureDevOpsUrl source = false ->
  fetchContent source w
  = {| result := response_result source (http w source []); final := w; events := [] |}.
Proof.
  intros Hlocal Hgh Hado. rewrite fetchContent_run. unfold fetch_result, request_headers.
  by rewrite Hlocal, Hgh, Hado.
Qed.

Lemma no_credentials_for_other_hosts_example :
  let w := echo_world signed_in in
  @fetchContent Reference.platform "https://example.com/general.md" w
  = {| result := Ok "# Headers"; final := w; events := [] |}.
Proof.
  intros w.
  apply (@no_credentials_for_other_hosts Reference.platform "https://example.com/general.md" w);
    by vm_compute.
Defined.



(** X6.  A GitHub URL is treated as such even when it also looks like an Azure
    DevOps URL: the GitHub token is the one that is sent. *)
Theorem github_wins_over_azure_devops `{Platform} (source token : string) (w : World) :
  isLocalPath source = false ->
  isGitHub (isGitHubUrl source) = true ->
  github_token (getSession w) (isEnterprise (isGitHubUrl source)) = Some token ->
  token <> "" ->
  fetchContent source w
  = {| result := response_result source
                   (http w source [("Accept", "application/vnd.github.v3.raw");
                                   ("Authorization", "Bearer " +:+ token)]);
       final := w; events := [] |}.
Proof.
  intros Hlocal Hgh Htoken Hne. rewrite fetchContent_run. unfold fetch_result, request_headers.
  rewrite Hlocal, Hgh, Htoken. unfold bearer, usable_token.
  by destruct (String.eqb_spec token "").
Qed.

Lemma github_wins_over_azure_devops_example :
  let w := echo_world signed_in in
  @isAzureDevOpsUrl Reference.platform "https://github.com/org/_git/repo/csharp.md" = true /\
  @fetchContent Reference.platform "https://github.com/org/_git/repo/csharp.md" w
  = {| result := Ok "# Headers; Accept: application/vnd.github.v3.raw; Authorization: Bearer gh-token";
       final := w; events := [] |}.
Proof.
  intros w. split; [by vm_compute |].
  apply (@github_wins_over_azure_devops Reference.platform
           "https://github.com/org/_git/repo/csharp.md" "gh-token" w); by vm_compute.
Defined.

(** ** One call of [syncInstructions] *)

Lemma write_outcome_cases `{Platform}
    (workspaceFolder : WorkspaceFolder) (source : InstructionSource)
    (showNotifications : bool) (remoteContent : string) (w1 : World) :
  let o := write_outcome workspaceFolder source showNotifications remoteContent w1 in
  let uri := destination_uri workspaceFolder source in
  (result o = Ok true /\
   final o = set_files (<[uri := remoteContent]> (files w1)) w1 /\
   events o = EvWrite uri remoteContent
              :: notice showNotifications (updated_message workspaceFolder source)) \/
  (result o = Ok false /\ final o = w1 /\
   exists e, events o = [EvWrite uri remoteContent;
                         EvError (failure_message workspaceFolder source e)]
             \/ events o = [EvError (failure_message workspaceFolder source e)]).
Proof.
  unfold write_outcome. rewrite writeLocalInstructions_run.
  destruct (resolvable source);
    [| right; split; [done | split; [done | eexists; by right]]].
  destruct (folder (destination_of source));
    cbn [result final events app]; try (right; split; [done | split; [done | eexists; by right]]).
  cbv zeta. destruct (write_denied w1 _); cbn [result final events app].
  - right. split; [done |]. split; [done |]. eexists; by left.
  - by left.
Qed.

(** X7.  [syncInstructions] never throws; when the fetch fails (network error,
    bad status, rejected content, unreadable file) nothing changes and one
    error message is shown; and its result tells whether the file was written:
    with [false] the files are as before, with [true] the destination holds
    the fetched content and no other file has changed. *)
Theorem sync_result_tells_what_was_written `{Platform}
    (workspaceFolder : WorkspaceFolder) (source : InstructionSource)
    (showNotifications requireConfirmation : bool) (session : option nat) (w : World) :
  let o := syncInstructions workspaceFolder source showNotifications requireConfirmation
                            session w in
  let uri := destination_uri workspaceFolder source in
  (result o = Ok true \/ result o = Ok false) /\
  (forall e, result (fetchContent (url source) w) = Throw e ->
             o = {| result := Ok false; final := w;
                    events := [EvError (failure_message workspaceFolder source e)] |}) /\
  (result o = Ok false -> files (final o) = files w) /\
  (result o = Ok true ->
   exists remoteContent,
     result (fetchContent (url source) w) = Ok remoteContent /\
     files (final o) = <[uri := remoteContent]> (files w)).
Proof.
  cbv zeta. rewrite syncInstructions_run. unfold sync_outcome.
  destruct (result (fetchContent (url source) w)) as [remoteContent|e].
  2: { split; [by right |]. split; [by intros ? [= ->] |]. by split. }
  resolve_source.
  2: { split; [by right |]. split; [done |]. by split. }
  assert (forall w1, files w1 = files w ->
            let o := write_outcome workspaceFolder source showNotifications remoteContent w1 in
            (result o = Ok true \/ result o = Ok false) /\
            (result o = Ok false -> files (final o) = files w) /\
            (result o = Ok true ->
             files (final o)
             = <[destination_uri workspaceFolder source := remoteContent]> (files w)))
    as Hwrite.
  { intros w1 Hw1. cbv zeta.
    destruct (write_outcome_cases workspaceFolder source showNotifications remoteContent w1)
      as [(-> & -> & _) | (-> & -> & _)]; cbn [files set_files]; rewrite ?Hw1.
    - split; [by left |]. by split.
    - split; [by right |]. by split. }
  destruct (differs _ remoteContent).
  - destruct (prompts requireConfirmation session w).
    + destruct (approves (next_answer w)); cbn [result final events].
      * assert (files (answered session w) = files w) as Ha
          by (unfold answered; by destruct (next_answer w) as [[]|], session).
        destruct (Hwrite _ Ha) as (Hr & Hf & Ht).
        split; [done |]. split; [done |]. split; [done |].
        intros Htrue. exists remoteContent. split; [done | by apply Ht].
      * split; [by right |]. split; [done |]. split; [| done].
        intros _. unfold answered. by destruct (next_answer w) as [[]|], session.
    + destruct (Hwrite w eq_refl) as (Hr & Hf & Ht).
      split; [done |]. split; [done |]. split; [done |].
      intros Htrue. exists remoteContent. split; [done | by apply Ht].
  - split; [by right |]. split; [done |]. by split.
Qed.

Lemma sync_result_example :
  let w := example_world [csharp_general] "" example_pages ∅ [Some Yes] ∅ in
  let o := @syncInstructions Reference.platform example_folder csharp_general
             false true None w in
  let o' := @syncInstructions Reference.platform example_folder go_source
              false true None w in
  files (final o) = {[ "file:///work/app/.github/copilot-instructions.md" := "# General" ]} /\
  events o' = [EvError (failure_message example_folder go_source
                          "Failed to read local file /shared/go.md: EntryNotFound (FileSystemError): file:///shared/go.md")].
Proof.
  intros w o o'. split.
  - destruct (@sync_result_tells_what_was_written Reference.platform example_folder
                csharp_general false true None w) as (_ & _ & _ & Hwritten).
    destruct (Hwritten ltac:(by vm_compute)) as (remoteContent & Hfetch & Hfiles).
    assert (remoteContent = "# General") as -> by (vm_compute in Hfetch; congruence).
    exact Hfiles.
  - destruct (@sync_result_tells_what_was_written Reference.platform example_folder
                go_source false true None w) as (_ & Hfailed & _).
    exact (f_equal events (Hfailed _ ltac:(by vm_compute))).
Defined.

(** X8.  The only write of a call goes to the destination of the source and
    carries the content that was fetched; a prompt is shown only when
    confirmation is required and not waived and the fetched content differs
    from the local content, it asks the question made for that local content
    and takes the next answer. *)
Theorem sync_writes_and_prompts_only_when_due `{Platform}
    (workspaceFolder : WorkspaceFolder) (source : InstructionSource)
    (showNotifications requireConfirmation : bool) (session : option nat) (w : World) :
  let o := syncInstructions workspaceFolder source showNotifications requireConfirmation
                            session w in
  let uri := destination_uri workspaceFolder source in
  (forall u content,
     In (EvWrite u content) (events o) ->
     u = uri /\ result (fetchContent (url source) w) = Ok content /\
     differs (files w !! uri) content = true) /\
  (forall message answer,
     In (EvPrompt message answer) (events o) ->
     prompts requireConfirmation session w = true /\
     message = confirmation_message workspaceFolder source (files w !! uri) /\
     answer = next_answer w /\
     exists remoteContent,
       result (fetchContent (url source) w) = Ok remoteContent /\
       differs (files w !! uri) remoteContent = true).
Proof.
  cbv zeta. rewrite syncInstructions_run. unfold sync_outcome.
  destruct (result (fetchContent (url source) w)) as [remoteContent|e].
  2: { split; [by intros ? ? [? | []] | by intros ? ? [? | []]]. }
  resolve_source.
  2: { split; [by intros ? ? [? | []] | by intros ? ? [? | []]]. }
  assert (forall w1 u content,
            In (EvWrite u content)
               (events (write_outcome workspaceFolder source showNotifications
                                      remoteContent w1)) ->
            u = destination_uri workspaceFolder source /\ content = remoteContent) as Hwrite.
  { intros w1 u content.
    destruct (write_outcome_cases workspaceFolder source showNotifications remoteContent w1)
      as [(_ & _ & ->) | (_ & _ & e & [-> | ->])].
    - intros [[= <- <-] | Hin]; [done |].
      unfold notice in Hin. by destruct showNotifications, Hin.
    - by intros [[= <- <-] | [? | []]].
    - by intros [? | []]. }
  pose proof (write_outcome_no_prompt workspaceFolder source showNotifications
                                      remoteContent) as Hnp.
  destruct (differs _ remoteContent) eqn:Hdiff.
  - destruct (prompts requireConfirmation session w) eqn:Hprompts.
    + destruct (approves (next_answer w)); cbn [result final events].
      * split.
        -- intros u content [? | Hin]; [done |].
           by destruct (Hwrite _ _ _ Hin) as [-> ->].
        -- intros message answer [[= <- <-] | Hin]; [| by apply no_prompt_In in Hin].
           split; [done |]. split; [done |]. split; [done |]. by exists remoteContent.
      * split; [by intros u content [? | []] |].
        intros message answer [[= <- <-] | []].
        split; [done |]. split; [done |]. split; [done |]. by exists remoteContent.
    + split.
      * intros u content Hin. by destruct (Hwrite _ _ _ Hin) as [-> ->].
      * intros message answer Hin. by apply no_prompt_In in Hin.
  - unfold notice. split.
    + intros u content Hin. by destruct showNotifications, Hin.
    + intros message answer Hin. by destruct showNotifications, Hin.
Qed.

Lemma sync_write_example :
  let w := example_world [csharp_general] "" example_pages ∅ [Some Yes] ∅ in
  let uri := "file:///work/app/.github/copilot-instructions.md" in
  uri = @destination_uri Reference.platform example_folder csharp_general /\
  result (@fetchContent Reference.platform (url csharp_general) w) = Ok "# General" /\
  differs (files w !! @destination_uri Reference.platform example_folder csharp_general)
          "# General" = true.
Proof.
  intros w uri.
  destruct (@sync_writes_and_prompts_only_when_due Reference.platform example_folder
              csharp_general false true None w) as [Hwrite _].
  apply (Hwrite uri "# General"). vm_compute. right. by left.
Defined.

Lemma answered_keeps (session : option nat) (w : World) :
  files (answered session w) = files w /\
  http (answered session w) = http w /\
  getSession (answered session w) = getSession w /\
  fs_error (answered session w) = fs_error w.
Proof. unfold answered. by destruct (next_answer w) as [[]|], session. Qed.

Lemma fetch_result_stable `{Platform} (source : string) (w w' : World) :
  http w' = http w -> getSession w' = getSession w -> fs_error w' = fs_error w ->
  (isLocalPath source = true ->
   files w' !! localPathToUri source = files w !! localPathToUri source) ->
  fetch_result source w' = fetch_result source w.
Proof.
  intros Hh Hg He Hf. unfold fetch_result.
  destruct (isLocalPath source); [by rewrite Hf, He | by rewrite Hh, Hg].
Qed.

Lemma differs_same (content : string) : differs (Some content) content = false.
Proof. unfold differs. by rewrite String.eqb_refl. Qed.

Lemma sync_written_final `{Platform}
    (workspaceFolder : WorkspaceFolder) (source : InstructionSource)
    (showNotifications requireConfirmation : bool) (session : option nat) (w : World) :
  result (syncInstructions workspaceFolder source showNotifications requireConfirmation
                           session w) = Ok true ->
  exists remoteContent w1,
    resolvable source = true /\
    fetch_result (url source) w = Ok remoteContent /\
    differs (files w !! destination_uri workspaceFolder source) remoteContent = true /\
    files w1 = files w /\ http w1 = http w /\ getSession w1 = getSession w /\
    fs_error w1 = fs_error w /\
    final (syncInstructions workspaceFolder source showNotifications requireConfirmation
                            session w)
    = set_files (<[destination_uri workspaceFolder source := remoteContent]> (files w1)) w1.
Proof.
  rewrite syncInstructions_run. unfold sync_outcome. rewrite fetchContent_run. cbn [result].
  destruct (fetch_result (url source) w) as [remoteContent|e]; [| done].
  resolve_source; [| done].
  destruct (differs (files w !! destination_uri workspaceFolder source) remoteContent)
    eqn:Hdiff; [| done].
  destruct (prompts requireConfirmation session w).
  - destruct (approves (next_answer w)); cbn [result final]; [| done].
    destruct (write_outcome_cases workspaceFolder source showNotifications remoteContent
                                  (answered session w))
      as [(_ & -> & _) | (-> & _ & _)]; [intros _ | done].
    destruct (answered_keeps session w) as (Hf & Hh & Hg & He).
    by exists remoteContent, (answered session w).
  - destruct (write_outcome_cases workspaceFolder source showNotifications remoteContent w)
      as [(_ & -> & _) | (-> & _ & _)]; [intros _ | done].
    by exists remoteContent, w.
Qed.

(** X9.  A sync that has written leaves the source up to date: syncing the same
    source again right away, under any options, fetches the same content,
    finds it equal to the file, and neither prompts nor writes. *)
Theorem sync_is_idempotent `{Platform}
    (workspaceFolder : WorkspaceFolder) (source : InstructionSource)
    (showNotifications requireConfirmation : bool) (session : option nat)
    (showNotifications' requireConfirmation' : bool) (session' : option nat) (w : World) :
  let o := syncInstructions workspaceFolder source showNotifications requireConfirmation
                            session w in
  result o = Ok true ->
  syncInstructions workspaceFolder source showNotifications' requireConfirmation'
                   session' (final o)
  = {| result := Ok false; final := final o;
       events := notice showNotifications' (up_to_date_message workspaceFolder source) |}.
Proof.
  cbv zeta. intros Hwritten.
  destruct (sync_written_final _ _ _ _ _ _ Hwritten)
    as (remoteContent & w1 & Hres & Hfetch & Hdiff & Hf & Hh & Hg & He & ->).
  rewrite syncInstructions_run. unfold sync_outcome. rewrite fetchContent_run. cbn [result].
  rewrite Hres. cbn [negb].
  rewrite (fetch_result_stable (url source) w); cbn [http getSession fs_error files set_files];
    try done.
  - rewrite Hfetch, lookup_insert_eq. by rewrite differs_same.
  - intros Hlocal. rewrite Hf.
    destruct (decide (destination_uri workspaceFolder source = localPathToUri (url source)))
      as [Heq | Hne]; [| by rewrite lookup_insert_ne].
    exfalso. unfold fetch_result in Hfetch. rewrite Hlocal, <- Heq in Hfetch.
    destruct (files w !! destination_uri workspaceFolder source) as [c|]; [| done].
    injection Hfetch as ->. by rewrite differs_same in Hdiff.
Qed.

Lemma sync_is_idempotent_example :
  let w := example_world [csharp_general] "" example_pages ∅ [Some Yes] ∅ in
  let o := @syncInstructions Reference.platform example_folder csharp_general
             false true None w in
  @syncInstructions Reference.platform example_folder csharp_general true true None (final o)
  = {| result := Ok false; final := final o;
       events := [EvInformation (up_to_date_message example_folder csharp_general)] |}.
Proof.
  intros w o.
  apply (@sync_is_idempotent Reference.platform example_folder csharp_general
           false true None true true None w).
  by vm_compute.
Defined.

(** X10.  "Always (disable confirmation)" turns the setting off and leaves
    the three other settings as they are, and with the setting off a call
    shows no prompt, takes no answer and leaves settings and sessions as
    they are. *)
Theorem always_disables_confirmation `{Platform}
    (workspaceFolder : WorkspaceFolder) (source : InstructionSource)
    (showNotifications requireConfirmation : bool) (session : option nat) (w : World) :
  let o := syncInstructions workspaceFolder source showNotifications requireConfirmation
                            session w in
  (forall message,
     In (EvPrompt message (Some Always)) (events o) ->
     cfg_confirmBeforeSync (settings (final o)) = false /\
     cfg_sources (settings (final o)) = cfg_sources (settings w) /\
     cfg_remoteConfigUrl (settings (final o)) = cfg_remoteConfigUrl (settings w) /\
     cfg_remoteConfigCacheDuration (settings (final o))
       = cfg_remoteConfigCacheDuration (settings w)) /\
  (cfg_confirmBeforeSync (settings w) = false ->
   no_prompt (events o) = true /\ answers (final o) = answers w /\
   settings (final o) = settings w /\ sessions (final o) = sessions w).
Proof.
  cbv zeta. rewrite syncInstructions_run. unfold sync_outcome.
  destruct (result (fetchContent (url source) w)) as [remoteContent|e];
    [| split; [by intros ? [? | []] | done]].
  resolve_source; [| split; [by intros ? [? | []] | done]].
  pose proof (write_outcome_no_prompt workspaceFolder source showNotifications
                                      remoteContent) as Hnp.
  pose proof (write_outcome_keeps workspaceFolder source showNotifications
                                  remoteContent) as Hkeep.
  destruct (differs _ remoteContent).
  2: { split; [| by destruct showNotifications].
       destruct showNotifications; cbn; [by intros ? [? | []] | by intros ? []]. }
  split.
  - destruct (prompts requireConfirmation session w);
      [| intros m Hin; by apply no_prompt_In in Hin].
    destruct (approves (next_answer w)); cbn [result final events].
    + intros m [[= _ Ha] | Hin]; [| by apply no_prompt_In in Hin].
      destruct (Hkeep (answered session w)) as (_ & _ & ->).
      unfold answered. by rewrite Ha.
    + intros m [[= _ Ha] | []]. unfold answered. by rewrite Ha.
  - intros Hoff. unfold prompts. rewrite Hoff, andb_false_r.
    split; [apply Hnp |]. by destruct (Hkeep w) as (? & ? & ?).
Qed.

Lemma always_disables_confirmation_example :
  let w := example_world [csharp_general; csharp_testing] "" example_pages ∅
             [Some Always; Some No] ∅ in
  let o := @syncInstructions Reference.platform example_folder csharp_general
             false true None w in
  let o' := @syncInstructions Reference.platform example_folder csharp_testing
              false true None (final o) in
  cfg_confirmBeforeSync (settings (final o)) = false /\
  cfg_remoteConfigCacheDuration (settings (final o)) = 3600%Z /\
  no_prompt (events o') = true /\ answers (final o') = [Some No].
Proof.
  intros w o o'.
  destruct (@always_disables_confirmation Reference.platform example_folder csharp_general
              false true None w) as [Halways _].
  destruct (Halways (@confirmation_message Reference.platform example_folder csharp_general None)
                    ltac:(vm_compute; by left)) as (Hoff & _ & _ & Hduration).
  split; [exact Hoff |]. split; [exact Hduration |].
  destruct (@always_disables_confirmation Reference.platform example_folder csharp_testing
              false true None (final o)) as [_ Hquiet].
  destruct (Hquiet Hoff) as (Hnp & Hanswers & _).
  split; [exact Hnp |]. exact (eq_trans Hanswers ltac:(by vm_compute)).
Defined.

(** X11.  Without a session (as the force-sync command calls it), "Yes to All"
    is remembered nowhere: the sessions are untouched and the next call
    prompts again. *)
Theorem yes_to_all_needs_a_session `{Platform}
    (workspaceFolder : WorkspaceFolder) (source : InstructionSource)
    (showNotifications requireConfirmation : bool) (w : World) :
  let o := syncInstructions workspaceFolder source showNotifications requireConfirmation
                            None w in
  sessions (final o) = sessions w /\
  (forall message,
     In (EvPrompt message (Some YesToAll)) (events o) ->
     prompts requireConfirmation None (final o) = true).
Proof.
  cbv zeta. rewrite syncInstructions_run. unfold sync_outcome.
  destruct (result (fetchContent (url source) w)) as [remoteContent|e];
    [| split; [done | by intros ? [? | []]]].
  resolve_source; [| split; [done | by intros ? [? | []]]].
  pose proof (write_outcome_no_prompt workspaceFolder source showNotifications
                                      remoteContent) as Hnp.
  pose proof (write_outcome_keeps workspaceFolder source showNotifications
                                  remoteContent) as Hkeep.
  destruct (differs _ remoteContent).
  2: { split; [done |].
       destruct showNotifications; cbn; [by intros ? [? | []] | by intros ? []]. }
  destruct (prompts requireConfirmation None w) eqn:Hprompts.
  - assert (sessions (answered None w) = sessions w) as Hs
      by (unfold answered; by destruct (next_answer w) as [[]|]).
    destruct (approves (next_answer w)) eqn:Happ; cbn [result final events].
    + destruct (Hkeep (answered None w)) as (Hs' & _ & Hc'). split; [by rewrite Hs', Hs |].
      intros m [[= _ Ha] | Hin]; [| by apply no_prompt_In in Hin].
      unfold prompts, confirmed in *. rewrite Hc'. unfold answered. by rewrite Ha.
    + split; [done |]. intros m [[= _ Ha] | []]. by rewrite Ha in Happ.
  - split; [by destruct (Hkeep w) as (? & _) |].
    intros m Hin. by apply no_prompt_In in Hin.
Qed.

Lemma yes_to_all_without_session_example :
  let w := example_world [csharp_general] "" example_pages ∅ [Some YesToAll] ∅ in
  let o := @syncInstructions Reference.platform example_folder csharp_general
             false true None w in
  sessions (final o) = ∅ /\ prompts true None (final o) = true.
Proof.
  intros w o.
  destruct (@yes_to_all_needs_a_session Reference.platform example_folder csharp_general
              false true w) as [Hsessions Hprompts].
  split; [exact Hsessions |].
  apply (Hprompts (@confirmation_message Reference.platform example_folder csharp_general None)).
  vm_compute. by left.
Defined.

(** ** The remote configuration and its cache *)

Lemma fetchRemoteConfig_run `{Platform} (forceRefresh : bool) (w : World) :
  fetchRemoteConfig forceRefresh w = remote_config_outcome forceRefresh w.
Proof.
  unfold fetchRemoteConfig, remote_config_outcome.
  rewrite (bind_read_only _ _ w read_only_get_world).
  change (result (get_world w)) with (Ok w). cbv beta iota zeta.
  destruct (String.eqb (cfg_remoteConfigUrl (settings w)) ""); [reflexivity |].
  fold (fresh_cache forceRefresh w).
  destruct (fresh_cache forceRefresh w) as [config|]; [reflexivity |].
  rewrite try_catch_bind, fetchContent_run. cbn [result final events].
  unfold loaded_config.
  destruct (fetch_result (cfg_remoteConfigUrl (settings w)) w) as [content|e];
    rewrite after_nil; [| reflexivity].
  destruct (JSON_parse content) as [parsed|]; [| reflexivity].
  by destruct (validateRemoteConfig parsed) as [remoteConf|].
Qed.

Lemma remote_config_outcome_keeps `{Platform} (forceRefresh : bool) (w : World) :
  let o := remote_config_outcome forceRefresh w in
  files (final o) = files w /\ settings (final o) = settings w /\
  sessions (final o) = sessions w /\ answers (final o) = answers w /\
  http (final o) = http w /\ getSession (final o) = getSession w /\
  fs_error (final o) = fs_error w /\ now (final o) = now w.
Proof.
  unfold remote_config_outcome.
  destruct (String.eqb _ ""); [done |].
  destruct (fresh_cache forceRefresh w); [done |].
  by destruct (loaded_config w).
Qed.

(** X12.  [fetchRemoteConfig] never throws and changes nothing but the cache.  It
    shows at most one message, an error, and then the cache is as before and
    the result is the cached configuration, expired or not; the cache changes
    only to the configuration that is returned, stamped with the current
    time. *)
Theorem fetchRemoteConfig_never_throws `{Platform} (forceRefresh : bool) (w : World) :
  let o := fetchRemoteConfig forceRefresh w in
  (exists config, result o = Ok config /\
     (remoteConfigCache (final o) = remoteConfigCache w \/
      exists remoteConf, config = Some remoteConf /\
                         remoteConfigCache (final o) = Some (remoteConf, now w))) /\
  files (final o) = files w /\ settings (final o) = settings w /\
  sessions (final o) = sessions w /\ answers (final o) = answers w /\
  (events o = [] \/
   exists e, events o = [remote_config_failure e] /\ final o = w /\
             result o = Ok (cached_config w)).
Proof.
  cbv zeta. rewrite fetchRemoteConfig_run.
  destruct (remote_config_outcome_keeps forceRefresh w) as (Hf & Hs & Hss & Ha & _).
  split; [| split; [done | split; [done | split; [done | split; [done |]]]]];
    unfold remote_config_outcome.
  - destruct (String.eqb _ ""); [eexists; split; [done | by left] |].
    destruct (fresh_cache forceRefresh w); [eexists; split; [done | by left] |].
    destruct (loaded_config w) as [remoteConf|e]; eexists; (split; [done |]).
    + right. by exists remoteConf.
    + by left.
  - destruct (String.eqb _ ""); [by left |].
    destruct (fresh_cache forceRefresh w); [by left |].
    destruct (loaded_config w) as [remoteConf|e]; [by left |].
    right. by exists e.
Qed.

(** X13.  A configuration that was loaded is answered from the cache afterwards:
    at a later time, as long as less than the cache duration has passed, a
    call that does not force a refresh returns it without a request, whatever
    the network would answer by then. *)
Theorem loaded_config_is_cached `{Platform} (forceRefresh : bool) (w w' : World)
    (remoteConf : RemoteConfig) :
  let o := fetchRemoteConfig forceRefresh w in
  String.eqb (cfg_remoteConfigUrl (settings w)) "" = false ->
  fresh_cache forceRefresh w = None ->
  loaded_config w = Ok remoteConf ->
  settings w' = settings w ->
  remoteConfigCache w' = remoteConfigCache (final o) ->
  (now w <= now w')%Z ->
  (now w' - now w < cfg_remoteConfigCacheDuration (settings w) * 1000)%Z ->
  o = {| result := Ok (Some remoteConf);
         final := set_remoteConfigCache (Some (remoteConf, now w)) w; events := [] |} /\
  fetchRemoteConfig false w' = {| result := Ok (Some remoteConf); final := w'; events := [] |}.
Proof.
  cbv zeta. intros Hurl Hstale Hloaded Hsettings Hcache Hlater Hage.
  rewrite !fetchRemoteConfig_run in *. unfold remote_config_outcome in *.
  rewrite Hurl, Hstale, Hloaded in *. split; [done |].
  cbn [final set_remoteConfigCache remoteConfigCache] in Hcache.
  rewrite Hsettings, Hurl. unfold fresh_cache. rewrite Hcache, Hsettings. cbn [negb andb].
  destruct (Z.ltb_spec 0 (cfg_remoteConfigCacheDuration (settings w) * 1000)); [| lia].
  by destruct (Z.ltb_spec (now w' - now w) (cfg_remoteConfigCacheDuration (settings w) * 1000));
    [| lia].
Qed.

Lemma loaded_config_is_cached_example :
  let w := remote_world in
  let w' := at_time 3599999%Z (offline (set_remoteConfigCache (Some (example_remote_config, 0%Z)) w)) in
  @fetchRemoteConfig Reference.platform false w
  = {| result := Ok (Some example_remote_config);
       final := set_remoteConfigCache (Some (example_remote_config, 0%Z)) w; events := [] |} /\
  @fetchRemoteConfig Reference.platform false w'
  = {| result := Ok (Some example_remote_config); final := w'; events := [] |}.
Proof.
  intros w w'.
  apply (@loaded_config_is_cached Reference.platform false w w' example_remote_config);
    by vm_compute.
Defined.

(** X14.  When the refresh fails (the network, the status, the validator, the
    parser or a [null] document), the configuration in the cache is returned
    even if it has expired, one error message is shown and the cache is kept. *)
Theorem failed_refresh_falls_back_to_cache `{Platform} (forceRefresh : bool) (w : World)
    (e : string) :
  String.eqb (cfg_remoteConfigUrl (settings w)) "" = false ->
  fresh_cache forceRefresh w = None ->
  loaded_config w = Throw e ->
  fetchRemoteConfig forceRefresh w
  = {| result := Ok (cached_config w); final := w; events := [remote_config_failure e] |}.
Proof.
  intros Hurl Hstale Hfailed. rewrite fetchRemoteConfig_run. unfold remote_config_outcome.
  by rewrite Hurl, Hstale, Hfailed.
Qed.

Lemma failed_refresh_example :
  let w := at_time 3600000%Z
             (offline (set_remoteConfigCache (Some (example_remote_config, 0%Z)) remote_world)) in
  @fetchRemoteConfig Reference.platform false w
  = {| result := Ok (Some example_remote_config); final := w;
       events := [remote_config_failure "fetch failed"] |}.
Proof.
  intros w.
  apply (@failed_refresh_falls_back_to_cache Reference.platform false w "fetch failed");
    by vm_compute.
Defined.

(** X15.  With a cache duration of zero (or less) the cache is never read: a call
    behaves as one that forces the refresh. *)
Theorem zero_duration_disables_cache `{Platform} (forceRefresh : bool) (w : World) :
  (cfg_remoteConfigCacheDuration (settings w) <= 0)%Z ->
  fetchRemoteConfig forceRefresh w = fetchRemoteConfig true w.
Proof.
  intros Hzero. rewrite !fetchRemoteConfig_run. unfold remote_config_outcome.
  assert (fresh_cache forceRefresh w = None) as ->.
  { unfold fresh_cache. destruct (remoteConfigCache w) as [[config timestamp]|]; [| done].
    destruct (Z.ltb_spec 0 (cfg_remoteConfigCacheDuration (settings w) * 1000)); [lia |].
    by rewrite andb_false_r. }
  assert (fresh_cache true w = None) as ->; [| done].
  unfold fresh_cache. by destruct (remoteConfigCache w) as [[config timestamp]|].
Qed.

Lemma zero_duration_example :
  let w := with_cacheDuration 0%Z
             (offline (set_remoteConfigCache (Some (example_remote_config, 0%Z)) remote_world)) in
  @fetchRemoteConfig Reference.platform false w = @fetchRemoteConfig Reference.platform true w.
Proof.
  intros w. apply (@zero_duration_disables_cache Reference.platform false w). by vm_compute.
Defined.

(** X16.  Without a remote configuration URL the sources are the local ones, and
    a configuration left in the cache is not used. *)
Theorem no_remote_url_means_local_sources `{Platform} (forceRefresh : bool) (w : World) :
  cfg_remoteConfigUrl (settings w) = "" ->
  getInstructionSources forceRefresh w
  = {| result := Ok (cfg_sources (settings w)); final := w; events := [] |}.
Proof.
  intros Hurl. unfold getInstructionSources.
  rewrite bind_run. unfold getLocalInstructionSources at 1 2 3.
  rewrite (bind_read_only _ _ w read_only_get_world).
  change (result (get_world w)) with (Ok w). cbn [ret result final events].
  rewrite after_nil, bind_run, fetchRemoteConfig_run. unfold remote_config_outcome.
  by rewrite Hurl.
Qed.

Lemma no_remote_url_example :
  let w := set_remoteConfigCache (Some (example_remote_config, 0%Z))
             (example_world [csharp_general] "" example_pages ∅ [] ∅) in
  @getInstructionSources Reference.platform false w
  = {| result := Ok [csharp_general]; final := w; events := [] |}.
Proof.
  intros w. by apply (@no_remote_url_means_local_sources Reference.platform false w).
Defined.

(** ** The merge of remote and local sources *)

Lemma keys_Map_set {V} (k : string) (v : V) (m : list (string * V)) :
  keys (Map_set k v m)
  = if existsb (String.eqb k) (keys m) then keys m else keys m ++ [k].
Proof.
  induction m as [|[k' v'] m IH]; simpl; [done |].
  rewrite (String.eqb_sym k k').
  destruct (String.eqb_spec k' k) as [-> | Hne]; simpl; [done |].
  fold (keys m). fold (keys (Map_set k v m)). rewrite IH.
  by destruct (existsb (String.eqb k) (keys m)).
Qed.

Lemma keys_set_each `{Platform} (sources : list InstructionSource)
    (m : list (string * InstructionSource)) :
  keys (set_each sources m) = add_keys (keys m) (map key_of sources).
Proof.
  revert m; induction sources as [|s sources IH]; intros m; simpl; [done |].
  by rewrite IH, keys_Map_set.
Qed.

Lemma add_keys_app (seen a b : list string) :
  add_keys seen (a ++ b) = add_keys (add_keys seen a) b.
Proof. revert seen; induction a as [|k a IH]; intros seen; simpl; [done | apply IH]. Qed.

Lemma last_with_key_app `{Platform} (k : string) (a b : list InstructionSource) :
  last_with_key k (a ++ b)
  = match last_with_key k b with
    | Some s => Some s
    | None => last_with_key k a
    end.
Proof.
  induction a as [|s a IH]; simpl.
  - by destruct (last_with_key k b).
  - rewrite !last_with_key_cons, IH. by destruct (last_with_key k b).
Qed.

Lemma Map_get_Some_In {V} (k : string) (v : V) (m : list (string * V)) :
  Map_get k m = Some v -> In (k, v) m.
Proof.
  induction m as [|[k' v'] m IH]; simpl; [done |].
  destruct (String.eqb_spec k' k) as [-> | Hne]; [intros [= ->]; by left | right; auto].
Qed.

Lemma merged_as_map `{Platform} (remoteSources localSources : list InstructionSource) :
  let m := set_each localSources (set_each remoteSources []) in
  List.NoDup (keys m) /\ well_keyed m /\
  forall k, Map_get k m = last_with_key k (remoteSources ++ localSources).
Proof.
  cbv zeta. split; [| split].
  - apply set_each_keys_NoDup, set_each_keys_NoDup; constructor.
  - apply set_each_well_keyed, set_each_well_keyed; constructor.
  - intros k. rewrite !set_each_get, last_with_key_app. simpl.
    destruct (last_with_key k localSources); [done |].
    by destruct (last_with_key k remoteSources).
Qed.

Lemma merged_In `{Platform} (remoteSources localSources : list InstructionSource)
    (s : InstructionSource) :
  In s (merged remoteSources localSources) <->
  last_with_key (key_of s) (remoteSources ++ localSources) = Some s.
Proof.
  unfold merged, Map_values.
  destruct (merged_as_map remoteSources localSources) as (Hnd & Hwk & Hget).
  set (m := set_each localSources (set_each remoteSources [])) in *.
  rewrite <- Hget. split.
  - intros ([k s'] & Heq & Hin)%in_map_iff. simpl in Heq; subst s'.
    assert (k = key_of s) as ->
      by (eapply Forall_forall in Hwk; [| apply list_elem_of_In; exact Hin]; exact Hwk).
    by apply Map_get_In.
  - intros Hin%Map_get_Some_In. apply in_map_iff. by exists (key_of s, s).
Qed.

Lemma merge_general_Some `{Platform} (remoteSources localSources result : list InstructionSource) :
  merge_general remoteSources localSources = Some result ->
  result = merged remoteSources localSources /\
  forall s, In s (remoteSources ++ localSources) -> sourceKey s = Some (key_of s).
Proof.
  rewrite merge_general_resolved.
  destruct (forallb resolvable (remoteSources ++ localSources)) eqn:Hr; [| done].
  intros [= <-]. split; [done |]. intros s Hs.
  rewrite forallb_forall in Hr. by rewrite sourceKey_resolved, (Hr s Hs).
Qed.

Lemma merge_general_None `{Platform} (remoteSources localSources : list InstructionSource) :
  merge_general remoteSources localSources = None <->
  exists s, In s (remoteSources ++ localSources) /\ sourceKey s = None.
Proof.
  rewrite merge_general_resolved.
  destruct (forallb resolvable (remoteSources ++ localSources)) eqn:Hr.
  - split; [done |]. intros (s & Hs & Hnone).
    rewrite forallb_forall in Hr. by rewrite sourceKey_resolved, (Hr s Hs) in Hnone.
  - split; [intros _ | done].
    assert (~ forall s, In s (remoteSources ++ localSources) -> resolvable s = true) as Hnot
      by (rewrite <- forallb_forall; by rewrite Hr).
    induction (remoteSources ++ localSources) as [|s l IH]; [by destruct Hnot |].
    cbn [forallb] in Hr. destruct (resolvable s) eqn:Hs.
    + destruct IH as (s' & Hin & Hnone); [done | |].
      * intros Hall. rewrite <- forallb_forall in Hall. by rewrite Hall in Hr.
      * exists s'. split; [by right | done].
    + exists s. split; [by left |]. by rewrite sourceKey_resolved, Hs.
Qed.

(** X17.  The keyed-map merge throws exactly when the key of one of the
    sources cannot be computed.  Otherwise it lists the keys of the remote
    sources followed by those of the local sources, each key once at the place
    of its first occurrence, and under each key the last source that has it: a
    local source that overrides a remote one takes the remote one's place. *)
Theorem merge_keeps_first_place_and_last_value `{Platform}
    (remoteSources localSources : list InstructionSource) :
  (merge_general remoteSources localSources = None <->
   exists s, In s (remoteSources ++ localSources) /\ sourceKey s = None) /\
  (forall result,
     merge_general remoteSources localSources = Some result ->
     map sourceKey (remoteSources ++ localSources)
       = map Some (map key_of (remoteSources ++ localSources)) /\
     map sourceKey result
       = map Some (first_occurrences (map key_of (remoteSources ++ localSources))) /\
     forall s, In s result <->
               last_with_key (key_of s) (remoteSources ++ localSources) = Some s).
Proof.
  split; [apply merge_general_None |].
  intros result [-> Hkeys]%merge_general_Some.
  assert (forall l : list InstructionSource,
            (forall s, In s l -> sourceKey s = Some (key_of s)) ->
            map sourceKey l = map Some (map key_of l)) as Hmap.
  { intros l Hl. rewrite map_map. apply map_ext_in. exact Hl. }
  split; [by apply Hmap |]. split; [| apply merged_In].
  rewrite Hmap.
  2: { intros s [Hs _]%merged_In%last_with_key_Some. by apply Hkeys. }
  f_equal. unfold merged, Map_values, first_occurrences.
  destruct (merged_as_map remoteSources localSources) as (_ & Hwk & _).
  set (m := set_each localSources (set_each remoteSources [])) in *.
  transitivity (keys m).
  - unfold keys. rewrite map_map. symmetry. apply map_ext_Forall.
    eapply Forall_impl; [exact Hwk | done].
  - unfold m. by rewrite !keys_set_each, map_app, add_keys_app.
Qed.

Lemma merge_order_example :
  @merge_general Reference.platform [csharp_old; go_source] [csharp_testing; csharp_new]
    = Some [csharp_new; go_source; csharp_testing] /\
  map (@sourceKey Reference.platform) [csharp_new; go_source; csharp_testing]
    = [ Some "c#::.github/copilot-instructions.md"; Some "go::.github/copilot-instructions.md";
        Some "c#::.vscode/testing.md" ].
Proof.
  split; [reflexivity |].
  destruct (@merge_keeps_first_place_and_last_value Reference.platform
              [csharp_old; go_source] [csharp_testing; csharp_new]) as [_ Horder].
  destruct (Horder [csharp_new; go_source; csharp_testing] eq_refl) as (_ & Hkeys & _).
  exact Hkeys.
Defined.

Lemma merge_Some `{Platform} (remoteSources : option (list InstructionSource))
    (localSources result : list InstructionSource) :
  merge remoteSources localSources = Some result ->
  (result = localSources /\ (remoteSources = None \/ remoteSources = Some [])) \/
  (remoteSources = Some result /\ localSources = []) \/
  (exists remote, remoteSources = Some remote /\
                  result = merged remote localSources /\
                  forall s, In s (remote ++ localSources) -> sourceKey s = Some (key_of s)).
Proof.
  destruct remoteSources as [[|r remote]|]; simpl.
  - intros [= <-]. left. split; [done | by right].
  - destruct localSources as [|l locals]; [intros [= <-]; right; by left |].
    intros [-> Hkeys]%merge_general_Some. right; right. by exists (r :: remote).
  - intros [= <-]. left. split; [done | by left].
Qed.

(** X18.  What [getInstructionSources] returns holds only sources of the two
    inputs, and every key of an input is still there. *)
Theorem merge_neither_invents_nor_loses `{Platform}
    (remoteSources : option (list InstructionSource))
    (localSources result : list InstructionSource) (s : InstructionSource) :
  merge remoteSources localSources = Some result ->
  (In s result -> In s (default [] remoteSources) \/ In s localSources) /\
  (In s (default [] remoteSources) \/ In s localSources ->
   exists s', In s' result /\ sourceKey s' = sourceKey s).
Proof.
  intros [[-> Hremote] | [[-> ->] | (remote & -> & -> & Hkeys)]]%merge_Some.
  - split; [by right |]. intros [Hin | Hin]; [| by exists s].
    by destruct Hremote as [-> | ->].
  - split; [by left |]. intros [Hin | []]. by exists s.
  - cbn [default]. split.
    + intros [Hin _]%merged_In%last_with_key_Some.
      apply in_app_iff in Hin. by destruct Hin as [? | ?]; [left | right].
    + intros Hin%in_app_iff.
      destruct (last_with_key (key_of s) (remote ++ localSources)) as [s'|] eqn:Hlast.
      * exists s'. destruct (last_with_key_Some _ _ _ Hlast) as [Hin' Hkey].
        split; [apply merged_In; by rewrite Hkey |].
        by rewrite (Hkeys s' Hin'), (Hkeys s Hin), Hkey.
      * exfalso. by apply (last_with_key_None _ _ s Hlast).
Qed.

Lemma merge_keeps_keys_example :
  @merge Reference.platform (Some [csharp_old; go_source]) [csharp_new]
    = Some [csharp_new; go_source] /\
  exists s', In s' [csharp_new; go_source] /\
             @sourceKey Reference.platform s' = @sourceKey Reference.platform csharp_old.
Proof.
  split; [reflexivity |].
  apply (@merge_neither_invents_nor_loses Reference.platform
           (Some [csharp_old; go_source]) [csharp_new] [csharp_new; go_source] csharp_old);
    [reflexivity |].
  left. by left.
Defined.

(** X19.  A remote source never stands under a key that a local source has: the
    entry under such a key is a local source, on every path of
    [getInstructionSources]. *)
Theorem local_source_overrides_remote `{Platform}
    (remoteSources : option (list InstructionSource))
    (localSources result : list InstructionSource) (s l : InstructionSource) :
  merge remoteSources localSources = Some result ->
  In s result ->
  In l localSources -> sourceKey l = sourceKey s ->
  In s localSources.
Proof.
  intros [[-> _] | [[-> ->] | (remote & -> & -> & Hkeys)]]%merge_Some; [done | done |].
  intros Hs Hl Hkey. pose proof Hs as [Hin _]%merged_In%last_with_key_Some.
  rewrite (Hkeys s Hin), (Hkeys l) in Hkey by (apply in_app_iff; by right).
  injection Hkey as Hkey.
  apply merged_In in Hs. rewrite last_with_key_app in Hs.
  destruct (last_with_key (key_of s) localSources) as [s'|] eqn:Hlast.
  - injection Hs as ->. by destruct (last_with_key_Some _ _ _ Hlast).
  - exfalso. by apply (last_with_key_None _ _ l Hlast Hl).
Qed.

Lemma local_source_overrides_remote_example :
  @merge Reference.platform (Some [csharp_old; go_source]) [csharp_new]
    = Some [csharp_new; go_source] /\
  In csharp_new [csharp_new].
Proof.
  split; [reflexivity |].
  apply (@local_source_overrides_remote Reference.platform
           (Some [csharp_old; go_source]) [csharp_new] [csharp_new; go_source]
           csharp_new csharp_new).
  - reflexivity.
  - by left.
  - by left.
  - reflexivity.
Defined.

(** ** A whole run of [performSync] *)





Lemma getInstructionSources_run `{Platform} (forceRefresh : bool) (w : World) :
  getInstructionSources forceRefresh w
  = let o := remote_config_outcome forceRefresh w in
    {| result := match result o with
                 | Ok remoteConfig =>
                     match merge (optional_member rc_sources remoteConfig)
                                 (cfg_sources (settings w)) with
                     | Some sources => Ok sources
                     | None => Throw TypeError_message
                     end
                 | Throw e => Throw e
                 end;
       final := final o; events := events o |}.
Proof.
  unfold getInstructionSources. rewrite bind_run.
  unfold getLocalInstructionSources at 1 2 3.
  rewrite (bind_read_only _ _ w read_only_get_world).
  change (result (get_world w)) with (Ok w). cbn [ret result final events].
  rewrite after_nil, bind_run, fetchRemoteConfig_run. cbv zeta.
  destruct (result (remote_config_outcome forceRefresh w)); [| done].
  destruct (merge _ _); unfold after, or_throw, ret, throw; cbn [result final events];
    by rewrite app_nil_r.
Qed.







Lemma orderly_weaken {A} (P Q : string -> string -> Prop) (m : M A) :
  (forall u content, P u content -> Q u content) -> orderly P m -> orderly Q m.
Proof.
  intros HPQ Hm w. destruct (Hm w) as (Hw & Hf).
  split; [| done]. intros u content Hin. by apply HPQ, Hw.
Qed.

Lemma orderly_read_only {A} (P : string -> string -> Prop) (m : M A) :
  read_only m -> orderly P m.
Proof. intros Hm w. destruct (Hm w) as [-> ->]. by split. Qed.

Lemma orderly_ret {A} (P : string -> string -> Prop) (a : A) : orderly P (ret a).
Proof. apply orderly_read_only, read_only_ret. Qed.

Lemma orderly_bind {A B} (P : string -> string -> Prop) (m : M A) (k : A -> M B) :
  orderly P m -> (forall a, orderly P (k a)) -> orderly P (bind m k).
Proof.
  intros Hm Hk w. rewrite bind_run. destruct (Hm w) as (Hw & Hf).
  destruct (result (m w)) as [a|e]; [| done].
  destruct (Hk a (final (m w))) as (Hw' & Hf'). cbn [after result final events].
  split.
  - intros u content [Hin | Hin]%in_app_iff; [by apply Hw | by apply Hw'].
  - intros uri Hnone. rewrite Hf', Hf; [done | |].
    + intros content Hin. apply (Hnone content), in_app_iff. by left.
    + intros content Hin. apply (Hnone content), in_app_iff. by right.
Qed.

Lemma orderly_when (P : string -> string -> Prop) (b : bool) (e : Event) :
  (forall u content, e <> EvWrite u content) -> orderly P (when b (emit e)).
Proof.
  intros He w. destruct b; cbn.
  - split; [| done]. intros u content [Heq | []]. by destruct (He u content).
  - by split.
Qed.

Lemma fetch_result_valid `{Platform} (source content : string) (w : World) :
  isLocalPath source = false -> fetch_result source w = Ok content ->
  valid (isValidInstructionContent content source) = true.
Proof.
  intros Hlocal. unfold fetch_result, response_result. rewrite Hlocal.
  destruct (http w source _) as [message | ok status statusText body]; [done |].
  destruct ok; [| done]. cbn [negb].
  destruct (valid (isValidInstructionContent body source)) eqn:Hvalid; [| done].
  by intros [= <-].
Qed.

Lemma orderly_write_outcome `{Platform}
    (workspaceFolder : WorkspaceFolder) (source : InstructionSource)
    (showNotifications : bool) (remoteContent : string) (w1 : World) :
  let o := write_outcome workspaceFolder source showNotifications remoteContent w1 in
  (forall u content, In (EvWrite u content) (events o) ->
                     u = destination_uri workspaceFolder source /\ content = remoteContent) /\
  (forall uri, (forall content, ~ In (EvWrite uri content) (events o)) ->
               files (final o) !! uri = files w1 !! uri).
Proof.
  cbv zeta.
  destruct (write_outcome_cases workspaceFolder source showNotifications remoteContent w1)
    as [(_ & -> & ->) | (_ & -> & e & [-> | ->])].
  - split.
    + intros u content [[= <- <-] | Hin]; [done |].
      unfold notice in Hin. by destruct showNotifications, Hin.
    + intros uri Hnone. cbn [files set_files]. apply lookup_insert_ne.
      intros <-. apply (Hnone remoteContent). by left.
  - split; [| done]. by intros u content [[= <- <-] | [? | []]].
  - split; [| done]. by intros u content [? | []].
Qed.

Lemma orderly_syncInstructions `{Platform}
    (workspaceFolder : WorkspaceFolder) (source : InstructionSource)
    (showNotifications requireConfirmation : bool) (session : option nat) :
  orderly (synced_from workspaceFolder source)
          (syncInstructions workspaceFolder source showNotifications requireConfirmation
                            session).
Proof.
  intros w. rewrite syncInstructions_run. unfold sync_outcome. rewrite fetchContent_run.
  cbn [result].
  destruct (fetch_result (url source) w) as [remoteContent|e] eqn:Hfetch.
  2: { split; [by intros ? ? [? | []] | done]. }
  resolve_source.
  2: { split; [by intros ? ? [? | []] | done]. }
  assert (forall u content,
            u = destination_uri workspaceFolder source /\ content = remoteContent ->
            synced_from workspaceFolder source u content) as Hsynced.
  { intros u content [-> ->].
    split; [by rewrite getDestinationPath_resolved, Hresolved |]. split; [done |].
    intros Hlocal. by apply (fetch_result_valid _ _ w). }
  destruct (differs _ remoteContent).
  2: { unfold notice. split; [| done].
       intros u content Hin. by destruct showNotifications, Hin. }
  destruct (prompts requireConfirmation session w).
  - destruct (approves (next_answer w)); cbn [result final events].
    + destruct (orderly_write_outcome workspaceFolder source showNotifications remoteContent
                                      (answered session w)) as (Hw & Hf).
      destruct (answered_keeps session w) as (Hfiles & _).
      split.
      * intros u content [? | Hin]; [done |]. by apply Hsynced, Hw.
      * intros uri Hnone. rewrite Hf, Hfiles; [done |].
        intros content Hin. apply (Hnone content). by right.
    + destruct (answered_keeps session w) as (Hfiles & _).
      split; [by intros ? ? [? | []] |]. intros uri _. by rewrite Hfiles.
  - destruct (orderly_write_outcome workspaceFolder source showNotifications remoteContent w)
      as (Hw & Hf).
    split; [| done]. intros u content Hin. by apply Hsynced, Hw.
Qed.

Lemma orderly_syncSources `{Platform}
    (workspaceFolder : WorkspaceFolder) (detectedLanguages : list string)
    (sources : list InstructionSource) (showNotifications : bool) (session : nat) :
  orderly (synced_from_some [workspaceFolder] sources)
          (syncSources workspaceFolder detectedLanguages sources showNotifications session).
Proof.
  induction sources as [|source rest IH]; [apply orderly_ret |].
  cbn [syncSources]. apply orderly_bind.
  - destruct (disabled source) eqn:Hd; [apply orderly_ret |].
    destruct (matchingLanguage detectedLanguages source) as [lang|]; [| apply orderly_ret].
    destruct (negb (String.eqb lang "")); [| apply orderly_ret].
    apply orderly_bind; [| intros _; apply orderly_ret].
    eapply orderly_weaken; [| apply orderly_syncInstructions].
    intros u content Hs. exists workspaceFolder, source.
    split; [by left |]. split; [by left |]. by split.
  - intros _. eapply orderly_weaken; [| exact IH].
    intros u content (folder' & source' & Hf & Hs & Hd & Hsynced). exists folder', source'.
    split; [done |]. split; [by right |]. by split.
Qed.

Lemma orderly_syncFolders `{Platform}
    (folders : list WorkspaceFolder) (sources : list InstructionSource)
    (showNotifications : bool) (session : nat) :
  orderly (synced_from_some folders sources)
          (syncFolders folders sources showNotifications session).
Proof.
  induction folders as [|workspaceFolder rest IH]; [apply orderly_ret |].
  cbn [syncFolders]. apply orderly_bind.
  - apply orderly_read_only, read_only_detectWorkspaceLanguage.
  - intros detectedLanguages. apply orderly_bind.
    + destruct detectedLanguages; [apply orderly_ret |].
      eapply orderly_weaken; [| apply orderly_syncSources].
      intros u content (folder' & source' & [<- | []] & Hs & Hd & Hsynced).
      exists workspaceFolder, source'.
      split; [by left |]. by split.
    + intros _. eapply orderly_weaken; [| exact IH].
      intros u content (folder' & source' & Hf & Hs & Hd & Hsynced). exists folder', source'.
      split; [by right |]. by split.
Qed.

Lemma orderly_getInstructionSources `{Platform} (P : string -> string -> Prop)
    (forceRefresh : bool) :
  orderly P (getInstructionSources forceRefresh).
Proof.
  intros w. rewrite getInstructionSources_run. cbv zeta. cbn [final events].
  destruct (remote_config_outcome_keeps forceRefresh w) as (Hfiles & _).
  split; [| intros uri _; by rewrite Hfiles]. unfold remote_config_outcome.
  destruct (String.eqb _ ""); [done |].
  destruct (fresh_cache forceRefresh w); [done |].
  destruct (loaded_config w); [done | by intros ? ? [? | []]].
Qed.

Lemma orderly_performSync `{Platform} (showNotifications forceRefresh : bool) (w : World) :
  let o := performSync showNotifications forceRefresh w in
  (forall u content,
     In (EvWrite u content) (events o) ->
     exists folders sources,
       workspaceFolders w = Some folders /\
       result (getInstructionSources forceRefresh w) = Ok sources /\
       synced_from_some folders sources u content) /\
  (forall uri, (forall content, ~ In (EvWrite uri content) (events o)) ->
               files (final o) !! uri = files w !! uri).
Proof.
  cbv zeta. unfold performSync.
  rewrite (bind_read_only _ _ w read_only_get_world).
  change (result (get_world w)) with (Ok w). cbv beta iota.
  assert (forall m,
            let o := when showNotifications (showWarningMessage m) w in
            (forall u content, ~ In (EvWrite u content) (events o)) /\
            files (final o) = files w) as Hwarn.
  { intros m. destruct showNotifications; cbn.
    - split; [| done]. by intros u content [? | []].
    - split; [| done]. by intros u content []. }
  destruct (workspaceFolders w) as [[|f fs]|] eqn:Hfolders.
  1, 3: destruct (Hwarn "Instruction Sync: No workspace folder open") as (Hw & Hf);
    (split; [intros u content Hin; by apply Hw in Hin |]);
    intros uri _; by rewrite Hf.
  rewrite bind_run.
  destruct (orderly_getInstructionSources (fun _ _ => False) forceRefresh w)
    as (Hnone & Hfiles).
  destruct (result (getInstructionSources forceRefresh w)) as [sources|e] eqn:Hsources.
  2: { cbn [final events]. split; [intros u content Hin; by apply Hnone in Hin |].
       intros uri _. apply Hfiles. intros content Hin. by apply Hnone in Hin. }
  cbn [after result final events].
  assert (orderly (synced_from_some (f :: fs) sources)
            (match sources with
             | [] => when showNotifications
                       (showInformationMessage
                          "Instruction Sync: No instruction sources configured. Add sources in settings or set a remote configuration URL.")
             | _ :: _ => session <- new_session;;
                         syncFolders (f :: fs) sources showNotifications session
             end)) as Hrest.
  { destruct sources as [|s ss]; [by apply orderly_when |].
    apply orderly_bind; [| intros session; apply orderly_syncFolders].
    intros w1. rewrite new_session_run. by split. }
  destruct (Hrest (final (getInstructionSources forceRefresh w))) as (Hw & Hf).
  split.
  - intros u content [Hin | Hin]%in_app_iff; [by apply Hnone in Hin |].
    exists (f :: fs), sources. split; [done |]. split; [done |]. by apply Hw.
  - intros uri Hnot. rewrite Hf, Hfiles; [done | |].
    + intros content Hin. by apply Hnone in Hin.
    + intros content Hin. apply (Hnot content), in_app_iff. by right.
Qed.



(** X21.  Every write of a run goes to the destination of an enabled source of
    the merged list in one of the workspace folders, a destination that
    [getDestinationPath] resolved, and when that source is not a local path
    the content written has passed the validator. *)
Theorem performSync_writes_validated_content `{Platform}
    (showNotifications forceRefresh : bool) (w : World) (u content : string) :
  In (EvWrite u content) (events (performSync showNotifications forceRefresh w)) ->
  exists folders sources workspaceFolder source,
    workspaceFolders w = Some folders /\
    result (getInstructionSources forceRefresh w) = Ok sources /\
    In workspaceFolder folders /\ In source sources /\ disabled source = false /\
    getDestinationPath (Some source) <> None /\
    u = destination_uri workspaceFolder source /\
    (isLocalPath (url source) = false ->
     valid (isValidInstructionContent content (url source)) = true).
Proof.
  intros Hin.
  destruct (orderly_performSync showNotifications forceRefresh w) as (Hw & _).
  destruct (Hw u content Hin)
    as (folders & sources & Hf & Hs & folder' & source' & Hinf & Hins & Hd & Hres & -> &
        Hvalid).
  by exists folders, sources, folder', source'.
Qed.

Lemma performSync_writes_example :
  let w := example_world [csharp_general; csharp_testing] "" example_pages ∅
             [Some YesToAll] ∅ in
  exists folders sources workspaceFolder source,
    workspaceFolders w = Some folders /\
    result (@getInstructionSources Reference.platform false w) = Ok sources /\
    In workspaceFolder folders /\ In source sources /\ disabled source = false /\
    getDestinationPath (Some source) <> None /\
    "file:///work/app/.vscode/testing.md"
      = @destination_uri Reference.platform workspaceFolder source /\
    (isLocalPath (url source) = false ->
     valid (@isValidInstructionContent Reference.platform "# Testing" (url source)) = true).
Proof.
  intros w.
  apply (@performSync_writes_validated_content Reference.platform false false w
           "file:///work/app/.vscode/testing.md" "# Testing").
  vm_compute. right. right. by left.
Defined.

(** X22.  A run leaves every file as it was that it does not write. *)
Theorem performSync_touches_only_written_files `{Platform}
    (showNotifications forceRefresh : bool) (w : World) (uri : string) :
  (forall content,
     ~ In (EvWrite uri content) (events (performSync showNotifications forceRefresh w))) ->
  files (final (performSync showNotifications forceRefresh w)) !! uri = files w !! uri.
Proof.
  destruct (orderly_performSync showNotifications forceRefresh w) as (_ & Hf).
  apply Hf.
Qed.

Lemma performSync_keeps_other_files_example :
  let w := example_world [csharp_general; csharp_testing] "" example_pages
             {[ "file:///work/app/README.md" := "# App" ]} [Some YesToAll] ∅ in
  files (final (@performSync Reference.platform false false w)) !! "file:///work/app/README.md"
  = files w !! "file:///work/app/README.md".
Proof.
  intros w.
  apply (@performSync_touches_only_written_files Reference.platform false false w
           "file:///work/app/README.md").
  vm_compute. by intros content [? | [? | [? | []]]].
Defined.

(** ** The commands *)

Lemma preserves_read_only {A B} (component : World -> B) (m : M A) :
  read_only m -> preserves component m.
Proof. intros Hm w. by destruct (Hm w) as [-> _]. Qed.

Lemma preserves_bind {A B C} (component : World -> C) (m : M A) (k : A -> M B) :
  preserves component m -> (forall a, preserves component (k a)) ->
  preserves component (bind m k).
Proof.
  intros Hm Hk w. rewrite bind_run.
  destruct (result (m w)) as [a|e]; [| apply Hm].
  cbn [after final]. by rewrite Hk, Hm.
Qed.

Lemma preserves_when {B} (component : World -> B) (b : bool) (e : Event) :
  preserves component (when b (emit e)).
Proof. intros w. by destruct b. Qed.

Lemma preserves_syncInstructions `{Platform} {B} (component : World -> B)
    (workspaceFolder : WorkspaceFolder) (source : InstructionSource)
    (showNotifications requireConfirmation : bool) (session : option nat) :
  (forall w f, component (set_files f w) = component w) ->
  (forall w, component (answered session w) = component w) ->
  preserves component
    (syncInstructions workspaceFolder source showNotifications requireConfirmation session).
Proof.
  intros Hfiles Hanswered w. rewrite syncInstructions_run. unfold sync_outcome.
  destruct (result (fetchContent (url source) w)) as [remoteContent|e]; [| done].
  resolve_source; [| done].
  assert (forall w1, component (final (write_outcome workspaceFolder source showNotifications
                                                     remoteContent w1)) = component w1)
    as Hwrite.
  { intros w1.
    by destruct (write_outcome_cases workspaceFolder source showNotifications remoteContent w1)
      as [(_ & -> & _) | (_ & -> & _)]. }
  destruct (differs _ remoteContent); [| done].
  destruct (prompts requireConfirmation session w); [| apply Hwrite].
  destruct (approves (next_answer w)); cbn [final]; [| done].
  by rewrite Hwrite.
Qed.

Lemma answered_keeps_cache (session : option nat) (w : World) :
  remoteConfigCache (answered session w) = remoteConfigCache w.
Proof. unfold answered. by destruct (next_answer w) as [[]|], session. Qed.


Lemma preserves_cache_syncSources `{Platform}
    (workspaceFolder : WorkspaceFolder) (detectedLanguages : list string)
    (sources : list InstructionSource) (showNotifications : bool) (session : nat) :
  preserves remoteConfigCache
    (syncSources workspaceFolder detectedLanguages sources showNotifications session).
Proof.
  induction sources as [|source sources IH]; [apply preserves_read_only, read_only_ret |].
  cbn [syncSources]. apply preserves_bind; [| by intros _].
  destruct (disabled source); [apply preserves_read_only, read_only_ret |].
  destruct (matchingLanguage detectedLanguages source) as [lang|];
    [| apply preserves_read_only, read_only_ret].
  destruct (negb (String.eqb lang "")); [| apply preserves_read_only, read_only_ret].
  apply preserves_bind; [| intros _; apply preserves_read_only, read_only_ret].
  apply preserves_syncInstructions; [done | apply answered_keeps_cache].
Qed.

Lemma preserves_cache_syncFolders `{Platform}
    (folders : list WorkspaceFolder) (sources : list InstructionSource)
    (showNotifications : bool) (session : nat) :
  preserves remoteConfigCache (syncFolders folders sources showNotifications session).
Proof.
  induction folders as [|workspaceFolder rest IH];
    [apply preserves_read_only, read_only_ret |].
  cbn [syncFolders]. apply preserves_bind;
    [apply preserves_read_only, read_only_detectWorkspaceLanguage |].
  intros detectedLanguages. apply preserves_bind; [| by intros _].
  destruct detectedLanguages as [|l ls]; [apply preserves_read_only, read_only_ret |].
  apply preserves_cache_syncSources.
Qed.

Lemma final_bind {A B} (m : M A) (k : A -> M B) (w : World) :
  final (bind m k w)
  = match result (m w) with
    | Ok a => final (k a (final (m w)))
    | Throw e => final (m w)
    end.
Proof. rewrite bind_run. by destruct (result (m w)). Qed.

Lemma getInstructionSources_final `{Platform} (forceRefresh : bool) (w : World) :
  final (getInstructionSources forceRefresh w) = final (remote_config_outcome forceRefresh w).
Proof. by rewrite getInstructionSources_run. Qed.

Lemma getInstructionSources_events `{Platform} (forceRefresh : bool) (w : World) :
  events (getInstructionSources forceRefresh w)
  = events (remote_config_outcome forceRefresh w).
Proof. by rewrite getInstructionSources_run. Qed.


Lemma performSync_cache `{Platform} (showNotifications forceRefresh : bool) (w : World) :
  remoteConfigCache (final (performSync showNotifications forceRefresh w))
  = match workspaceFolders w with
    | Some (_ :: _) => remoteConfigCache (final (remote_config_outcome forceRefresh w))
    | _ => remoteConfigCache w
    end.
Proof.
  unfold performSync.
  rewrite (bind_read_only _ _ w read_only_get_world).
  change (result (get_world w)) with (Ok w). cbv beta iota.
  destruct (workspaceFolders w) as [[|f fs]|]; [apply preserves_when | | apply preserves_when].
  rewrite final_bind, <- getInstructionSources_final.
  destruct (result (getInstructionSources forceRefresh w)) as [[|s ss]|e]; [| | reflexivity].
  - apply preserves_when.
  - apply preserves_bind; [| intros session; apply preserves_cache_syncFolders].
    intros w1. by rewrite new_session_run.
Qed.

(** X23.  The input box accepts exactly the empty value, an [http://] or
    [https://] URL and a local path; a value that starts with [//] is
    refused. *)
Theorem validateInput_accepts (value : string) :
  (validateInput value = None <->
   value = "" \/ startsWith value "http://" = true \/ startsWith value "https://" = true
   \/ isLocalPath value = true) /\
  (startsWith value "//" = true -> validateInput value <> None).
Proof.
  unfold validateInput. split.
  - destruct (String.eqb_spec value "") as [-> | Hne]; [split; [by left | done] |].
    destruct (startsWith value "http://"); [split; [right; by left | done] |].
    destruct (startsWith value "https://"); [split; [right; right; by left | done] |].
    destruct (isLocalPath value); [split; [by repeat right | done] |].
    split; [done |]. by intros [? | [? | [? | ?]]].
  - intros Hs. apply startsWith_cons in Hs as (s1 & -> & Hs).
    apply startsWith_cons in Hs as (s2 & -> & _). by destruct s2.
Qed.

Lemma validateInput_example :
  validateInput "/shared/config.json" = None /\
  validateInput "//server/share/config.json" <> None.
Proof.
  split.
  - apply (validateInput_accepts "/shared/config.json"). by repeat right.
  - by apply (validateInput_accepts "//server/share/config.json").
Defined.

(** X24.  Clearing the remote configuration URL empties the cache, and from then
    on the sources are the local ones, with no request and no message. *)
Theorem clearing_remote_url_leaves_local_sources `{Platform} (forceRefresh : bool)
    (w : World) :
  let o := setRemoteConfigCommand (Some "") w in
  o = {| result := Ok tt; final := with_remoteConfigUrl "" w;
         events := [EvInformation "Instruction Sync: Remote configuration URL cleared."] |} /\
  remoteConfigCache (final o) = None /\
  getInstructionSources forceRefresh (final o)
  = {| result := Ok (cfg_sources (settings w)); final := final o; events := [] |}.
Proof.
  cbv zeta.
  assert (setRemoteConfigCommand (Some "") w
          = {| result := Ok tt; final := with_remoteConfigUrl "" w;
               events := [EvInformation "Instruction Sync: Remote configuration URL cleared."] |})
    as -> by reflexivity.
  split; [done |]. split; [done |]. cbn [final].
  rewrite getInstructionSources_run. unfold remote_config_outcome. reflexivity.
Qed.

(** X25.  After a new remote configuration URL is entered, the configuration of
    the old URL is gone: the sync that follows uses the configuration loaded
    from the new URL, or none when the load fails, and the cache ends empty or
    with the configuration loaded from the new URL. *)
Theorem new_remote_url_drops_cached_config `{Platform} (url : string) (w : World) :
  url <> "" ->
  let w1 := with_remoteConfigUrl url w in
  let o := setRemoteConfigCommand (Some url) w in
  result (fetchRemoteConfig true w1)
    = Ok (match loaded_config w1 with Ok remoteConf => Some remoteConf | Throw _ => None end) /\
  (remoteConfigCache (final o) = None \/
   exists remoteConf,
     loaded_config w1 = Ok remoteConf /\
     remoteConfigCache (final o) = Some (remoteConf, now w)).
Proof.
  intros Hurl. cbv zeta. apply String.eqb_neq in Hurl.
  assert (remote_config_outcome true (with_remoteConfigUrl url w)
          = match loaded_config (with_remoteConfigUrl url w) with
            | Ok remoteConf =>
                {| result := Ok (Some remoteConf);
                   final := set_remoteConfigCache (Some (remoteConf, now w))
                              (with_remoteConfigUrl url w);
                   events := [] |}
            | Throw e =>
                {| result := Ok None; final := with_remoteConfigUrl url w;
                   events := [remote_config_failure e] |}
            end) as Hload.
  { unfold remote_config_outcome. cbn [with_remoteConfigUrl settings set_remoteConfigCache
                                        set_settings cfg_remoteConfigUrl].
    by rewrite Hurl. }
  split.
  - rewrite fetchRemoteConfig_run, Hload. by destruct (loaded_config _).
  - unfold setRemoteConfigCommand.
    rewrite (bind_read_only _ _ w read_only_get_world).
    change (result (get_world w)) with (Ok w). cbv beta iota.
    rewrite bind_run. cbn [put_world result final events]. rewrite after_nil, Hurl.
    cbn [negb]. rewrite bind_run. cbn [showInformationMessage emit result final events after].
    rewrite performSync_cache, Hload.
    destruct (workspaceFolders (with_remoteConfigUrl url w)) as [[|f fs]|]; [by left | | by left].
    destruct (loaded_config (with_remoteConfigUrl url w)) as [remoteConf|e]; [| by left].
    right. by exists remoteConf.
Qed.

Lemma new_remote_url_example :
  let w := set_remoteConfigCache (Some (example_remote_config, 0%Z)) remote_world in
  let w1 := with_remoteConfigUrl "https://example.com/team.json" w in
  let o := @setRemoteConfigCommand Reference.platform (Some "https://example.com/team.json") w in
  result (@fetchRemoteConfig Reference.platform true w1) = Ok None /\
  remoteConfigCache (final o) = None.
Proof.
  intros w w1 o.
  destruct (@new_remote_url_drops_cached_config Reference.platform
              "https://example.com/team.json" w ltac:(done)) as [Hfetch Hcache].
  split; [exact Hfetch |].
  destruct Hcache as [Hnone | (remoteConf & Hloaded & _)]; [exact Hnone |].
  by vm_compute in Hloaded.
Defined.







Lemma search_free_ret {A} (a : A) : search_free (ret a).
Proof. by intros found w. Qed.

Lemma search_free_emit (e : Event) : search_free (emit e).
Proof. by intros found w. Qed.

Lemma search_free_bind {A B} (m : M A) (k : A -> M B) :
  search_free m -> (forall a, search_free (k a)) -> search_free (bind m k).
Proof.
  intros Hm Hk found w. rewrite !bind_run, (Hm found w). cbn [result final events].
  destruct (result (m w)) as [a|e]; [| done].
  rewrite Hk. by unfold after.
Qed.

Lemma search_free_syncInstructions `{Platform}
    (workspaceFolder : WorkspaceFolder) (source : InstructionSource)
    (showNotifications requireConfirmation : bool) (session : option nat) :
  search_free (syncInstructions workspaceFolder source showNotifications
                                requireConfirmation session).
Proof.
  intros found w. rewrite !syncInstructions_run. unfold sync_outcome.
  rewrite !fetchContent_run. cbn [result].
  change (fetch_result (url source) (set_findFiles found w))
    with (fetch_result (url source) w).
  destruct (fetch_result (url source) w) as [remoteContent|e]; [| done].
  resolve_source; [| done].
  change (files (set_findFiles found w)) with (files w).
  assert (forall w1,
            write_outcome workspaceFolder source showNotifications remoteContent
                          (set_findFiles found w1)
            = let o := write_outcome workspaceFolder source showNotifications remoteContent
                                     w1 in
              {| result := result o; final := set_findFiles found (final o);
                 events := events o |}) as Hwrite.
  { intros w1. unfold write_outcome. rewrite !writeLocalInstructions_run.
    destruct (resolvable source); [| done].
    destruct (folder (destination_of source)); try done.
    cbv zeta. change (write_denied (set_findFiles found w1)) with (write_denied w1).
    by destruct (write_denied w1 _). }
  destruct (differs _ remoteContent); [| done].
  change (prompts requireConfirmation session (set_findFiles found w))
    with (prompts requireConfirmation session w).
  change (next_answer (set_findFiles found w)) with (next_answer w).
  assert (answered session (set_findFiles found w) = set_findFiles found (answered session w))
    as -> by (unfold answered; change (next_answer (set_findFiles found w))
                with (next_answer w); by destruct (next_answer w) as [[]|], session).
  destruct (prompts requireConfirmation session w); [| apply Hwrite].
  destruct (approves (next_answer w)); [| done].
  by rewrite Hwrite.
Qed.

Lemma search_free_syncPicked `{Platform} (folders : list WorkspaceFolder)
    (source : InstructionSource) :
  search_free (syncPicked folders source).
Proof.
  induction folders as [|workspaceFolder rest IH]; [apply search_free_ret |].
  cbn [syncPicked]. apply search_free_bind; [apply search_free_syncInstructions | by intros _].
Qed.

Lemma search_free_getInstructionSources `{Platform} (forceRefresh : bool) :
  search_free (getInstructionSources forceRefresh).
Proof.
  intros found w. rewrite !getInstructionSources_run. cbv zeta.
  change (settings (set_findFiles found w)) with (settings w).
  assert (remote_config_outcome forceRefresh (set_findFiles found w)
          = let o := remote_config_outcome forceRefresh w in
            {| result := result o; final := set_findFiles found (final o);
               events := events o |}) as ->; [| done].
  unfold remote_config_outcome.
  change (settings (set_findFiles found w)) with (settings w).
  destruct (String.eqb _ ""); [done |].
  change (fresh_cache forceRefresh (set_findFiles found w)) with (fresh_cache forceRefresh w).
  destruct (fresh_cache forceRefresh w); [done |].
  change (loaded_config (set_findFiles found w)) with (loaded_config w).
  by destruct (loaded_config w).
Qed.

(** X27.  What files the workspace folders hold plays no part in a force sync:
    whatever the file search would answer, the command returns, shows and
    writes the same. *)
Theorem forceSync_ignores_workspace_languages `{Platform} (pick : option nat)
    (found : WorkspaceFolder -> string -> bool) (w : World) :
  let o := forceSyncCommand pick w in
  forceSyncCommand pick (set_findFiles found w)
  = {| result := result o; final := set_findFiles found (final o); events := events o |}.
Proof.
  cbv zeta. unfold forceSyncCommand.
  rewrite (bind_read_only _ _ w read_only_get_world).
  rewrite (bind_read_only _ _ (set_findFiles found w) read_only_get_world).
  change (result (get_world w)) with (Ok w).
  change (result (get_world (set_findFiles found w))) with (Ok (set_findFiles found w)).
  cbv beta iota. change (workspaceFolders (set_findFiles found w)) with (workspaceFolders w).
  destruct (workspaceFolders w) as [[|f fs]|]; [done | | done].
  apply search_free_bind; [apply search_free_getInstructionSources |].
  intros [|s ss]; [apply search_free_emit |].
  destruct (pick ≫= _); [apply search_free_syncPicked | apply search_free_ret].
Qed.

(** ** The URL classifiers and the credentials *)

Lemma not_a_suffix (sub suffix host : string) :
  endsWith host suffix = false -> String.eqb (sub +:+ suffix) host = false.
Proof.
  intros Hends. apply String.eqb_neq. intros <-. by rewrite endsWith_app in Hends.
Qed.

(** X28.  Every host under [.github.com] or [.ghe.com] is taken for a GitHub
    Enterprise host, so that the [github-enterprise] provider is asked for its
    token. *)
Theorem github_subdomains_are_enterprise `{Platform} (url sub : string) (parsedUrl : Url) :
  new_URL url = Some parsedUrl ->
  toLowerCase (hostname parsedUrl) = sub +:+ ".github.com" \/
  toLowerCase (hostname parsedUrl) = sub +:+ ".ghe.com" ->
  isGitHubUrl url = {| isGitHub := true; isEnterprise := true |}.
Proof.
  intros Hparsed Hhost. unfold isGitHubUrl. rewrite Hparsed. cbv zeta.
  destruct Hhost as [-> | ->].
  - rewrite !not_a_suffix by reflexivity. cbn [orb].
    by rewrite endsWith_app, orb_true_r.
  - rewrite !not_a_suffix by reflexivity. cbn [orb].
    by rewrite endsWith_app.
Qed.

Lemma github_subdomains_example :
  @isGitHubUrl Reference.platform "https://API.github.com/repos/org/repo/contents/csharp.md"
  = {| isGitHub := true; isEnterprise := true |}.
Proof.
  apply (@github_subdomains_are_enterprise Reference.platform
           "https://API.github.com/repos/org/repo/contents/csharp.md" "api"
           {| hostname := "api.github.com"; pathname := "/repos/org/repo/contents/csharp.md" |});
    [by vm_compute | by left].
Defined.

(** X29.  A URL whose path holds [/_apis/] or [/_git/] is taken for an Azure
    DevOps URL on any host: unless it is a GitHub URL, the request carries the
    Microsoft token. *)
Theorem azure_devops_token_follows_the_path `{Platform} (source token : string)
    (parsedUrl : Url) (w : World) :
  isLocalPath source = false ->
  isGitHub (isGitHubUrl source) = false ->
  new_URL source = Some parsedUrl ->
  includes (pathname parsedUrl) "/_apis/" = true \/
  includes (pathname parsedUrl) "/_git/" = true ->
  ado_token (getSession w) = Some token ->
  token <> "" ->
  fetchContent source w
  = {| result := response_result source
                   (http w source [("Accept", "text/plain");
                                   ("Authorization", "Bearer " +:+ token)]);
       final := w; events := [] |}.
Proof.
  intros Hlocal Hgh Hparsed Hpath Htoken Hne.
  rewrite fetchContent_run. unfold fetch_result, request_headers.
  assert (isAzureDevOpsUrl source = true) as ->.
  { unfold isAzureDevOpsUrl. rewrite Hparsed. cbv zeta.
    destruct (_ || _); [done |]. by destruct Hpath as [-> | ->]; rewrite ?orb_true_r. }
  rewrite Hlocal, Hgh, Htoken. unfold bearer, usable_token.
  by destruct (String.eqb_spec token "").
Qed.

Lemma azure_devops_token_example :
  let w := echo_world signed_in in
  @fetchContent Reference.platform "https://files.example.com/team/_git/docs/csharp.md" w
  = {| result := Ok "# Headers; Accept: text/plain; Authorization: Bearer ms-token";
       final := w; events := [] |}.
Proof.
  intros w.
  apply (@azure_devops_token_follows_the_path Reference.platform
           "https://files.example.com/team/_git/docs/csharp.md" "ms-token"
           {| hostname := "files.example.com"; pathname := "/team/_git/docs/csharp.md" |} w);
    try by vm_compute.
  right. by vm_compute.
Defined.

(** X30.  [getGitHubToken] never asks the provider to create a session: what the
    provider would answer to such a request plays no part. *)
Theorem github_never_forces_sign_in (isEnterprise : bool) (w w' : World) :
  (forall providerId scopes o,
     createIfNone o = false ->
     getSession w' providerId scopes o = getSession w providerId scopes o) ->
  result (getGitHubToken isEnterprise w') = result (getGitHubToken isEnterprise w).
Proof.
  intros Hsame. rewrite !getGitHubToken_run. cbn [result]. unfold github_token. cbv zeta.
  by rewrite !Hsame.
Qed.

Lemma github_never_forces_sign_in_example :
  result (getGitHubToken false (echo_world signs_in_on_demand))
  = result (getGitHubToken false (echo_world (fun _ _ _ => NoSession))).
Proof.
  apply (github_never_forces_sign_in false (echo_world (fun _ _ _ => NoSession))
           (echo_world signs_in_on_demand)).
  intros providerId scopes o Hno. cbn. unfold signs_in_on_demand. by rewrite Hno.
Defined.
